(** * Master research pipeline: integration and cleaning of the country-year panel

    A shallow embedding of [MASTER_PIPELINE.py], steps 1 (data integration)
    and 2 (data cleaning).  Data frames are lists of records, in row order;
    every pandas operation the script calls is written out as a list
    function with the defaults the script relies on: [groupby] sorts its
    keys and drops null keys, [sum] and [mean] skip nulls, a merge keeps
    the order of the left frame and matches a null key with a null key,
    [sort_values] on two columns is stable.

    Numbers: a float column holds a value of [fl], a rational extended with
    the two infinities and NaN (pandas' null).  Arithmetic is exact, so the
    rounding of IEEE doubles is idealised away, and there is no negative
    zero; NaN propagation, division by zero and comparisons with NaN follow
    IEEE 754 as numpy applies it.

    Text: a string cell is [option string], [None] being null.  Strings are
    byte strings, ordered byte by byte (the order of Python on code points
    for UTF-8 text); the case-insensitive pattern folds ASCII letters.

    The two optional sources are [option] values: [None] stands for a file
    that is absent or that raises while it is read.  [load] and [run] put
    the three required files beside them: those are read outside any
    [try], so their failure ends the run.

    [pct_change()] is called with the library default for filling nulls,
    which differs between pandas versions; the model takes it as the
    parameter [fill_pad] and every statement holds for both settings. *)

From Stdlib Require Import List Bool ZArith QArith Qround Lia String Ascii.
From Stdlib Require Import Permutation Sorted Lqa.
Import ListNotations.

Local Open Scope Z_scope.

(* ------------------------------------------------------------------ *)
(** ** Float values *)

Module Fl.

Inductive fl : Type :=
| NaN
| PInf
| NInf
| Fin (q : Q).

Definition isna (x : fl) : bool :=
  match x with NaN => true | _ => false end.

Definition notna (x : fl) : bool := negb (isna x).

Definition of_Z (z : Z) : fl := Fin (inject_Z z).

Definition zero : fl := of_Z 0.

Definition inf (negative : bool) : fl := if negative then NInf else PInf.

(** Sign of a rational: [true] when strictly negative. *)
Definition Qneg (q : Q) : bool := negb (Qle_bool 0 q).

Definition Qzero (q : Q) : bool := Qeq_bool q 0.

Definition neg (x : fl) : fl :=
  match x with
  | NaN => NaN
  | PInf => NInf
  | NInf => PInf
  | Fin q => Fin (Qred (- q))
  end.

Definition add (x y : fl) : fl :=
  match x, y with
  | NaN, _ | _, NaN => NaN
  | PInf, NInf | NInf, PInf => NaN
  | PInf, _ | _, PInf => PInf
  | NInf, _ | _, NInf => NInf
  | Fin a, Fin b => Fin (Qred (a + b))
  end.

Definition sub (x y : fl) : fl := add x (neg y).

Definition mul (x y : fl) : fl :=
  match x, y with
  | NaN, _ | _, NaN => NaN
  | Fin a, Fin b => Fin (Qred (a * b))
  | Fin a, PInf | PInf, Fin a => if Qzero a then NaN else inf (Qneg a)
  | Fin a, NInf | NInf, Fin a => if Qzero a then NaN else inf (negb (Qneg a))
  | PInf, PInf | NInf, NInf => PInf
  | PInf, NInf | NInf, PInf => NInf
  end.

Definition div (x y : fl) : fl :=
  match x, y with
  | NaN, _ | _, NaN => NaN
  | Fin a, Fin b =>
      if Qzero b then (if Qzero a then NaN else inf (Qneg a))
      else Fin (Qred (a / b))
  | Fin _, _ => zero
  | PInf, Fin b => inf (Qneg b)
  | NInf, Fin b => inf (negb (Qneg b))
  | _, _ => NaN
  end.

(** [x <= y] as numpy evaluates it: false as soon as one side is NaN. *)
Definition le (x y : fl) : bool :=
  match x, y with
  | NaN, _ | _, NaN => false
  | NInf, _ | _, PInf => true
  | PInf, _ | _, NInf => false
  | Fin a, Fin b => Qle_bool a b
  end.

Definition ge (x y : fl) : bool := le y x.

Definition dropna (l : list fl) : list fl := filter notna l.

(** [Series.sum()]: nulls are skipped and the empty sum is 0. *)
Definition sum (l : list fl) : fl := fold_left add (dropna l) zero.

(** [Series.mean()]: nulls are skipped; null when nothing is left. *)
Definition mean (l : list fl) : fl :=
  match dropna l with
  | [] => NaN
  | v => div (fold_left add v zero) (of_Z (Z.of_nat (List.length v)))
  end.

Definition fillna (d x : fl) : fl := if isna x then d else x.

End Fl.

Import Fl.

Declare Scope fl_scope.
Delimit Scope fl_scope with fl.
Notation "x + y" := (Fl.add x y) : fl_scope.
Notation "x - y" := (Fl.sub x y) : fl_scope.
Notation "x * y" := (Fl.mul x y) : fl_scope.
Notation "x / y" := (Fl.div x y) : fl_scope.
Notation "x <=? y" := (Fl.le x y) : fl_scope.
Notation "x >=? y" := (Fl.ge x y) : fl_scope.

(* ------------------------------------------------------------------ *)
(** ** Keys and their order *)

Definition opt_eqb {A : Type} (eqb : A -> A -> bool) (x y : option A) : bool :=
  match x, y with
  | Some a, Some b => eqb a b
  | None, None => true
  | _, _ => false
  end.

(** A string cell compared with a literal: a null cell is never equal. *)
Definition cell_is (x : option string) (s : string) : bool :=
  match x with Some a => String.eqb a s | None => false end.

(** The key [(country_name, year)], ordered as Python orders tuples. *)
Definition key : Type := (string * Z)%type.

Definition key_eqb (a b : key) : bool :=
  String.eqb (fst a) (fst b) && (snd a =? snd b).

Definition key_leb (a b : key) : bool :=
  if String.eqb (fst a) (fst b) then snd a <=? snd b
  else String.leb (fst a) (fst b).

Definition key_dec (a b : key) : {a = b} + {a <> b}.
Proof. decide equality; [apply Z.eq_dec | apply string_dec]. Defined.

(* ------------------------------------------------------------------ *)
(** ** Data-frame operations *)

Section Sorting.
Context {A : Type}.
Variable leb : A -> A -> bool.

Fixpoint insert_by (x : A) (l : list A) : list A :=
  match l with
  | [] => [x]
  | y :: l' => if leb x y then x :: l else y :: insert_by x l'
  end.

(** Stable insertion sort: [sort_values] and the key order of [groupby]. *)
Definition sort_by (l : list A) : list A := fold_right insert_by [] l.
End Sorting.

Fixpoint somes {K : Type} (l : list (option K)) : list K :=
  match l with
  | [] => []
  | Some k :: l' => k :: somes l'
  | None :: l' => somes l'
  end.

Section GroupBy.
Context {A K : Type}.
Variable K_dec : forall x y : K, {x = y} + {x <> y}.
Variable K_leb : K -> K -> bool.
Variable by_key : A -> option K.

Definition has_key (k : K) (r : A) : bool :=
  match by_key r with
  | Some k' => if K_dec k' k then true else false
  | None => false
  end.

(** The distinct non-null keys, in sorted order ([sort=True]). *)
Definition group_keys (df : list A) : list K :=
  sort_by K_leb (nodup K_dec (somes (map by_key df))).

(** [df.groupby(keys)]: each key with its rows, in frame order; rows
    whose key is null belong to no group ([dropna=True]). *)
Definition groupby (df : list A) : list (K * list A) :=
  map (fun k => (k, filter (has_key k) df)) (group_keys df).
End GroupBy.

Section Merge.
Context {A B C : Type}.
Variable on : A -> B -> bool.
Variable combine : A -> option B -> C.

(** [left.merge(right, how='left')]: every left row once per matching
    right row, in the order of the right frame, and once with nulls when
    nothing matches. *)
Definition merge_left (left : list A) (right : list B) : list C :=
  flat_map (fun a =>
    match filter (on a) right with
    | [] => [combine a None]
    | ms => map (fun b => combine a (Some b)) ms
    end) left.

Variable both : A -> B -> C.

(** [left.merge(right, how='inner')]: only the matching pairs. *)
Definition merge_inner (left : list A) (right : list B) : list C :=
  flat_map (fun a => map (both a) (filter (on a) right)) left.
End Merge.

(* ------------------------------------------------------------------ *)
(** ** Text cells *)

Local Open Scope string_scope.
Local Open Scope list_scope.
Local Open Scope Z_scope.

(** ASCII lower-casing, for the case-insensitive name pattern. *)
Definition lower_ascii (c : ascii) : ascii :=
  let n := N_of_ascii c in
  if (N.leb 65 n && N.leb n 90)%bool then ascii_of_N (n + 32) else c.

Fixpoint lower_str (s : string) : string :=
  match s with
  | EmptyString => EmptyString
  | String c s' => String (lower_ascii c) (lower_str s')
  end.

Fixpoint contains (pat s : string) : bool :=
  String.prefix pat s ||
  match s with
  | EmptyString => false
  | String _ s' => contains pat s'
  end.

(** [Series.str.contains(p1|p2|..., case=False, na=False)] for patterns
    without regex operators of their own; case is folded on ASCII letters. *)
Definition str_contains_any (pats : list string) (s : string) : bool :=
  existsb (fun p => contains (lower_str p) (lower_str s)) pats.

(* ------------------------------------------------------------------ *)
(** ** The source tables *)

(** [US_ECommerceTotal (1).csv] *)
Record EcomRaw : Type := {
  Economy_Label : option string;
  Year : Z;
  Market_Label : option string;
  EnterpriseSize_Label : option string;
  ECommerceSale_Label : option string;
  USD_millions : fl;          (* 'US$ at current prices in millions' *)
  Pct_turnover : fl           (* 'Percentage in total turnover' *)
}.

(** [Canada_e-com-sales.csv], with [REF_DATE] already parsed into the year
    and month the script extracts from it. *)
Record CanadaRaw : Type := {
  ref_year : Z;
  ref_month : Z;
  Sales : option string;
  VALUE : fl
}.

(** [CLASS_2025_10_07 (1).xlsx], sheet "List of economies" *)
Record ClassRow : Type := {
  Economy : option string;
  Code : option string;
  Region : option string;
  Income_group : option string
}.

(** [share-of-individuals-using-the-internet.csv] *)
Record InternetRow : Type := {
  inet_Code : option string;
  inet_Year : Z;
  inet_pct : fl
}.

(** [GEDEvent_v25_1.xlsx] *)
Record GedRow : Type := {
  ged_year : Z;
  ged_country : option string;
  best : fl;
  deaths_civilians : fl
}.

(** The five inputs.  The two optional sources are [None] when the file is
    absent or reading it raises. *)
Record Sources : Type := {
  df_ecom : list EcomRaw;
  df_canada_raw : option (list CanadaRaw);
  df_class : list ClassRow;
  df_internet : list InternetRow;
  df_ged : option (list GedRow)
}.

(* ------------------------------------------------------------------ *)
(** ** The panel, column group by column group *)

Record EcomRow : Type := {
  country_name : string;
  year : Z;
  ecom_sales_usd_millions : fl;
  ecom_share_pct : fl
}.

Record ClassifiedRow : Type := {
  ecom_of :> EcomRow;
  iso3 : option string;
  region : option string;
  income_group : option string
}.

Record MasterRow : Type := {
  classified_of :> ClassifiedRow;
  internet_users_pct : fl
}.

Record PanelRow : Type := {
  master_of :> MasterRow;
  conflict_deaths : fl;
  civilian_deaths : fl;
  covid_19_shock : Z;
  ukraine_conflict : Z
}.

Record CleanRow : Type := {
  panel_of :> PanelRow;
  ecom_sales_growth : fl;
  internet_growth : fl
}.

Definition key_of (r : EcomRow) : key := (country_name r, year r).

(* ------------------------------------------------------------------ *)
(** ** Step 1: data integration *)

(** Lines 48-52: the Total / All / Total slice. *)
Definition segment_filter (r : EcomRaw) : bool :=
  cell_is (Market_Label r) "Total" &&
  cell_is (EnterpriseSize_Label r) "All (persons employed)" &&
  cell_is (ECommerceSale_Label r) "Total".

Definition ecom_key (r : EcomRaw) : option key :=
  match Economy_Label r with
  | Some c => Some (c, Year r)
  | None => None
  end.

(** Lines 56-64: one row per (country, year), sales summed, share averaged. *)
Definition aggregate_ecom (rows : list EcomRaw) : list EcomRow :=
  map (fun g : key * list EcomRaw =>
         {| country_name := fst (fst g);
            year := snd (fst g);
            ecom_sales_usd_millions := Fl.sum (map USD_millions (snd g));
            ecom_share_pct := Fl.mean (map Pct_turnover (snd g)) |})
      (groupby key_dec key_leb ecom_key rows).

Definition ecom_agg (df : list EcomRaw) : list EcomRow :=
  aggregate_ecom (filter segment_filter df).

(** Lines 78-93: the two monthly series and their inner join. *)
Record CanadaMonthly : Type := {
  cm_year : Z;
  cm_month : Z;
  ecom_sales_thousands : fl;
  total_sales_thousands : fl;
  cm_ecom_share_pct : fl
}.

Definition canada_ecom (raw : list CanadaRaw) : list CanadaRaw :=
  filter (fun r => cell_is (Sales r) "Retail E-commerce sales, unadjusted") raw.

Definition canada_total (raw : list CanadaRaw) : list CanadaRaw :=
  filter (fun r => cell_is (Sales r) "Retail trade, unadjusted [44-453]") raw.

Definition same_month (a b : CanadaRaw) : bool :=
  (ref_year a =? ref_year b) && (ref_month a =? ref_month b).

Definition canada_monthly (raw : list CanadaRaw) : list CanadaMonthly :=
  merge_inner same_month
    (fun e t =>
       {| cm_year := ref_year e;
          cm_month := ref_month e;
          ecom_sales_thousands := VALUE e;
          total_sales_thousands := VALUE t;
          cm_ecom_share_pct := (VALUE e / VALUE t * of_Z 100)%fl |})
    (canada_ecom raw) (canada_total raw).

(** Lines 96-104: yearly sums and means, thousands to millions. *)
Definition canada_yearly (raw : list CanadaRaw) : list EcomRow :=
  map (fun g : Z * list CanadaMonthly =>
         {| country_name := "Canada";
            year := fst g;
            ecom_sales_usd_millions :=
              (Fl.sum (map ecom_sales_thousands (snd g)) / of_Z 1000)%fl;
            ecom_share_pct := Fl.mean (map cm_ecom_share_pct (snd g)) |})
      (groupby Z.eq_dec Z.leb (fun m => Some (cm_year m)) (canada_monthly raw)).

Definition isin (y : Z) (ys : list Z) : bool := existsb (Z.eqb y) ys.

(** Lines 107-112: the override replaces the overlapping Canada years. *)
Definition replace_canada (agg yearly : list EcomRow) : list EcomRow :=
  let canada_years := map year yearly in
  filter (fun r => negb (String.eqb (country_name r) "Canada" &&
                         isin (year r) canada_years)) agg
  ++ yearly.

(** Lines 69-120: when the monthly file cannot be read the aggregate is
    left as it is. *)
Definition with_canada (agg : list EcomRow) (src : option (list CanadaRaw))
  : list EcomRow :=
  match src with
  | Some raw => replace_canada agg (canada_yearly raw)
  | None => agg
  end.

Definition ecom_table (s : Sources) : list EcomRow :=
  with_canada (ecom_agg (df_ecom s)) (df_canada_raw s).

(** Lines 136-137: left join of the classification on the country name. *)
Definition merge_class (agg : list EcomRow) (cls : list ClassRow)
  : list ClassifiedRow :=
  merge_left (fun (a : EcomRow) c => cell_is (Economy c) (country_name a))
    (fun a oc =>
       match oc with
       | Some c => {| ecom_of := a; iso3 := Code c; region := Region c;
                      income_group := Income_group c |}
       | None => {| ecom_of := a; iso3 := None; region := None;
                    income_group := None |}
       end)
    agg cls.

(** Lines 148-149: left join of internet use on (iso3, year); a null code
    on the left matches a null code on the right. *)
Definition merge_internet (m : list ClassifiedRow) (inet : list InternetRow)
  : list MasterRow :=
  merge_left
    (fun (a : ClassifiedRow) i =>
       opt_eqb String.eqb (iso3 a) (inet_Code i) && (year a =? inet_Year i))
    (fun a oi =>
       {| classified_of := a;
          internet_users_pct :=
            match oi with Some i => inet_pct i | None => NaN end |})
    m inet.

Definition set_region (reg : string) (r : MasterRow) : MasterRow :=
  {| classified_of :=
       {| ecom_of := ecom_of r; iso3 := iso3 r; region := Some reg;
          income_group := income_group r |};
     internet_users_pct := internet_users_pct r |}.

(** Lines 155-168: region filters, the territory pattern and the Malta
    correction. *)
Definition filter_regions (m : list MasterRow) : list MasterRow :=
  let m1 := filter (fun r : MasterRow =>
                      negb (cell_is (region r) "Latin America & Caribbean")) m in
  let m2 := filter (fun r : MasterRow =>
                      match region r with Some _ => true | None => false end) m1 in
  let m3 := filter (fun r : MasterRow =>
                      negb (str_contains_any ["Hong Kong"; "Macao"; "SAR"]
                              (country_name r))) m2 in
  map (fun r : MasterRow =>
         if String.eqb (country_name r) "Malta"
         then set_region "Europe & Central Asia" r else r) m3.

(** Lines 176-178: countries with at least two rows. *)
Definition valid_countries (m : list MasterRow) : list string :=
  map fst
    (filter (fun g : string * list MasterRow => 2 <=? Z.of_nat (List.length (snd g)))
       (groupby string_dec String.leb (fun r : MasterRow => Some (country_name r)) m)).

Definition min_coverage (m : list MasterRow) : list MasterRow :=
  filter (fun r : MasterRow =>
            existsb (String.eqb (country_name r)) (valid_countries m)) m.

(** Lines 191-198: conflict events summed per (country, year). *)
Record ConflictRow : Type := {
  cf_country_name : string;
  cf_year : Z;
  cf_conflict_deaths : fl;
  cf_civilian_deaths : fl
}.

Definition ged_key (r : GedRow) : option key :=
  match ged_country r with
  | Some c => Some (c, ged_year r)
  | None => None
  end.

Definition conflict_agg (ged : list GedRow) : list ConflictRow :=
  map (fun g : key * list GedRow =>
         {| cf_country_name := fst (fst g);
            cf_year := snd (fst g);
            cf_conflict_deaths := Fl.sum (map best (snd g));
            cf_civilian_deaths := Fl.sum (map deaths_civilians (snd g)) |})
      (groupby key_dec key_leb ged_key ged).

Definition bool_int (b : bool) : Z := if b then 1 else 0.

(** Lines 210-211. *)
Definition with_shocks (r : MasterRow) (conflict civilian : fl) : PanelRow :=
  {| master_of := r;
     conflict_deaths := conflict;
     civilian_deaths := civilian;
     covid_19_shock := bool_int ((2020 <=? year r) && (year r <=? 2022));
     ukraine_conflict := bool_int (2022 <=? year r) |}.

(** Lines 186-207: left join of the conflict sums with nulls filled by 0,
    or both columns set to 0 when the events cannot be read. *)
Definition merge_conflict (m : list MasterRow) (src : option (list GedRow))
  : list PanelRow :=
  match src with
  | Some ged =>
      merge_left
        (fun (a : MasterRow) c =>
           String.eqb (country_name a) (cf_country_name c) && (year a =? cf_year c))
        (fun a oc =>
           match oc with
           | Some c => with_shocks a (fillna zero (cf_conflict_deaths c))
                                     (fillna zero (cf_civilian_deaths c))
           | None => with_shocks a (fillna zero NaN) (fillna zero NaN)
           end)
        m (conflict_agg ged)
  | None => map (fun a => with_shocks a zero zero) m
  end.

(** Step 1 as a whole: [master] at line 213. *)
Definition integrate (s : Sources) : list PanelRow :=
  let master := merge_class (ecom_table s) (df_class s) in
  let master := merge_internet master (df_internet s) in
  let master := filter_regions master in
  let master := min_coverage master in
  merge_conflict master (df_ged s).

(* ------------------------------------------------------------------ *)
(** ** Step 2: data cleaning *)

Definition row_leb (a b : PanelRow) : bool := key_leb (key_of a) (key_of b).

(** Line 228: [sort_values(['country_name', 'year'])]. *)
Definition sort_values (m : list PanelRow) : list PanelRow := sort_by row_leb m.

Section PctChange.
(** [fill_pad] is the library default the call [pct_change()] gets:
    [true] for [fill_method='pad'] (pandas up to 2.x), [false] for no
    filling (pandas 3). *)
Variable fill_pad : bool.
Variable column : PanelRow -> fl.

(** The last valid value, most recent first ([ffill] inside a group). *)
Fixpoint last_valid (vs : list fl) : fl :=
  match vs with
  | [] => NaN
  | v :: vs' => if isna v then last_valid vs' else v
  end.

Definition filled (earlier : list fl) (v : fl) : fl :=
  if fill_pad then last_valid (v :: earlier) else v.

(** [shift(1)] inside a group: the filled value one row up. *)
Definition shifted (earlier : list fl) : fl :=
  match earlier with
  | [] => NaN
  | v :: rest => filled rest v
  end.

Definition same_country (r : PanelRow) (q : PanelRow) : bool :=
  String.eqb (country_name q) (country_name r).

(** [seen] holds the rows above, nearest first. *)
Fixpoint pct_change_from (seen df : list PanelRow) : list fl :=
  match df with
  | [] => []
  | r :: df' =>
      let earlier := map column (filter (same_country r) seen) in
      (filled earlier (column r) / shifted earlier - of_Z 1)%fl
        :: pct_change_from (r :: seen) df'
  end.

(** [df.groupby('country_name')[column].pct_change()]. *)
Definition pct_change (df : list PanelRow) : list fl := pct_change_from [] df.
End PctChange.

Fixpoint zip3 (rows : list PanelRow) (g1 g2 : list fl) : list CleanRow :=
  match rows, g1, g2 with
  | r :: rows', a :: g1', b :: g2' =>
      {| panel_of := r; ecom_sales_growth := a; internet_growth := b |}
        :: zip3 rows' g1' g2'
  | _, _, _ => []
  end.

(** Lines 228-230. *)
Definition add_growth (fill_pad : bool) (m : list PanelRow) : list CleanRow :=
  let master := sort_values m in
  zip3 master
    (map (fun g => (g * of_Z 100)%fl)
       (pct_change fill_pad (fun r : PanelRow => ecom_sales_usd_millions r) master))
    (map (fun g => (g * of_Z 100)%fl)
       (pct_change fill_pad (fun r : PanelRow => internet_users_pct r) master)).

(** numpy's [_lerp]: [a + (b - a) * t], taken from the upper end as
    [b - (b - a) * (1 - t)] when [t >= 0.5]; the two agree on numbers. *)
Definition lerp (a b : fl) (t : Q) : fl :=
  if Qle_bool (1 # 2) t
  then (b - (b - a) * Fin (Qred (1 - t)))%fl
  else (a + (b - a) * Fin (Qred t))%fl.

(** [Series.quantile(q)]: linear interpolation between the two order
    statistics around position [q * (n - 1)] of the non-null values. *)
Definition quantile (q : Q) (col : list fl) : fl :=
  let vals := sort_by Fl.le (dropna col) in
  match vals with
  | [] => NaN
  | _ =>
      let n := Z.of_nat (List.length vals) in
      let pos := (q * inject_Z (n - 1))%Q in
      let lo := Qfloor pos in
      let a := nth (Z.to_nat lo) vals NaN in
      let b := nth (Z.to_nat (Z.min (lo + 1) (n - 1))) vals NaN in
      lerp a b (pos - inject_Z lo)
  end.

Section Outliers.
Variable column : CleanRow -> fl.

Definition Q1 (df : list CleanRow) : fl := quantile (1 # 4) (map column df).
Definition Q3 (df : list CleanRow) : fl := quantile (3 # 4) (map column df).
Definition IQR (df : list CleanRow) : fl := (Q3 df - Q1 df)%fl.
Definition lower (df : list CleanRow) : fl := (Q1 df - of_Z 3 * IQR df)%fl.
Definition upper (df : list CleanRow) : fl := (Q3 df + of_Z 3 * IQR df)%fl.

(** Lines 234-246. *)
Definition remove_extreme_outliers (df : list CleanRow) : list CleanRow :=
  filter (fun r => (column r >=? lower df)%fl && (column r <=? upper df)%fl
                   || isna (column r)) df.
End Outliers.

(** Lines 252-254: the loop over [['ecom_sales_growth']]. *)
Definition outlier_step (master : list CleanRow) : list CleanRow :=
  fold_left
    (fun master col =>
       if 0 <? Z.of_nat (List.length (filter notna (map col master)))
       then remove_extreme_outliers col master
       else master)
    [ecom_sales_growth] master.

(** Line 260. *)
Definition from_2012 (master : list CleanRow) : list CleanRow :=
  filter (fun r : CleanRow => 2012 <=? year r) master.

(** Step 2 as a whole: the frame written to [master_panel.csv]. *)
Definition clean (fill_pad : bool) (m : list PanelRow) : list CleanRow :=
  from_2012 (outlier_step (add_growth fill_pad m)).

Definition pipeline (fill_pad : bool) (s : Sources) : list CleanRow :=
  clean fill_pad (integrate s).

(* ------------------------------------------------------------------ *)
(** ** Reporting on the emitted panel *)

(** [MASTER_PIPELINE.py] line 341: the frame the charts are drawn from. *)
Definition master_viz (master : list CleanRow) : list CleanRow :=
  filter (fun r : CleanRow => 2012 <=? year r) master.

(** Lines 448-457: the three periods of the box plot. *)
Record PeriodRow : Type := {
  pr_year : Z;
  pr_ecom_share_pct : fl;
  period : string
}.

Definition in_period (name : string) (r : CleanRow) : PeriodRow :=
  {| pr_year := year r; pr_ecom_share_pct := ecom_share_pct r; period := name |}.

Definition pre_covid (mv : list CleanRow) : list PeriodRow :=
  map (in_period "Pre-COVID (2012-2019)")
      (filter (fun r : CleanRow => year r <? 2020) mv).

Definition covid (mv : list CleanRow) : list PeriodRow :=
  map (in_period "COVID Era (2020-2022)")
      (filter (fun r : CleanRow => (2020 <=? year r) && (year r <=? 2022)) mv).

Definition post_covid (mv : list CleanRow) : list PeriodRow :=
  map (in_period "Post-COVID (2023+)")
      (filter (fun r : CleanRow => 2022 <? year r) mv).

Definition all_periods (mv : list CleanRow) : list PeriodRow :=
  pre_covid mv ++ covid mv ++ post_covid mv.

(** Lines 345-348: the yearly points of the global trend, as
    (year, mean share, summed sales). *)
Definition yearly (mv : list CleanRow) : list (Z * fl * fl) :=
  map (fun g : Z * list CleanRow =>
         (fst g,
          Fl.mean (map (fun r : CleanRow => ecom_share_pct r) (snd g)),
          Fl.sum (map (fun r : CleanRow => ecom_sales_usd_millions r) (snd g))))
      (groupby Z.eq_dec Z.leb (fun r : CleanRow => Some (year r)) mv).

(** [str.replace(old, new)] for a one-character [old]. *)
Fixpoint replace_char (old : ascii) (new : string) (s : string) : string :=
  match s with
  | EmptyString => EmptyString
  | String c s' =>
      if Ascii.eqb c old then (new ++ replace_char old new s')%string
      else String c (replace_char old new s')
  end.

(** Line 520: the file-name part made from a region. *)
Definition safe_name (region : string) : string :=
  replace_char "&" "and" (replace_char "," "" (replace_char " " "_" region)).

(** [regenerate_visualizations.py] and [visualize_countries_by_region.py],
    lines 27-30: the filters applied to the panel read back from
    [analysis_ready.csv], the frame read being the frame written. *)
Definition reload_filters (master : list CleanRow) : list CleanRow :=
  filter (fun r : CleanRow => 2012 <=? year r)
    (filter (fun r : CleanRow =>
               negb (cell_is (region r) "Latin America & Caribbean")) master).

(** [analyze_research_questions.py], lines 32-43: the two development
    groups and the three period masks. *)
Definition developed (df : list CleanRow) : list CleanRow :=
  filter (fun r : CleanRow => cell_is (income_group r) "High income") df.

Definition developing (df : list CleanRow) : list CleanRow :=
  filter (fun r : CleanRow =>
            cell_is (income_group r) "Upper middle income"
            || cell_is (income_group r) "Lower middle income") df.

Definition covid_periods : list (string * (CleanRow -> bool)) :=
  [ ("Pre-COVID (2012-2019)",
     fun r : CleanRow => (2012 <=? year r) && (year r <? 2020));
    ("COVID Era (2020-2022)",
     fun r : CleanRow => (2020 <=? year r) && (year r <=? 2022));
    ("Post-COVID (2023+)",
     fun r : CleanRow => 2023 <=? year r) ].

(** [x > y] as numpy evaluates it: false as soon as one side is NaN. *)
Definition fl_gt (x y : fl) : bool := Fl.le y x && negb (Fl.le x y).

(** Lines 181-191: total conflict deaths per country, the high-conflict
    flag, and the totals merged back onto the panel. *)
Definition conflict_intensity (df : list CleanRow) : list (string * fl * Z) :=
  map (fun g : string * list CleanRow =>
         let total := Fl.sum (map (fun r : CleanRow => conflict_deaths r) (snd g)) in
         (fst g, total, bool_int (fl_gt total (of_Z 100))))
      (groupby string_dec String.leb
         (fun r : CleanRow => Some (country_name r)) df).

Record ConflictPanelRow : Type := {
  cp_row : CleanRow;
  total_conflict_deaths : fl;
  high_conflict : Z
}.

Definition df_conflict (df : list CleanRow) : list ConflictPanelRow :=
  merge_inner
    (fun (r : CleanRow) (c : string * fl * Z) =>
       String.eqb (country_name r) (fst (fst c)))
    (fun r c => {| cp_row := r;
                   total_conflict_deaths := snd (fst c);
                   high_conflict := snd c |})
    df (conflict_intensity df).

(* ------------------------------------------------------------------ *)
(** ** Vocabulary of the statements *)

(** The rows of the primary source that make up the group of country [c]
    and year [y]: market "Total", enterprise size "All (persons employed)"
    and sale type "Total", with that country and year. *)
Definition in_group (c : string) (y : Z) (r : EcomRaw) : bool :=
  cell_is (Market_Label r) "Total" &&
  cell_is (EnterpriseSize_Label r) "All (persons employed)" &&
  cell_is (ECommerceSale_Label r) "Total" &&
  cell_is (Economy_Label r) c && (Year r =? y).

Definition ecom_group (df : list EcomRaw) (c : string) (y : Z) : list EcomRaw :=
  filter (in_group c y) df.

Definition rows_at {R : Type} (key_of_row : R -> key) (k : key) (df : list R)
  : list R :=
  filter (fun r => key_eqb (key_of_row r) k) df.

Definition panel_key (r : PanelRow) : key := key_of r.
Definition clean_key (r : CleanRow) : key := key_of r.

(** At most one classification row per country name. *)
Definition one_row_per_country (cls : list ClassRow) : Prop :=
  NoDup (somes (map Economy cls)).

(** The internet rows joined to a row with code [code] and year [y]. *)
Definition internet_rows_at (inet : list InternetRow) (code : option string)
           (y : Z) : list InternetRow :=
  filter (fun i => opt_eqb String.eqb code (inet_Code i) && (y =? inet_Year i)) inet.

(** At most one internet row per year for the code of each classified
    economy, that is of each classification row that has a region. *)
Definition one_row_per_code_year (cls : list ClassRow) (inet : list InternetRow)
  : Prop :=
  forall c y, In c cls -> Region c <> None ->
              (List.length (internet_rows_at inet (Code c) y) <= 1)%nat.

Definition classified_by (cls : list ClassRow) (p : PanelRow) : Prop :=
  exists c, In c cls /\ Economy c = Some (country_name p) /\
            Region c <> None /\ income_group p = Income_group c.

Definition no_event (ged : list GedRow) (p : PanelRow) : Prop :=
  forall g, In g ged -> ged_country g = Some (country_name p) ->
            ged_year g <> year p.

Definition zero_deaths (p : PanelRow) : Prop :=
  conflict_deaths p = zero /\ civilian_deaths p = zero.

Definition rows_of_country {R : Type} (name : R -> string) (c : string)
           (df : list R) : list R :=
  filter (fun r => String.eqb (name r) c) df.


(** The growth of one row, from its value and the values of the rows of
    its country above it, nearest first. *)
Definition growth_of (fill_pad : bool) (earlier : list fl) (v : fl) : fl :=
  ((filled fill_pad earlier v / shifted fill_pad earlier - of_Z 1) * of_Z 100)%fl.

Definition sales_of (r : PanelRow) : fl := ecom_sales_usd_millions r.
Definition internet_of (r : PanelRow) : fl := internet_users_pct r.

Definition above (r : PanelRow) (seen : list PanelRow) : list PanelRow :=
  filter (same_country r) seen.

(** [add_growth] read row by row, [seen] being the rows above. *)
Fixpoint annotate (fill_pad : bool) (seen df : list PanelRow) : list CleanRow :=
  match df with
  | [] => []
  | r :: df' =>
      {| panel_of := r;
         ecom_sales_growth :=
           growth_of fill_pad (map sales_of (above r seen)) (sales_of r);
         internet_growth :=
           growth_of fill_pad (map internet_of (above r seen)) (internet_of r) |}
        :: annotate fill_pad (r :: seen) df'
  end.

(** [r] is a row of its country's earliest year in [g]. *)
Definition earliest_in (g : list CleanRow) (r : CleanRow) : Prop :=
  forall q : CleanRow,
    In q g -> country_name q = country_name r -> year r <= year q.

(** [p] is the row of [r]'s country just before [r] in year order. *)
Definition precedes_in (g : list CleanRow) (p r : CleanRow) : Prop :=
  In p g /\ country_name p = country_name r /\ year p < year r /\
  forall q : CleanRow,
    In q g -> country_name q = country_name r ->
    ~ (year p < year q < year r).

Definition finite_nonzero (x : fl) : Prop :=
  exists a, x = Fin a /\ ~ (a == 0)%Q.

(** The percentage change from [a] to [b]. *)
Definition pct (a b : Q) : Q := ((b / a - 1) * 100)%Q.

(** No row of [r]'s country for the year before [r]'s. *)
Definition no_previous_year (g : list CleanRow) (r : CleanRow) : Prop :=
  forall q : CleanRow,
    In q g -> country_name q = country_name r -> year q <> year r - 1.

(** The interval as the specification words it, with Q1 in the upper bound. *)
Definition within_Q1_bounds (column : CleanRow -> fl) (df : list CleanRow)
           (r : CleanRow) : bool :=
  ((Q1 column df - of_Z 3 * IQR column df <=? column r)
   && (column r <=? Q1 column df + of_Z 3 * IQR column df))%fl.

(** The interval of [remove_extreme_outliers]. *)
Definition within_bounds (column : CleanRow -> fl) (df : list CleanRow)
           (r : CleanRow) : bool :=
  ((lower column df <=? column r) && (column r <=? upper column df))%fl.

(** The specification's reading of the growth columns: null exactly where
    the year before is absent. *)
Definition null_iff_no_previous_year (g : list CleanRow) : Prop :=
  forall r, In r g ->
    (isna (ecom_sales_growth r) = true <-> no_previous_year g r).


(** The outlier step removes the outliers of [column]: what it keeps,
    outlier removal on [column] keeps. *)
Definition filtered_on (column : CleanRow -> fl) (df : list CleanRow) : Prop :=
  forall r, In r (outlier_step df) -> In r (remove_extreme_outliers column df).

(* ------------------------------------------------------------------ *)
(** ** Example sources *)

Definition total_row (c : string) (y : Z) (sales share : fl) : EcomRaw :=
  {| Economy_Label := Some c; Year := y;
     Market_Label := Some "Total";
     EnterpriseSize_Label := Some "All (persons employed)";
     ECommerceSale_Label := Some "Total";
     USD_millions := sales; Pct_turnover := share |}.


Definition aland_class : list ClassRow :=
  [ {| Economy := Some "Aland"; Code := Some "ALA";
       Region := Some "Europe & Central Asia";
       Income_group := Some "High income" |} ].

(** Two internet rows for the same code and year; the classification has
    one row per country. *)
Definition repeated_internet_sources : Sources :=
  {| df_ecom := [ total_row "Aland" 2019 (of_Z 10) (of_Z 2);
                  total_row "Aland" 2020 (of_Z 20) (of_Z 3) ];
     df_canada_raw := None;
     df_class := [ {| Economy := Some "Aland"; Code := Some "ALA";
                      Region := Some "Europe & Central Asia";
                      Income_group := Some "High income" |} ];
     df_internet := [ {| inet_Code := Some "ALA"; inet_Year := 2019;
                         inet_pct := of_Z 50 |};
                      {| inet_Code := Some "ALA"; inet_Year := 2019;
                         inet_pct := of_Z 51 |} ];
     df_ged := None |}.

(** A primary source that reaches past 2024. *)
Definition past_2024_sources : Sources :=
  {| df_ecom := [ total_row "Aland" 2024 (of_Z 10) (of_Z 2);
                  total_row "Aland" 2025 (of_Z 20) (of_Z 3) ];
     df_canada_raw := None;
     df_class := aland_class;
     df_internet := [];
     df_ged := None |}.

(** Every year within 2012-2024. *)
Definition in_range_sources : Sources :=
  {| df_ecom := [ total_row "Aland" 2019 (of_Z 10) (of_Z 2);
                  total_row "Aland" 2020 (of_Z 20) (of_Z 3) ];
     df_canada_raw := None;
     df_class := aland_class;
     df_internet := [];
     df_ged := None |}.

(** A country observed in 2015 and 2017, not in 2016. *)
Definition gap_year_sources : Sources :=
  {| df_ecom := [ total_row "Aland" 2015 (of_Z 100) (of_Z 2);
                  total_row "Aland" 2017 (of_Z 150) (of_Z 3) ];
     df_canada_raw := None;
     df_class := aland_class;
     df_internet := [ {| inet_Code := Some "ALA"; inet_Year := 2015;
                         inet_pct := of_Z 40 |};
                      {| inet_Code := Some "ALA"; inet_Year := 2017;
                         inet_pct := of_Z 50 |} ];
     df_ged := None |}.

(** A panel row with a given sales growth rate. *)
Definition growth_row (y : Z) (g : fl) : CleanRow :=
  {| panel_of :=
       with_shocks
         {| classified_of :=
              {| ecom_of := {| country_name := "Aland"; year := y;
                               ecom_sales_usd_millions := of_Z 100;
                               ecom_share_pct := of_Z 2 |};
                 iso3 := Some "ALA";
                 region := Some "Europe & Central Asia";
                 income_group := Some "High income" |};
            internet_users_pct := NaN |}
         zero zero;
     ecom_sales_growth := g;
     internet_growth := NaN |}.

(** The growth-rate column [1, 2, 3, 4, 5, 1000]. *)
Definition growth_rows_1000 : list CleanRow :=
  [ growth_row 2013 (of_Z 1); growth_row 2014 (of_Z 2);
    growth_row 2015 (of_Z 3); growth_row 2016 (of_Z 4);
    growth_row 2017 (of_Z 5); growth_row 2018 (of_Z 1000) ].

(** The growth-rate column [1, 2, 3, 4, 5, 10]. *)
Definition growth_rows_10 : list CleanRow :=
  [ growth_row 2013 (of_Z 1); growth_row 2014 (of_Z 2);
    growth_row 2015 (of_Z 3); growth_row 2016 (of_Z 4);
    growth_row 2017 (of_Z 5); growth_row 2018 (of_Z 10) ].

(** Every column but [ecom_sales_growth] overwritten with extreme values. *)
Definition overwrite_other_columns (r : CleanRow) : CleanRow :=
  {| panel_of :=
       {| master_of :=
            {| classified_of :=
                 {| ecom_of := {| country_name := country_name r;
                                  year := year r;
                                  ecom_sales_usd_millions := PInf;
                                  ecom_share_pct := of_Z 1000000 |};
                    iso3 := iso3 r;
                    region := region r;
                    income_group := income_group r |};
               internet_users_pct := of_Z 1000000 |};
          conflict_deaths := PInf;
          civilian_deaths := PInf;
          covid_19_shock := covid_19_shock r;
          ukraine_conflict := ukraine_conflict r |};
     ecom_sales_growth := ecom_sales_growth r;
     internet_growth := NInf |}.

(** Sales doubling every year; internet use doubling, then tripling. *)
Definition doubling_sources : Sources :=
  {| df_ecom := [ total_row "Aland" 2012 (of_Z 100) (of_Z 2);
                  total_row "Aland" 2013 (of_Z 200) (of_Z 2);
                  total_row "Aland" 2014 (of_Z 400) (of_Z 2);
                  total_row "Aland" 2015 (of_Z 800) (of_Z 2);
                  total_row "Aland" 2016 (of_Z 1600) (of_Z 2);
                  total_row "Aland" 2017 (of_Z 3200) (of_Z 2);
                  total_row "Aland" 2018 (of_Z 6400) (of_Z 2) ];
     df_canada_raw := None;
     df_class := aland_class;
     df_internet :=
       map (fun yv : Z * Z =>
              {| inet_Code := Some "ALA"; inet_Year := fst yv;
                 inet_pct := of_Z (snd yv) |})
           [ (2012, 1); (2013, 2); (2014, 4); (2015, 8); (2016, 16);
             (2017, 32); (2018, 96) ];
     df_ged := None |}.

Definition canada_row (y m : Z) (series : string) (v : Z) : CanadaRaw :=
  {| ref_year := y; ref_month := m; Sales := Some series; VALUE := of_Z v |}.

(** June 2020 in both series, December 2020 without its total-sales record. *)
Definition override_raw : list CanadaRaw :=
  [ canada_row 2020 6 "Retail E-commerce sales, unadjusted" 100;
    canada_row 2020 6 "Retail trade, unadjusted [44-453]" 1000;
    canada_row 2020 12 "Retail E-commerce sales, unadjusted" 200 ].

Definition override_sources : Sources :=
  {| df_ecom := [ total_row "Canada" 2019 (of_Z 500) (of_Z 4);
                  total_row "Canada" 2020 (of_Z 999) (of_Z 5) ];
     df_canada_raw := Some override_raw;
     df_class := [ {| Economy := Some "Canada"; Code := Some "CAN";
                      Region := Some "North America";
                      Income_group := Some "High income" |} ];
     df_internet := [];
     df_ged := None |}.



(** A classified country whose income group is missing in the
    classification source. *)
Definition null_income_sources : Sources :=
  {| df_ecom := [ total_row "Aland" 2019 (of_Z 10) (of_Z 2);
                  total_row "Aland" 2020 (of_Z 20) (of_Z 3) ];
     df_canada_raw := None;
     df_class := [ {| Economy := Some "Aland"; Code := Some "ALA";
                      Region := Some "Europe & Central Asia";
                      Income_group := None |} ];
     df_internet := [];
     df_ged := None |}.

(** Events for Aland in 2019 only; no monthly override. *)
Definition events_sources : Sources :=
  {| df_ecom := [ total_row "Aland" 2019 (of_Z 10) (of_Z 2);
                  total_row "Aland" 2020 (of_Z 20) (of_Z 3) ];
     df_canada_raw := None;
     df_class := aland_class;
     df_internet := [ {| inet_Code := Some "ALA"; inet_Year := 2019;
                         inet_pct := of_Z 50 |};
                      {| inet_Code := Some "ALA"; inet_Year := 2020;
                         inet_pct := of_Z 55 |} ];
     df_ged := Some [ {| ged_year := 2019; ged_country := Some "Aland";
                         best := of_Z 7; deaths_civilians := of_Z 3 |} ] |}.

(** An internet source with two regional aggregates that carry no code. *)
Definition aggregates_sources : Sources :=
  {| df_ecom := [ total_row "Aland" 2019 (of_Z 10) (of_Z 2);
                  total_row "Aland" 2020 (of_Z 20) (of_Z 3);
                  total_row "Nowhere" 2019 (of_Z 1) (of_Z 1) ];
     df_canada_raw := None;
     df_class := aland_class;
     df_internet := [ {| inet_Code := Some "ALA"; inet_Year := 2019;
                         inet_pct := of_Z 50 |};
                      {| inet_Code := Some "ALA"; inet_Year := 2020;
                         inet_pct := of_Z 55 |};
                      {| inet_Code := None; inet_Year := 2019;
                         inet_pct := of_Z 60 |};
                      {| inet_Code := None; inet_Year := 2019;
                         inet_pct := of_Z 70 |} ];
     df_ged := None |}.

Definition no_events_sources : Sources :=
  {| df_ecom := df_ecom events_sources;
     df_canada_raw := None;
     df_class := aland_class;
     df_internet := [];
     df_ged := None |}.

(** One row before 2012 and one from 2012 on. *)
Definition straddling_sources : Sources :=
  {| df_ecom := [ total_row "Aland" 2011 (of_Z 10) (of_Z 2);
                  total_row "Aland" 2012 (of_Z 20) (of_Z 3) ];
     df_canada_raw := None;
     df_class := aland_class;
     df_internet := [];
     df_ged := None |}.

(* ------------------------------------------------------------------ *)
(** ** Constants of the integration *)

Definition excluded_region : string := "Latin America & Caribbean".
Definition territory_patterns : list string := ["Hong Kong"; "Macao"; "SAR"].
Definition corrected_region : string := "Europe & Central Asia".

(** A Malta whose classification row has no region. *)
Definition malta_sources : Sources :=
  {| df_ecom := [ total_row "Malta" 2019 (of_Z 10) (of_Z 2);
                  total_row "Malta" 2020 (of_Z 20) (of_Z 3);
                  total_row "Aland" 2019 (of_Z 10) (of_Z 2);
                  total_row "Aland" 2020 (of_Z 20) (of_Z 3) ];
     df_canada_raw := None;
     df_class := [ {| Economy := Some "Malta"; Code := Some "MLT";
                      Region := None; Income_group := Some "High income" |};
                   {| Economy := Some "Aland"; Code := Some "ALA";
                      Region := Some "Europe & Central Asia";
                      Income_group := Some "High income" |} ];
     df_internet := [];
     df_ged := None |}.

Definition master_country (r : MasterRow) : string := country_name r.
Definition panel_country (p : PanelRow) : string := country_name p.
Definition clean_country (r : CleanRow) : string := country_name r.

(** A text of ASCII characters only: on such a text every
    case-insensitive match folds the letters A to Z and nothing else. *)
Definition ascii_text (s : string) : Prop :=
  Forall (fun c => (N_of_ascii c < 128)%N) (list_ascii_of_string s).

(** The name is ASCII text, is classified in [cls] with a region that is
    kept, and lies outside the territory pattern. *)
Definition kept_name (cls : list ClassRow) (name : string) : Prop :=
  ascii_text name /\
  (exists c reg, In c cls /\ Economy c = Some name /\
                 Region c = Some reg /\ reg <> excluded_region) /\
  str_contains_any territory_patterns name = false.

(** The events of country [c] in year [y]. *)
Definition events_at (ged : list GedRow) (c : string) (y : Z) : list GedRow :=
  filter (fun g => cell_is (ged_country g) c && (ged_year g =? y)) ged.

Definition clean_leb (a b : CleanRow) : bool :=
  key_leb (clean_key a) (clean_key b).

(** A monthly file with the e-commerce series only. *)
Definition one_series_sources : Sources :=
  {| df_ecom := [ total_row "Canada" 2019 (of_Z 500) (of_Z 4);
                  total_row "Canada" 2020 (of_Z 999) (of_Z 5) ];
     df_canada_raw :=
       Some [ canada_row 2020 6 "Retail E-commerce sales, unadjusted" 100;
              canada_row 2020 7 "Retail E-commerce sales, unadjusted" 120 ];
     df_class := [];
     df_internet := [];
     df_ged := None |}.

(** A column whose non-null cells are all numbers (no infinity). *)
Definition finite_column (col : list fl) : Prop :=
  Forall (fun x => x = NaN \/ exists q, x = Fin q) col.

(** Linear interpolation in a list of numbers at the fractional position
    [pos], as [quantile] takes it. *)
Definition interp (qs : list Q) (pos : Q) : Q :=
  let lo := Qfloor pos in
  let n := Z.of_nat (List.length qs) in
  let a := nth (Z.to_nat lo) qs 0%Q in
  let b := nth (Z.to_nat (Z.min (lo + 1) (n - 1))) qs 0%Q in
  (a + (b - a) * (pos - inject_Z lo))%Q.

Definition Qleb_sorted (qs : list Q) : Prop :=
  StronglySorted (fun a b => Qle_bool a b = true) qs.

(** Total conflict deaths over the rows of country [c]. *)
Definition total_of (df : list CleanRow) (c : string) : fl :=
  Fl.sum (map (fun r : CleanRow => conflict_deaths r)
              (rows_of_country clean_country c df)).

Definition chars (s : string) : list ascii := list_ascii_of_string s.

(** A country whose 2019 sales cell is empty. *)
Definition empty_cell_sources : Sources :=
  {| df_ecom := [ total_row "Aland" 2019 NaN NaN;
                  total_row "Aland" 2020 (of_Z 20) (of_Z 3) ];
     df_canada_raw := None;
     df_class := aland_class;
     df_internet := [];
     df_ged := None |}.

(* ------------------------------------------------------------------ *)
(** ** Reading the files *)

(** The five files as a run finds them: [None] is a file that is absent or
    whose reading raises. *)
Record Files : Type := {
  ecom_file : option (list EcomRaw);
  canada_file : option (list CanadaRaw);
  class_file : option (list ClassRow);
  internet_file : option (list InternetRow);
  ged_file : option (list GedRow)
}.

(** Lines 44, 125 and 141 read their file outside any [try], so an
    exception there ends the run; lines 69-120 and 186-207 catch theirs and
    go on. *)
Definition load (f : Files) : option Sources :=
  match ecom_file f, class_file f, internet_file f with
  | Some ecom, Some cls, Some inet =>
      Some {| df_ecom := ecom; df_canada_raw := canada_file f;
              df_class := cls; df_internet := inet; df_ged := ged_file f |}
  | _, _, _ => None
  end.

(** A run: the emitted panel, or nothing when the run is aborted. *)
Definition run (fill_pad : bool) (f : Files) : option (list CleanRow) :=
  option_map (pipeline fill_pad) (load f).

(* ------------------------------------------------------------------ *)
(** ** The aggregate and the optional sources in the panel *)

(** The aggregated row of the group of country [c] and year [y]. *)
Definition group_row (df : list EcomRaw) (c : string) (y : Z) : EcomRow :=
  {| country_name := c; year := y;
     ecom_sales_usd_millions := Fl.sum (map USD_millions (ecom_group df c y));
     ecom_share_pct := Fl.mean (map Pct_turnover (ecom_group df c y)) |}.

(** The monthly override, if it is loaded, does not cover year [y] of
    country [c]. *)
Definition not_overridden (s : Sources) (c : string) (y : Z) : Prop :=
  match df_canada_raw s with
  | Some raw => c <> "Canada" \/ ~ In y (map year (canada_yearly raw))
  | None => True
  end.

(** [master] at line 178, before the conflict columns are added. *)
Definition master_before_conflict (s : Sources) : list MasterRow :=
  min_coverage
    (filter_regions
       (merge_internet (merge_class (ecom_table s) (df_class s))
          (df_internet s))).

(** The same sources with the conflict events failing to load. *)
Definition without_events (s : Sources) : Sources :=
  {| df_ecom := df_ecom s; df_canada_raw := df_canada_raw s;
     df_class := df_class s; df_internet := df_internet s; df_ged := None |}.







(** The files of [no_events_sources]: both optional files are missing. *)
Definition required_files_only : Files :=
  {| ecom_file := Some (df_ecom events_sources);
     canada_file := None;
     class_file := Some aland_class;
     internet_file := Some [];
     ged_file := None |}.

(* ================================================================== *)
(** * Facts about the data-frame operations *)

(** [nth_row n] proves [In r df] for a frame that evaluates to a list with
    [r] at position [n]. *)
Tactic Notation "nth_row" integer(n) :=
  vm_compute; do n right; left; reflexivity.

Section SortingFacts.
Context {A : Type}.
Variable leb : A -> A -> bool.

Lemma insert_by_perm (x : A) (l : list A) :
  Permutation (insert_by leb x l) (x :: l).
Proof.
  induction l as [|y l IH]; simpl.
  - apply Permutation_refl.
  - destruct (leb x y).
    + apply Permutation_refl.
    + eapply perm_trans; [apply perm_skip, IH | apply perm_swap].
Qed.

Lemma sort_by_perm (l : list A) : Permutation (sort_by leb l) l.
Proof.
  induction l as [|x l IH]; simpl.
  - constructor.
  - eapply perm_trans; [apply insert_by_perm | now apply perm_skip].
Qed.

Lemma sort_by_In (l : list A) (x : A) : In x (sort_by leb l) <-> In x l.
Proof.
  split; apply Permutation_in;
    [apply sort_by_perm | apply Permutation_sym, sort_by_perm].
Qed.

Lemma sort_by_NoDup (l : list A) : NoDup l -> NoDup (sort_by leb l).
Proof.
  intro H. eapply Permutation_NoDup; [apply Permutation_sym, sort_by_perm | exact H].
Qed.

Lemma sort_by_map_perm {B : Type} (f : A -> B) (l : list A) :
  Permutation (map f (sort_by leb l)) (map f l).
Proof. apply Permutation_map, sort_by_perm. Qed.

Hypothesis leb_total : forall x y, leb x y = true \/ leb y x = true.
Hypothesis leb_trans : forall x y z, leb x y = true -> leb y z = true -> leb x z = true.

Lemma insert_by_sorted (x : A) (l : list A) :
  StronglySorted (fun a b => leb a b = true) l ->
  StronglySorted (fun a b => leb a b = true) (insert_by leb x l).
Proof.
  induction 1 as [|y l Hs IH Hall]; simpl.
  - constructor; constructor.
  - destruct (leb x y) eqn:E.
    + constructor; [constructor; assumption|].
      constructor; [exact E|].
      eapply Forall_impl; [|exact Hall].
      intros z Hz. now apply leb_trans with y.
    + constructor; [exact IH|].
      assert (Hyx : leb y x = true) by (destruct (leb_total x y); congruence).
      rewrite Forall_forall. intros z Hz.
      apply (Permutation_in _ (insert_by_perm x l)) in Hz.
      destruct Hz as [<-|Hz]; [exact Hyx|].
      rewrite Forall_forall in Hall. now apply Hall.
Qed.

Lemma sort_by_sorted (l : list A) :
  StronglySorted (fun a b => leb a b = true) (sort_by leb l).
Proof.
  induction l as [|x l IH]; simpl; [constructor | now apply insert_by_sorted].
Qed.
End SortingFacts.

Lemma somes_In {K : Type} (l : list (option K)) (k : K) :
  In k (somes l) <-> In (Some k) l.
Proof.
  induction l as [|[x|] l IH]; simpl.
  - tauto.
  - rewrite IH. split; intros [H|H]; auto; left; congruence.
  - rewrite IH. split; [auto | intros [H|H]; [discriminate | exact H]].
Qed.

Lemma filter_none {A : Type} (f : A -> bool) (l : list A) :
  (forall x, In x l -> f x = false) -> filter f l = [].
Proof.
  induction l as [|x l IH]; simpl; intro H; [reflexivity|].
  rewrite (H x (or_introl eq_refl)). apply IH. intros y Hy. apply H. now right.
Qed.

Lemma filter_comm {A : Type} (f g : A -> bool) (l : list A) :
  filter f (filter g l) = filter g (filter f l).
Proof.
  induction l as [|x l IH]; simpl; [reflexivity|].
  destruct (f x) eqn:Ef, (g x) eqn:Eg; simpl; rewrite ?Ef, ?Eg, IH; reflexivity.
Qed.

Lemma filter_unique {K : Type} (K_dec : forall x y : K, {x = y} + {x <> y})
      (l : list K) (k : K) :
  NoDup l -> In k l ->
  filter (fun x => if K_dec x k then true else false) l = [k].
Proof.
  induction 1 as [|x l Hx Hnd IH]; simpl; [tauto|].
  intros [->|Hin].
  - destruct (K_dec k k) as [_|n]; [|congruence].
    f_equal. apply filter_none. intros y Hy.
    destruct (K_dec y k) as [->|_]; [contradiction | reflexivity].
  - destruct (K_dec x k) as [->|_]; [contradiction | now apply IH].
Qed.

Section GroupByFacts.
Context {A K : Type}.
Variable K_dec : forall x y : K, {x = y} + {x <> y}.
Variable K_leb : K -> K -> bool.
Variable by_key : A -> option K.

Lemma group_keys_NoDup (df : list A) : NoDup (group_keys K_dec K_leb by_key df).
Proof. apply sort_by_NoDup, NoDup_nodup. Qed.

Lemma group_keys_In (df : list A) (k : K) :
  In k (group_keys K_dec K_leb by_key df) <->
  exists r, In r df /\ by_key r = Some k.
Proof.
  unfold group_keys. rewrite sort_by_In, nodup_In, somes_In, in_map_iff.
  split; intros [r H]; exists r; tauto.
Qed.

Lemma groupby_keys (df : list A) :
  map fst (groupby K_dec K_leb by_key df) = group_keys K_dec K_leb by_key df.
Proof. unfold groupby. rewrite map_map. simpl. apply map_id. Qed.

Lemma has_key_true (k : K) (r : A) :
  has_key K_dec by_key k r = true <-> by_key r = Some k.
Proof.
  unfold has_key. destruct (by_key r) as [k'|]; [|split; discriminate].
  destruct (K_dec k' k) as [->|n]; split; try reflexivity; try discriminate.
  intro H. congruence.
Qed.

(** Each key that occurs has exactly one group, made of its rows. *)
Lemma groupby_select (df : list A) (k : K) :
  (exists r, In r df /\ by_key r = Some k) ->
  filter (fun g : K * list A => if K_dec (fst g) k then true else false)
         (groupby K_dec K_leb by_key df)
  = [(k, filter (has_key K_dec by_key k) df)].
Proof.
  intro Hk. apply group_keys_In in Hk.
  unfold groupby. rewrite filter_map_swap. simpl.
  now rewrite (filter_unique K_dec _ k (group_keys_NoDup df) Hk).
Qed.

Lemma groupby_In (df : list A) (g : K * list A) :
  In g (groupby K_dec K_leb by_key df) ->
  snd g = filter (has_key K_dec by_key (fst g)) df /\ snd g <> [].
Proof.
  unfold groupby. rewrite in_map_iff. intros [k [<- Hk]]. simpl.
  split; [reflexivity|].
  apply group_keys_In in Hk. destruct Hk as [r [Hr Hkey]].
  intro E. assert (Hin : In r (filter (has_key K_dec by_key k) df)).
  { apply filter_In. split; [exact Hr | now apply has_key_true]. }
  rewrite E in Hin. exact Hin.
Qed.
End GroupByFacts.

(* ================================================================== *)
(** * Keys *)

Lemma key_eqb_eq (a b : key) : key_eqb a b = true <-> a = b.
Proof.
  destruct a as [c y], b as [c' y']. unfold key_eqb. simpl.
  rewrite andb_true_iff, String.eqb_eq, Z.eqb_eq.
  split; [intros [-> ->]; reflexivity | intros [= -> ->]; auto].
Qed.

Lemma key_eqb_dec (a b : key) :
  key_eqb a b = if key_dec a b then true else false.
Proof.
  destruct (key_dec a b) as [->|n].
  - now apply key_eqb_eq.
  - destruct (key_eqb a b) eqn:E; [apply key_eqb_eq in E; contradiction | reflexivity].
Qed.

Lemma cell_is_true (x : option string) (s : string) :
  cell_is x s = true <-> x = Some s.
Proof.
  destruct x as [a|]; simpl; [|split; discriminate].
  rewrite String.eqb_eq. split; congruence.
Qed.

(* ================================================================== *)
(** * The global aggregate *)

Lemma in_group_has_key (c : string) (y : Z) (r : EcomRaw) :
  in_group c y r = segment_filter r && has_key key_dec ecom_key (c, y) r.
Proof.
  unfold in_group, segment_filter. rewrite <- (andb_assoc _ _ (Year r =? y)).
  f_equal.
  unfold has_key, ecom_key, cell_is.
  destruct (Economy_Label r) as [c'|]; [|reflexivity].
  rewrite <- key_eqb_dec. reflexivity.
Qed.

Lemma ecom_group_filter (df : list EcomRaw) (c : string) (y : Z) :
  ecom_group df c y
  = filter (has_key key_dec ecom_key (c, y)) (filter segment_filter df).
Proof.
  unfold ecom_group. induction df as [|r df IH]; simpl; [reflexivity|].
  rewrite in_group_has_key.
  destruct (segment_filter r); simpl; [|exact IH].
  destruct (has_key key_dec ecom_key (c, y) r); now rewrite IH.
Qed.

Lemma aggregate_ecom_keys (rows : list EcomRaw) :
  map key_of (aggregate_ecom rows) = group_keys key_dec key_leb ecom_key rows.
Proof.
  unfold aggregate_ecom. rewrite map_map. rewrite <- groupby_keys.
  apply map_ext. intros [[c y] g]. reflexivity.
Qed.

Lemma Qzero_false (a : Q) : ~ (a == 0)%Q -> Qzero a = false.
Proof.
  intro H. unfold Qzero. destruct (Qeq_bool a 0) eqn:E; [|reflexivity].
  apply Qeq_bool_iff in E. contradiction.
Qed.





(* ================================================================== *)
(** * Joins *)

Section MergeFacts.
Context {A B C : Type}.
Variable on : A -> B -> bool.
Variable combine : A -> option B -> C.

Lemma merge_left_In (left : list A) (right : list B) (c : C) :
  In c (merge_left on combine left right) ->
  exists a, In a left /\
    ((c = combine a None /\ filter (on a) right = []) \/
     (exists b, In b right /\ on a b = true /\ c = combine a (Some b))).
Proof.
  unfold merge_left. rewrite in_flat_map. intros [a [Ha Hc]].
  exists a. split; [exact Ha|].
  destruct (filter (on a) right) as [|b ms] eqn:E.
  - left. destruct Hc as [<-|[]]. auto.
  - right. rewrite in_map_iff in Hc. destruct Hc as [b' [<- Hb']].
    rewrite <- E in Hb'. apply filter_In in Hb'. exists b'. tauto.
Qed.

(** With at most one match per left row, the join keeps the left frame
    row for row. *)
Lemma merge_left_map {K : Type} (f : C -> K) (g : A -> K)
      (left : list A) (right : list B) :
  (forall a ob, f (combine a ob) = g a) ->
  (forall a, In a left -> (List.length (filter (on a) right) <= 1)%nat) ->
  map f (merge_left on combine left right) = map g left.
Proof.
  intros Hf. unfold merge_left.
  induction left as [|a left IH]; intro H1; [reflexivity|].
  cbn [flat_map]. rewrite map_app, IH by (intros; apply H1; now right).
  specialize (H1 a (or_introl eq_refl)).
  destruct (filter (on a) right) as [|b [|b' ms]]; simpl in *;
    [now rewrite Hf | now rewrite Hf | lia].
Qed.

(** A filter that looks at the left columns only can run before the join. *)
Lemma filter_merge_left (f : C -> bool) (f' : A -> bool)
      (left : list A) (right : list B) :
  (forall a ob, f (combine a ob) = f' a) ->
  filter f (merge_left on combine left right)
  = merge_left on combine (filter f' left) right.
Proof.
  intro Hf. unfold merge_left.
  induction left as [|a left IH]; [reflexivity|].
  cbn [flat_map filter]. rewrite filter_app, IH.
  destruct (f' a) eqn:E; cbn [flat_map].
  - f_equal. apply forallb_filter_id. apply forallb_forall. intros c Hc.
    destruct (filter (on a) right) as [|b ms].
    + destruct Hc as [<-|[]]. now rewrite Hf.
    + apply in_map_iff in Hc. destruct Hc as [b' [<- _]]. now rewrite Hf.
  - rewrite filter_none; [reflexivity|]. intros c Hc.
    destruct (filter (on a) right) as [|b ms].
    + destruct Hc as [<-|[]]. now rewrite Hf.
    + apply in_map_iff in Hc. destruct Hc as [b' [<- _]]. now rewrite Hf.
Qed.
End MergeFacts.

Lemma NoDup_filter_le1 {A K : Type} (f : A -> K) (p : A -> bool) (k : K)
      (l : list A) :
  NoDup (map f l) -> (forall x, In x l -> p x = true -> f x = k) ->
  (List.length (filter p l) <= 1)%nat.
Proof.
  induction l as [|x l IH]; simpl; intros Hnd Hp; [lia|].
  inversion Hnd as [|? ? Hx Hnd']; subst.
  destruct (p x) eqn:E; [|apply IH; auto].
  simpl. rewrite filter_none; [simpl; lia|].
  intros y Hy. destruct (p y) eqn:Ey; [|reflexivity].
  exfalso. apply Hx. rewrite (Hp x (or_introl eq_refl) E).
  rewrite <- (Hp y (or_intror Hy) Ey). now apply in_map.
Qed.

Lemma NoDup_somes_filter_le1 {A K : Type} (f : A -> option K) (p : A -> bool)
      (k : K) (l : list A) :
  NoDup (somes (map f l)) -> (forall x, In x l -> p x = true -> f x = Some k) ->
  (List.length (filter p l) <= 1)%nat.
Proof.
  induction l as [|x l IH]; simpl; intros Hnd Hp; [lia|].
  destruct (p x) eqn:E.
  - rewrite (Hp x (or_introl eq_refl) E) in Hnd.
    inversion Hnd as [|? ? Hx Hnd']; subst.
    simpl. rewrite filter_none; [simpl; lia|].
    intros y Hy. destruct (p y) eqn:Ey; [|reflexivity].
    exfalso. apply Hx. apply somes_In.
    rewrite <- (Hp y (or_intror Hy) Ey). now apply in_map.
  - apply IH; [|auto].
    destruct (f x); [now inversion Hnd | exact Hnd].
Qed.

Lemma NoDup_map_filter {A K : Type} (f : A -> K) (p : A -> bool) (l : list A) :
  NoDup (map f l) -> NoDup (map f (filter p l)).
Proof.
  induction l as [|x l IH]; simpl; intro H; [constructor|].
  inversion H as [|? ? Hx Hnd]; subst.
  destruct (p x); simpl; [|now apply IH].
  constructor; [|now apply IH].
  rewrite in_map_iff in *. intros [y [Hy Hin]]. apply Hx.
  exists y. split; [exact Hy|]. apply filter_In in Hin. tauto.
Qed.

(* ================================================================== *)
(** * The key (country_name, year) through the stages *)

Lemma ecom_agg_NoDup (df : list EcomRaw) : NoDup (map key_of (ecom_agg df)).
Proof.
  unfold ecom_agg. rewrite aggregate_ecom_keys. apply group_keys_NoDup.
Qed.

Lemma canada_yearly_years (raw : list CanadaRaw) :
  map year (canada_yearly raw)
  = group_keys Z.eq_dec Z.leb (fun m => Some (cm_year m)) (canada_monthly raw).
Proof.
  unfold canada_yearly. rewrite map_map, <- groupby_keys.
  apply map_ext. now intros [y g].
Qed.

Lemma canada_yearly_country (raw : list CanadaRaw) (r : EcomRow) :
  In r (canada_yearly raw) -> country_name r = "Canada".
Proof.
  unfold canada_yearly. rewrite in_map_iff. now intros [g [<- _]].
Qed.

Lemma isin_In (y : Z) (ys : list Z) : isin y ys = true <-> In y ys.
Proof.
  unfold isin. rewrite existsb_exists. split.
  - intros [x [Hx E]]. apply Z.eqb_eq in E. now subst.
  - intro H. exists y. split; [exact H | apply Z.eqb_refl].
Qed.

Lemma replace_canada_NoDup (agg yearly : list EcomRow) :
  NoDup (map key_of agg) -> NoDup (map year yearly) ->
  (forall r, In r yearly -> country_name r = "Canada") ->
  NoDup (map key_of (replace_canada agg yearly)).
Proof.
  intros Hagg Hy Hc. unfold replace_canada. rewrite map_app.
  apply NoDup_app.
  - now apply NoDup_map_filter.
  - apply NoDup_map_inv with (f := @snd string Z). rewrite map_map. exact Hy.
  - intros k H1 H2.
    rewrite in_map_iff in H1, H2.
    destruct H1 as [a [<- Ha]], H2 as [b [Hk Hb]].
    apply filter_In in Ha. destruct Ha as [_ Ha].
    injection Hk as Hcn Hyr.
    rewrite <- Hcn, (Hc b Hb), String.eqb_refl in Ha. simpl in Ha.
    rewrite <- Hyr in Ha.
    assert (isin (year b) (map year yearly) = true)
      by (apply isin_In; now apply in_map).
    rewrite H in Ha. discriminate.
Qed.

Lemma ecom_table_NoDup (s : Sources) : NoDup (map key_of (ecom_table s)).
Proof.
  unfold ecom_table, with_canada.
  destruct (df_canada_raw s) as [raw|]; [|apply ecom_agg_NoDup].
  apply replace_canada_NoDup.
  - apply ecom_agg_NoDup.
  - rewrite canada_yearly_years. apply group_keys_NoDup.
  - apply canada_yearly_country.
Qed.

Lemma merge_class_In (agg : list EcomRow) (cls : list ClassRow) (a : ClassifiedRow) :
  In a (merge_class agg cls) ->
  In (ecom_of a) agg /\
  (region a = None \/
   exists c, In c cls /\ Economy c = Some (country_name a) /\
             iso3 a = Code c /\ region a = Region c /\
             income_group a = Income_group c).
Proof.
  intro H. apply merge_left_In in H.
  destruct H as [e [He [[-> _]|[c [Hc [Hon ->]]]]]]; simpl.
  - auto.
  - split; [exact He|]. right. exists c. apply cell_is_true in Hon. auto.
Qed.

Lemma merge_class_keys (agg : list EcomRow) (cls : list ClassRow) :
  one_row_per_country cls ->
  map (fun r : ClassifiedRow => key_of r) (merge_class agg cls) = map key_of agg.
Proof.
  intro H. unfold merge_class. apply merge_left_map.
  - now intros a [c|].
  - intros a _. apply (NoDup_somes_filter_le1 Economy _ (country_name a)); [exact H|].
    intros c _. apply cell_is_true.
Qed.

Lemma has_region_NoDup (m : list ClassifiedRow) (inet : list InternetRow) :
  NoDup (map (fun r : ClassifiedRow => key_of r) m) ->
  (forall a : ClassifiedRow,
      In a m -> region a <> None ->
      (List.length (internet_rows_at inet (iso3 a) (year a)) <= 1)%nat) ->
  NoDup (map (fun r : MasterRow => key_of r)
             (filter (fun r : MasterRow =>
                        match region r with Some _ => true | None => false end)
                     (merge_internet m inet))).
Proof.
  intros Hnd H1. unfold merge_internet.
  rewrite (filter_merge_left _ _ _
             (fun a : ClassifiedRow =>
                match region a with Some _ => true | None => false end))
    by reflexivity.
  erewrite merge_left_map with (g := fun a : ClassifiedRow => key_of a).
  - now apply NoDup_map_filter.
  - reflexivity.
  - intros a Ha. apply filter_In in Ha. destruct Ha as [Ha Hr].
    apply (H1 a Ha). destruct (region a); [discriminate | discriminate].
Qed.

Lemma filter_regions_NoDup (m : list ClassifiedRow) (inet : list InternetRow) :
  NoDup (map (fun r : ClassifiedRow => key_of r) m) ->
  (forall a : ClassifiedRow,
      In a m -> region a <> None ->
      (List.length (internet_rows_at inet (iso3 a) (year a)) <= 1)%nat) ->
  NoDup (map (fun r : MasterRow => key_of r)
             (filter_regions (merge_internet m inet))).
Proof.
  intros Hnd H1. unfold filter_regions. rewrite map_map.
  erewrite map_ext.
  - apply NoDup_map_filter. rewrite filter_comm.
    apply NoDup_map_filter. now apply has_region_NoDup.
  - intro r. simpl. now destruct (String.eqb (country_name r) "Malta").
Qed.

Lemma min_coverage_NoDup (m : list MasterRow) :
  NoDup (map (fun r : MasterRow => key_of r) m) ->
  NoDup (map (fun r : MasterRow => key_of r) (min_coverage m)).
Proof. apply NoDup_map_filter. Qed.

Lemma conflict_agg_keys (ged : list GedRow) :
  map (fun c => (cf_country_name c, cf_year c)) (conflict_agg ged)
  = group_keys key_dec key_leb ged_key ged.
Proof.
  unfold conflict_agg. rewrite map_map, <- groupby_keys.
  apply map_ext. now intros [[c y] g].
Qed.

Lemma conflict_match_le1 (ged : list GedRow) (a : MasterRow) :
  (List.length
     (filter (fun c => String.eqb (country_name a) (cf_country_name c)
                       && (year a =? cf_year c)%Z)
             (conflict_agg ged)) <= 1)%nat.
Proof.
  apply (NoDup_filter_le1 (fun c => (cf_country_name c, cf_year c)) _
           (country_name a, year a)).
  - rewrite conflict_agg_keys. apply group_keys_NoDup.
  - intros c _ E. apply andb_true_iff in E. destruct E as [E1 E2].
    apply String.eqb_eq in E1. apply Z.eqb_eq in E2. congruence.
Qed.

Lemma merge_conflict_masters (m : list MasterRow) (src : option (list GedRow)) :
  map master_of (merge_conflict m src) = m.
Proof.
  unfold merge_conflict. destruct src as [ged|].
  - rewrite <- (map_id m) at 2. apply merge_left_map.
    + now intros a [c|].
    + intros a _. apply conflict_match_le1.
  - rewrite map_map. apply map_id.
Qed.

Lemma merge_conflict_keys (m : list MasterRow) (src : option (list GedRow)) :
  map panel_key (merge_conflict m src) = map (fun r : MasterRow => key_of r) m.
Proof.
  rewrite <- (merge_conflict_masters m src) at 2. now rewrite map_map.
Qed.

Lemma integrate_NoDup (s : Sources) :
  one_row_per_country (df_class s) ->
  one_row_per_code_year (df_class s) (df_internet s) ->
  NoDup (map panel_key (integrate s)).
Proof.
  intros Hc Hi. unfold integrate. rewrite merge_conflict_keys.
  apply min_coverage_NoDup, filter_regions_NoDup.
  - rewrite merge_class_keys by assumption. apply ecom_table_NoDup.
  - intros a Ha Hr. apply merge_class_In in Ha.
    destruct Ha as [_ [Hn|[c [Hin [_ [Hcode [Hreg _]]]]]]]; [contradiction|].
    rewrite Hcode. apply Hi; [exact Hin | congruence].
Qed.

(* ================================================================== *)
(** * The cleaner keeps rows whole *)

Lemma pct_change_from_length (pad : bool) (col : PanelRow -> fl)
      (df seen : list PanelRow) :
  List.length (pct_change_from pad col seen df) = List.length df.
Proof.
  revert seen. induction df as [|r df IH]; intro seen; simpl; [reflexivity|].
  now rewrite IH.
Qed.

Lemma zip3_panels (rows : list PanelRow) (g1 g2 : list fl) :
  List.length g1 = List.length rows -> List.length g2 = List.length rows ->
  map panel_of (zip3 rows g1 g2) = rows.
Proof.
  revert g1 g2. induction rows as [|r rows IH]; intros [|a g1] [|b g2];
    simpl; try discriminate; try reflexivity.
  intros [= H1] [= H2]. now rewrite IH.
Qed.

Lemma add_growth_panels (pad : bool) (m : list PanelRow) :
  map panel_of (add_growth pad m) = sort_values m.
Proof.
  unfold add_growth. apply zip3_panels;
    rewrite length_map; apply pct_change_from_length.
Qed.

Lemma outlier_step_eq (master : list CleanRow) :
  outlier_step master
  = if (0 <? Z.of_nat (List.length (filter notna (map ecom_sales_growth master))))%Z
    then remove_extreme_outliers ecom_sales_growth master
    else master.
Proof. reflexivity. Qed.

Lemma outlier_step_In (master : list CleanRow) (r : CleanRow) :
  In r (outlier_step master) -> In r master.
Proof.
  rewrite outlier_step_eq.
  destruct (0 <? _)%Z; [|auto].
  unfold remove_extreme_outliers. rewrite filter_In. tauto.
Qed.

Lemma outlier_step_NoDup {K : Type} (f : CleanRow -> K) (master : list CleanRow) :
  NoDup (map f master) -> NoDup (map f (outlier_step master)).
Proof.
  rewrite outlier_step_eq.
  destruct (0 <? _)%Z; [|auto]. apply NoDup_map_filter.
Qed.

Lemma clean_In (pad : bool) (m : list PanelRow) (r : CleanRow) :
  In r (clean pad m) -> In (panel_of r) m /\ (2012 <= year r)%Z.
Proof.
  unfold clean, from_2012. rewrite filter_In. intros [H Hy].
  apply Z.leb_le in Hy. split; [|exact Hy].
  apply outlier_step_In in H.
  apply (in_map panel_of) in H. rewrite add_growth_panels in H.
  now apply sort_by_In in H.
Qed.

Lemma clean_NoDup (pad : bool) (m : list PanelRow) :
  NoDup (map panel_key m) -> NoDup (map clean_key (clean pad m)).
Proof.
  intro H. unfold clean, from_2012.
  apply NoDup_map_filter, outlier_step_NoDup.
  change clean_key with (fun r : CleanRow => panel_key (panel_of r)).
  rewrite <- map_map, add_growth_panels.
  eapply Permutation_NoDup; [|exact H].
  apply Permutation_sym, sort_by_map_perm.
Qed.

(** C1, as the code has it.  With at most one classification row per
    country name and at most one internet row per year for the code of each
    classified economy, no two rows of the integrated panel share
    (country_name, year), and no two rows of the emitted panel do. *)
Theorem C1_key_unique (fill_pad : bool) (s : Sources) :
  one_row_per_country (df_class s) ->
  one_row_per_code_year (df_class s) (df_internet s) ->
  NoDup (map panel_key (integrate s)) /\
  NoDup (map clean_key (pipeline fill_pad s)).
Proof.
  intros Hc Hi.
  pose proof (integrate_NoDup s Hc Hi) as H.
  split; [exact H | now apply clean_NoDup].
Qed.

(** C1 as stated fails: a classification with one row per country does not
    keep the key unique when the internet source repeats a (code, year). *)
Lemma C1_duplicate_internet_rows :
  one_row_per_country (df_class repeated_internet_sources) /\
  ~ NoDup (map panel_key (integrate repeated_internet_sources)) /\
  (forall fill_pad, ~ NoDup (map clean_key (pipeline fill_pad repeated_internet_sources))).
Proof.
  split; [|split].
  - unfold one_row_per_country. simpl. repeat constructor. intros [].
  - assert (E : map panel_key (integrate repeated_internet_sources)
                = [("Aland", 2019); ("Aland", 2019); ("Aland", 2020)])
      by (vm_compute; reflexivity).
    rewrite E. intro H. inversion H as [|? ? Hn _]. apply Hn. now left.
  - intro pad.
    assert (E : map clean_key (pipeline pad repeated_internet_sources)
                = [("Aland", 2019); ("Aland", 2019); ("Aland", 2020)])
      by (destruct pad; vm_compute; reflexivity).
    rewrite E. intro H. inversion H as [|? ? Hn _]. apply Hn. now left.
Qed.

(* ================================================================== *)
(** * Where a panel row comes from *)

Lemma merge_internet_In (m : list ClassifiedRow) (inet : list InternetRow)
      (r : MasterRow) :
  In r (merge_internet m inet) -> In (classified_of r) m.
Proof.
  intro H. apply merge_left_In in H.
  destruct H as [a [Ha [[-> _]|[i [_ [_ ->]]]]]]; exact Ha.
Qed.

Lemma filter_regions_In (m : list MasterRow) (r : MasterRow) :
  In r (filter_regions m) ->
  exists r0, In r0 m /\ region r0 <> None /\
    ecom_of r = ecom_of r0 /\ iso3 r = iso3 r0 /\
    income_group r = income_group r0 /\
    internet_users_pct r = internet_users_pct r0 /\
    (region r = region r0 \/
     (country_name r = "Malta" /\ region r = Some "Europe & Central Asia")).
Proof.
  unfold filter_regions. rewrite in_map_iff. intros [r0 [<- H]].
  repeat (apply filter_In in H; destruct H as [H ?]).
  exists r0. split; [exact H|]. split.
  - destruct (region r0); [discriminate | discriminate].
  - destruct (String.eqb (country_name r0) "Malta") eqn:E; simpl.
    + apply String.eqb_eq in E. repeat split; auto.
    + repeat split; auto.
Qed.

Lemma merge_conflict_In (m : list MasterRow) (src : option (list GedRow))
      (p : PanelRow) :
  In p (merge_conflict m src) -> In (master_of p) m.
Proof.
  intro H. apply (in_map master_of) in H.
  now rewrite merge_conflict_masters in H.
Qed.

(** Every row of the integrated panel carries one row of the e-commerce
    table unchanged, and the codes of a classification row with a region. *)
Lemma integrate_In (s : Sources) (p : PanelRow) :
  In p (integrate s) ->
  In (ecom_of p) (ecom_table s) /\
  exists c, In c (df_class s) /\ Economy c = Some (country_name p) /\
            Region c <> None /\ iso3 p = Code c /\
            income_group p = Income_group c /\
            (region p = Region c \/
             (country_name p = "Malta" /\ region p = Some "Europe & Central Asia")).
Proof.
  unfold integrate. intro H.
  apply merge_conflict_In in H.
  unfold min_coverage in H. apply filter_In in H. destruct H as [H _].
  apply filter_regions_In in H.
  destruct H as [r0 [H [Hreg [He [Hiso [Hinc [_ Hr]]]]]]].
  apply merge_internet_In in H. apply merge_class_In in H.
  destruct H as [Hin [Hnone|[c [Hc [Heco [Hcode [Hregion Hincome]]]]]]];
    [contradiction|].
  change (ecom_of (classified_of (master_of p))) with (ecom_of p) in He.
  split; [rewrite He; exact Hin|].
  exists c. split; [exact Hc|].
  unfold country_name in *.
  repeat split.
  - now rewrite He.
  - now rewrite <- Hregion.
  - congruence.
  - congruence.
  - destruct Hr as [Hr|Hr]; [left; congruence | right; exact Hr].
Qed.

Lemma pipeline_In (pad : bool) (s : Sources) (r : CleanRow) :
  In r (pipeline pad s) -> In (panel_of r) (integrate s) /\ (2012 <= year r)%Z.
Proof. apply clean_In. Qed.

Lemma ecom_agg_In_source (df : list EcomRaw) (e : EcomRow) :
  In e (ecom_agg df) ->
  exists r, In r df /\ segment_filter r = true /\
            Economy_Label r = Some (country_name e) /\ Year r = year e.
Proof.
  intro H. apply (in_map key_of) in H.
  unfold ecom_agg in H. rewrite aggregate_ecom_keys in H.
  apply group_keys_In in H. destruct H as [r [Hr Hk]].
  apply filter_In in Hr. destruct Hr as [Hr Hseg].
  exists r. split; [exact Hr|]. split; [exact Hseg|].
  unfold ecom_key in Hk. destruct (Economy_Label r); [|discriminate].
  injection Hk as -> ->. auto.
Qed.

Lemma canada_monthly_In (raw : list CanadaRaw) (m : CanadaMonthly) :
  In m (canada_monthly raw) <->
  exists e t, In e (canada_ecom raw) /\ In t (canada_total raw) /\
              ref_year e = ref_year t /\ ref_month e = ref_month t /\
              m = {| cm_year := ref_year e; cm_month := ref_month e;
                     ecom_sales_thousands := VALUE e;
                     total_sales_thousands := VALUE t;
                     cm_ecom_share_pct := (VALUE e / VALUE t * of_Z 100)%fl |}.
Proof.
  unfold canada_monthly, merge_inner. rewrite in_flat_map. split.
  - intros [e [He Hm]]. rewrite in_map_iff in Hm.
    destruct Hm as [t [<- Ht]]. apply filter_In in Ht. destruct Ht as [Ht Hon].
    unfold same_month in Hon. apply andb_true_iff in Hon.
    rewrite !Z.eqb_eq in Hon. exists e, t. tauto.
  - intros [e [t [He [Ht [Hy [Hmo ->]]]]]]. exists e. split; [exact He|].
    apply in_map_iff. exists t. split; [reflexivity|].
    apply filter_In. split; [exact Ht|].
    unfold same_month. now rewrite Hy, Hmo, !Z.eqb_refl.
Qed.

Lemma canada_yearly_In_source (raw : list CanadaRaw) (e : EcomRow) :
  In e (canada_yearly raw) -> exists c, In c raw /\ ref_year c = year e.
Proof.
  intro H. apply (in_map year) in H. rewrite canada_yearly_years in H.
  apply group_keys_In in H. destruct H as [m [Hm Hk]].
  apply canada_monthly_In in Hm.
  destruct Hm as [c [t [Hc [_ [_ [_ ->]]]]]]. simpl in Hk.
  exists c. split; [|congruence].
  unfold canada_ecom in Hc. apply filter_In in Hc. tauto.
Qed.

Lemma ecom_table_In (s : Sources) (e : EcomRow) :
  In e (ecom_table s) ->
  In e (ecom_agg (df_ecom s)) \/
  exists raw, df_canada_raw s = Some raw /\ In e (canada_yearly raw).
Proof.
  unfold ecom_table, with_canada.
  destruct (df_canada_raw s) as [raw|]; [|auto].
  unfold replace_canada. rewrite in_app_iff, filter_In.
  intros [[H _]|H]; [left; exact H | right; exists raw; auto].
Qed.

(* ================================================================== *)
(** * The year window *)

(** C2, as the code has it.  Every row of the emitted panel has
    year >= 2012, the last filter keeping exactly the rows from 2012 on.
    There is no upper cut: a year above 2024 is absent from the output
    when no year of the primary source or of the monthly override exceeds
    2024. *)
Theorem C2_year_window (fill_pad : bool) (s : Sources) :
  Forall (fun r : CleanRow => 2012 <= year r) (pipeline fill_pad s) /\
  (forall master r, In r (from_2012 master) <-> In r master /\ 2012 <= year r) /\
  ((forall e, In e (df_ecom s) -> Year e <= 2024) ->
   (forall raw c, df_canada_raw s = Some raw -> In c raw -> ref_year c <= 2024) ->
   Forall (fun r : CleanRow => 2012 <= year r <= 2024) (pipeline fill_pad s)).
Proof.
  split; [|split].
  - apply Forall_forall. intros r H. now apply pipeline_In in H.
  - intros master r. unfold from_2012. rewrite filter_In, Z.leb_le. tauto.
  - intros He Hc. apply Forall_forall. intros r H.
    apply pipeline_In in H. destruct H as [H Hy]. split; [exact Hy|].
    apply integrate_In in H. destruct H as [H _].
    change (year (ecom_of (panel_of r))) with (year r) in *.
    apply ecom_table_In in H. destruct H as [H|[raw [Hraw H]]].
    + apply ecom_agg_In_source in H. destruct H as [e [Hin [_ [_ <-]]]].
      now apply He.
    + apply canada_yearly_In_source in H. destruct H as [c [Hin <-]].
      now apply (Hc raw).
Qed.

(** A source whose years all lie within 2012-2024. *)
Lemma C2_years_in_range :
  (forall e, In e (df_ecom in_range_sources) -> Year e <= 2024) /\
  (forall raw c, df_canada_raw in_range_sources = Some raw ->
                 In c raw -> ref_year c <= 2024) /\
  Forall (fun r : CleanRow => 2012 <= year r <= 2024)
         (pipeline true in_range_sources).
Proof.
  assert (H1 : forall e, In e (df_ecom in_range_sources) -> Year e <= 2024)
    by (intros e [<-|[<-|[]]]; simpl; lia).
  assert (H2 : forall raw c, df_canada_raw in_range_sources = Some raw ->
                             In c raw -> ref_year c <= 2024)
    by (intros raw c H; discriminate H).
  split; [exact H1|]. split; [exact H2|].
  exact (proj2 (proj2 (C2_year_window true in_range_sources)) H1 H2).
Defined.

Lemma year_2025_emitted (fill_pad : bool) :
  ~ Forall (fun r : CleanRow => 2012 <= year r <= 2024)
           (pipeline fill_pad past_2024_sources).
Proof.
  intro H. rewrite Forall_forall in H.
  assert (E : exists r, In r (pipeline fill_pad past_2024_sources) /\ year r = 2025).
  { destruct fill_pad; eexists;
      (split; [nth_row 1 | reflexivity]). }
  destruct E as [r [Hr Hy]]. specialize (H r Hr). lia.
Qed.

(** C2 as stated fails: a 2025 row of the primary source reaches the
    emitted panel, whichever fill default [pct_change] has. *)
Lemma C2_year_2025_emitted :
  ~ Forall (fun r : CleanRow => 2012 <= year r <= 2024)
           (pipeline true past_2024_sources) /\
  ~ Forall (fun r : CleanRow => 2012 <= year r <= 2024)
           (pipeline false past_2024_sources).
Proof. split; apply year_2025_emitted. Qed.

(* ================================================================== *)
(** * Classification *)

(** C8, as the code has it.  Every row of the integrated panel, and of the
    emitted panel, has a non-null region and carries a classification row
    of its country name that has a region: a row whose lookup failed is
    dropped.  Its income group is the one of that classification row, null
    when the classification leaves it null. *)
Theorem C8_region_non_null (fill_pad : bool) (s : Sources) :
  Forall (fun p : PanelRow => region p <> None /\ classified_by (df_class s) p)
         (integrate s) /\
  Forall (fun r : CleanRow => region r <> None /\ classified_by (df_class s) r)
         (pipeline fill_pad s).
Proof.
  assert (H : forall p, In p (integrate s) ->
                        region p <> None /\ classified_by (df_class s) p).
  { intros p Hp. apply integrate_In in Hp.
    destruct Hp as [_ [c [Hc [He [Hr [_ [Hi Hreg]]]]]]]. split.
    - destruct Hreg as [->|[_ ->]]; [exact Hr | discriminate].
    - exists c. auto. }
  split; apply Forall_forall.
  - exact H.
  - intros r Hr. apply pipeline_In in Hr. apply H. tauto.
Qed.

(** C8 as stated fails for the income group: a classified row keeps a null
    income group through every filter. *)
Lemma C8_null_income_group :
  ~ Forall (fun p : PanelRow => region p <> None /\ income_group p <> None)
           (integrate null_income_sources) /\
  (forall fill_pad,
      ~ Forall (fun r : CleanRow => region r <> None /\ income_group r <> None)
               (pipeline fill_pad null_income_sources)).
Proof.
  split; [|intro pad]; intro H; rewrite Forall_forall in H.
  - assert (E : exists p, In p (integrate null_income_sources) /\ income_group p = None)
      by (eexists; split; [nth_row 0 | reflexivity]).
    destruct E as [p [Hp Hn]]. destruct (H p Hp) as [_ Hi]. exact (Hi Hn).
  - assert (E : exists r : CleanRow,
                 In r (pipeline pad null_income_sources) /\ income_group r = None)
      by (destruct pad; eexists;
          (split; [nth_row 0 | reflexivity])).
    destruct E as [r [Hr Hn]]. destruct (H r Hr) as [_ Hi]. exact (Hi Hn).
Qed.

(* ================================================================== *)
(** * Optional sources *)

Lemma isna_fillna_zero (x : fl) : isna (fillna zero x) = false.
Proof. now destruct x. Qed.

Lemma conflict_agg_In_source (ged : list GedRow) (c : ConflictRow) :
  In c (conflict_agg ged) ->
  exists g, In g ged /\ ged_country g = Some (cf_country_name c) /\
            ged_year g = cf_year c.
Proof.
  intro H. apply (in_map (fun c => (cf_country_name c, cf_year c))) in H.
  rewrite conflict_agg_keys in H. apply group_keys_In in H.
  destruct H as [g [Hg Hk]]. exists g. split; [exact Hg|].
  unfold ged_key in Hk. destruct (ged_country g); [|discriminate].
  injection Hk as -> ->. auto.
Qed.

Lemma merge_conflict_some (m : list MasterRow) (ged : list GedRow) (p : PanelRow) :
  In p (merge_conflict m (Some ged)) ->
  isna (conflict_deaths p) = false /\ isna (civilian_deaths p) = false /\
  (no_event ged p -> zero_deaths p).
Proof.
  unfold merge_conflict. intro H. apply merge_left_In in H.
  destruct H as [a [_ [[-> _]|[c [Hc [Hon ->]]]]]]; simpl.
  - split; [reflexivity|]. split; [reflexivity|]. intros _. now split.
  - rewrite !isna_fillna_zero.
    split; [reflexivity|]. split; [reflexivity|]. intro Hno. exfalso.
    apply andb_true_iff in Hon. destruct Hon as [E1 E2].
    apply String.eqb_eq in E1. apply Z.eqb_eq in E2.
    apply conflict_agg_In_source in Hc. destruct Hc as [g [Hg [Hgc Hgy]]].
    apply (Hno g Hg); simpl; congruence.
Qed.

(* ================================================================== *)
(** * Minimum coverage and the year filter *)

(** C10.  The minimum-coverage filter runs before the year filter: a
    country with one row before 2012 and one from 2012 on has its two rows
    in the integrated panel and exactly one row in the emitted panel. *)
Theorem C10_single_row_country (fill_pad : bool) :
  map panel_key (integrate straddling_sources) = [("Aland", 2011); ("Aland", 2012)] /\
  map clean_key (rows_of_country (fun r : CleanRow => country_name r) "Aland"
                   (pipeline fill_pad straddling_sources))
  = [("Aland", 2012)].
Proof.
  split; [vm_compute; reflexivity|].
  destruct fill_pad; vm_compute; reflexivity.
Qed.

(* ================================================================== *)
(** * The monthly override *)








(** One classification row, one internet row per year for its code, and
    two internet rows without a code for the same year. *)
Lemma C1_unique_sources :
  one_row_per_country (df_class aggregates_sources) /\
  one_row_per_code_year (df_class aggregates_sources)
                        (df_internet aggregates_sources) /\
  NoDup (map panel_key (integrate aggregates_sources)) /\
  NoDup (map clean_key (pipeline true aggregates_sources)).
Proof.
  assert (H1 : one_row_per_country (df_class aggregates_sources))
    by (unfold one_row_per_country; simpl; repeat constructor; intros []).
  assert (H2 : one_row_per_code_year (df_class aggregates_sources)
                                     (df_internet aggregates_sources)).
  { intros c y [<-|[]] _. unfold internet_rows_at. simpl.
    destruct (Z.eqb_spec y 2019) as [->|_]; simpl; [apply le_n|].
    destruct (y =? 2020)%Z; simpl; [apply le_n | apply le_0_n]. }
  split; [exact H1|]. split; [exact H2|].
  exact (C1_key_unique true aggregates_sources H1 H2).
Defined.

(* ================================================================== *)
(** * The order of (country_name, year) *)

Lemma string_leb_trans (s1 s2 s3 : string) :
  String.leb s1 s2 = true -> String.leb s2 s3 = true -> String.leb s1 s3 = true.
Proof.
  unfold String.leb. revert s2 s3.
  induction s1 as [|c1 s1 IH]; intros [|c2 s2] [|c3 s3]; simpl;
    try reflexivity; try discriminate.
  unfold Ascii.compare.
  destruct (N.compare_spec (N_of_ascii c1) (N_of_ascii c2)) as [E12|L12|G12];
    destruct (N.compare_spec (N_of_ascii c2) (N_of_ascii c3)) as [E23|L23|G23];
    try discriminate; intros H1 H2.
  - rewrite E12, E23, N.compare_refl. now apply IH with s2.
  - rewrite E12. now rewrite (proj2 (N.compare_lt_iff _ _) L23).
  - rewrite <- E23. now rewrite (proj2 (N.compare_lt_iff _ _) L12).
  - assert (L : (N_of_ascii c1 < N_of_ascii c3)%N) by lia.
    now rewrite (proj2 (N.compare_lt_iff _ _) L).
Qed.

Lemma key_leb_total (a b : key) : key_leb a b = true \/ key_leb b a = true.
Proof.
  destruct a as [c y], b as [c' y']. unfold key_leb. simpl.
  rewrite (String.eqb_sym c' c).
  destruct (String.eqb c c').
  - rewrite !Z.leb_le. lia.
  - apply String.leb_total.
Qed.

Lemma key_leb_trans (a b c : key) :
  key_leb a b = true -> key_leb b c = true -> key_leb a c = true.
Proof.
  destruct a as [c1 y1], b as [c2 y2], c as [c3 y3]. unfold key_leb. simpl.
  destruct (String.eqb_spec c1 c2) as [E12|N12];
    destruct (String.eqb_spec c2 c3) as [E23|N23];
    destruct (String.eqb_spec c1 c3) as [E13|N13];
    try congruence; intros H1 H2.
  - apply Z.leb_le in H1, H2. apply Z.leb_le. lia.
  - exfalso. subst c3. apply N12. now apply String.leb_antisym.
  - now apply string_leb_trans with c2.
Qed.

Lemma key_leb_same_country (a b : key) :
  fst a = fst b -> key_leb a b = true -> snd a <= snd b.
Proof.
  destruct a as [c y], b as [c' y']. unfold key_leb. simpl. intros ->.
  rewrite String.eqb_refl. apply Z.leb_le.
Qed.

Lemma sort_values_sorted (m : list PanelRow) :
  StronglySorted (fun a b => row_leb a b = true) (sort_values m).
Proof.
  apply sort_by_sorted; unfold row_leb.
  - intros x y. apply key_leb_total.
  - intros x y z. apply key_leb_trans.
Qed.

Lemma sorted_before {A : Type} (R : A -> A -> Prop) (l1 l2 : list A) (r q : A) :
  StronglySorted R (l1 ++ r :: l2) -> In q l1 -> R q r.
Proof.
  induction l1 as [|x l1 IH]; simpl; intros Hs Hq; [contradiction|].
  inversion Hs as [|? ? Hs' Hall]; subst.
  destruct Hq as [->|Hq]; [|now apply IH].
  rewrite Forall_forall in Hall. apply Hall, in_elt.
Qed.

Lemma sorted_after {A : Type} (R : A -> A -> Prop) (l1 l2 : list A) (r q : A) :
  StronglySorted R (l1 ++ r :: l2) -> In q l2 -> R r q.
Proof.
  induction l1 as [|x l1 IH]; simpl; intros Hs Hq.
  - inversion Hs as [|? ? _ Hall]; subst.
    rewrite Forall_forall in Hall. now apply Hall.
  - inversion Hs; subst. now apply IH.
Qed.

(* ================================================================== *)
(** * Growth rates *)

Lemma add_growth_annotate (pad : bool) (m : list PanelRow) :
  add_growth pad m = annotate pad [] (sort_values m).
Proof.
  unfold add_growth, pct_change. generalize (@nil PanelRow) as seen.
  induction (sort_values m) as [|r df IH]; intro seen; simpl; [reflexivity|].
  now rewrite IH.
Qed.

Lemma annotate_split (pad : bool) (G1 G2 : list CleanRow) (R : CleanRow)
      (df seen : list PanelRow) :
  annotate pad seen df = G1 ++ R :: G2 ->
  let up := above R (rev (map panel_of G1) ++ seen) in
  ecom_sales_growth R = growth_of pad (map sales_of up) (sales_of R) /\
  internet_growth R = growth_of pad (map internet_of up) (internet_of R).
Proof.
  revert df seen. induction G1 as [|x G1 IH]; intros [|r df] seen;
    simpl; try discriminate.
  - intros [= <- _]. simpl. auto.
  - intros [= <- H]. simpl. rewrite <- app_assoc. simpl.
    exact (IH df (r :: seen) H).
Qed.

Lemma growth_of_first (pad : bool) (v : fl) : growth_of pad [] v = NaN.
Proof.
  unfold growth_of, shifted. simpl.
  now destruct (filled pad [] v).
Qed.

Lemma growth_of_finite (pad : bool) (rest : list fl) (a b : Q) :
  ~ (a == 0)%Q ->
  exists q, growth_of pad (Fin a :: rest) (Fin b) = Fin q /\ (q == pct a b)%Q.
Proof.
  intro Ha. unfold growth_of, shifted, filled.
  assert (E1 : (if pad then last_valid (Fin b :: Fin a :: rest) else Fin b) = Fin b)
    by now destruct pad.
  assert (E2 : (if pad then last_valid (Fin a :: rest) else Fin a) = Fin a)
    by now destruct pad.
  rewrite E1, E2. unfold Fl.div. rewrite (Qzero_false a Ha).
  unfold Fl.sub, of_Z, Fl.neg, Fl.add, Fl.mul.
  eexists. split; [reflexivity|].
  unfold pct. rewrite !Qred_correct. reflexivity.
Qed.

Section GrowthOfPanel.
Variable fill_pad : bool.
Variable m : list PanelRow.
Hypothesis keys_unique : NoDup (map panel_key m).

Lemma growth_keys_NoDup : NoDup (map clean_key (add_growth fill_pad m)).
Proof.
  change clean_key with (fun r : CleanRow => panel_key (panel_of r)).
  rewrite <- map_map, add_growth_panels.
  eapply Permutation_NoDup; [|exact keys_unique].
  apply Permutation_sym, sort_by_map_perm.
Qed.

Lemma growth_sorted :
  StronglySorted (fun a b => row_leb a b = true) (map panel_of (add_growth fill_pad m)).
Proof. rewrite add_growth_panels. apply sort_values_sorted. Qed.

Lemma growth_split_keys (G1 G2 : list CleanRow) (r q : CleanRow) :
  add_growth fill_pad m = G1 ++ r :: G2 -> In q (G1 ++ G2) -> clean_key q <> clean_key r.
Proof.
  intros E Hq Hk. pose proof growth_keys_NoDup as Hnd.
  rewrite E, map_app in Hnd. simpl in Hnd.
  apply NoDup_remove_2 in Hnd. apply Hnd.
  rewrite <- map_app, <- Hk. now apply in_map.
Qed.

Lemma growth_before (G1 G2 : list CleanRow) (r q : CleanRow) :
  add_growth fill_pad m = G1 ++ r :: G2 -> In q G1 -> country_name q = country_name r ->
  year q < year r.
Proof.
  intros E Hq Hc.
  pose proof growth_sorted as Hs. rewrite E, map_app in Hs. simpl in Hs.
  assert (Hle : row_leb q r = true)
    by (apply (sorted_before _ _ _ _ _ Hs); now apply in_map).
  apply key_leb_same_country in Hle; [|exact Hc]. simpl in Hle.
  assert (Hne : clean_key q <> clean_key r)
    by (apply (growth_split_keys G1 G2); [exact E | apply in_or_app; now left]).
  destruct (Z.eq_dec (year q) (year r)) as [Ey|Ey]; [|lia].
  exfalso. apply Hne. unfold clean_key, key_of. now rewrite Hc, Ey.
Qed.

Lemma growth_after (G1 G2 : list CleanRow) (r q : CleanRow) :
  add_growth fill_pad m = G1 ++ r :: G2 -> In q G2 -> country_name q = country_name r ->
  year r < year q.
Proof.
  intros E Hq Hc.
  pose proof growth_sorted as Hs. rewrite E, map_app in Hs. simpl in Hs.
  assert (Hle : row_leb r q = true)
    by (apply (sorted_after _ _ _ _ _ Hs); now apply in_map).
  apply key_leb_same_country in Hle; [|now symmetry]. simpl in Hle.
  assert (Hne : clean_key q <> clean_key r)
    by (apply (growth_split_keys G1 G2); [exact E | apply in_or_app; now right]).
  destruct (Z.eq_dec (year q) (year r)) as [Ey|Ey]; [|lia].
  exfalso. apply Hne. unfold clean_key, key_of. now rewrite Hc, Ey.
Qed.

Lemma growth_at (G1 G2 : list CleanRow) (r : CleanRow) :
  add_growth fill_pad m = G1 ++ r :: G2 ->
  let up := above r (rev (map panel_of G1)) in
  ecom_sales_growth r = growth_of fill_pad (map sales_of up) (sales_of r) /\
  internet_growth r = growth_of fill_pad (map internet_of up) (internet_of r).
Proof.
  intro E. rewrite add_growth_annotate in E.
  apply annotate_split in E. now rewrite app_nil_r in E.
Qed.
End GrowthOfPanel.

Lemma growth_above_earliest (pad : bool) (m : list PanelRow)
      (G1 G2 : list CleanRow) (r : CleanRow) :
  NoDup (map panel_key m) ->
  add_growth pad m = G1 ++ r :: G2 ->
  earliest_in (add_growth pad m) r ->
  above r (rev (map panel_of G1)) = [].
Proof.
  intros Hnd E Hfirst. apply filter_none. intros q' Hq'.
  apply in_rev in Hq'.
  apply in_map_iff in Hq'. destruct Hq' as [q [<- Hq]].
  unfold same_country. destruct (String.eqb_spec (country_name q) (country_name r))
    as [Hc|_]; [|reflexivity].
  exfalso.
  pose proof (growth_before pad m Hnd G1 G2 r q E Hq Hc) as Hlt.
  assert (Hin : In q (add_growth pad m))
    by (rewrite E; apply in_or_app; now left).
  specialize (Hfirst q Hin Hc). lia.
Qed.

Lemma growth_above_preceded (pad : bool) (m : list PanelRow)
      (G1 G2 : list CleanRow) (p r : CleanRow) :
  NoDup (map panel_key m) ->
  add_growth pad m = G1 ++ r :: G2 ->
  precedes_in (add_growth pad m) p r ->
  exists rest, above r (rev (map panel_of G1)) = panel_of p :: rest.
Proof.
  intros Hnd E [Hp [Hc [Hlt Hgap]]].
  assert (HpG1 : In p G1).
  { rewrite E in Hp. apply in_app_or in Hp. destruct Hp as [Hp|[Hp|Hp]].
    - exact Hp.
    - subst p. lia.
    - pose proof (growth_after pad m Hnd G1 G2 r p E Hp Hc). lia. }
  apply in_split in HpG1. destruct HpG1 as [A [B ->]].
  rewrite map_app, rev_app_distr. simpl. rewrite <- app_assoc. simpl.
  unfold above. rewrite filter_app. rewrite filter_none.
  - simpl. unfold same_country at 1.
    change (country_name (panel_of p)) with (country_name p).
    rewrite Hc, String.eqb_refl. eexists. reflexivity.
  - intros q' Hq'. apply in_rev in Hq'.
    apply in_map_iff in Hq'. destruct Hq' as [q [<- Hq]].
    unfold same_country.
    destruct (String.eqb_spec (country_name q) (country_name r)) as [Hcq|_];
      [|reflexivity].
    exfalso.
    assert (Hqr : year q < year r).
    { apply (growth_before pad m Hnd (A ++ p :: B) G2 r q E); [|exact Hcq].
      apply in_or_app. right. now right. }
    assert (Hpq : year p < year q).
    { rewrite <- app_assoc in E. simpl in E.
      apply (growth_after pad m Hnd A (B ++ r :: G2) p q E).
      - apply in_or_app. now left.
      - congruence. }
    apply (Hgap q); [|exact Hcq|lia].
    rewrite E. apply in_or_app. left. apply in_or_app. right. now right.
Qed.

Lemma growth_above_In (pad : bool) (m : list PanelRow)
      (G1 G2 : list CleanRow) (r : CleanRow) (x : PanelRow) :
  add_growth pad m = G1 ++ r :: G2 ->
  In x (above r (rev (map panel_of G1))) -> In x m.
Proof.
  intros E Hx. unfold above in Hx. apply filter_In in Hx. destruct Hx as [Hx _].
  apply in_rev in Hx.
  apply (sort_by_In row_leb). fold (sort_values m).
  rewrite <- (add_growth_panels pad), E, map_app. apply in_or_app. now left.
Qed.

Lemma growth_of_nonnull (pad : bool) (x v : fl) (rest : list fl) :
  finite_nonzero x -> finite_nonzero v ->
  isna (growth_of pad (x :: rest) v) = false.
Proof.
  intros [a [-> Ha]] [b [-> _]].
  destruct (growth_of_finite pad rest a b Ha) as [q [-> _]]. reflexivity.
Qed.

Lemma growth_null_iff_earliest (pad : bool) (m : list PanelRow)
      (col : PanelRow -> fl) (growth : CleanRow -> fl) :
  NoDup (map panel_key m) ->
  (forall G1 G2 r, add_growth pad m = G1 ++ r :: G2 ->
     growth r = growth_of pad (map col (above r (rev (map panel_of G1)))) (col r)) ->
  (forall q, In q m -> finite_nonzero (col q)) ->
  forall r, In r (add_growth pad m) ->
    (isna (growth r) = true <-> earliest_in (add_growth pad m) r).
Proof.
  intros Hnd Hat Hfin r Hr.
  destruct (in_split _ _ Hr) as [G1 [G2 E]].
  rewrite (Hat G1 G2 r E). split.
  - intros Hna q Hq Hc.
    destruct (Z_le_gt_dec (year r) (year q)) as [Hle|Hgt]; [exact Hle|].
    exfalso.
    assert (HqG1 : In q G1).
    { rewrite E in Hq. apply in_app_or in Hq. destruct Hq as [Hq|[Hq|Hq]].
      - exact Hq.
      - subst q. lia.
      - pose proof (growth_after pad m Hnd G1 G2 r q E Hq Hc). lia. }
    destruct (above r (rev (map panel_of G1))) as [|x rest] eqn:Eup.
    + assert (Hin : In (panel_of q) (above r (rev (map panel_of G1)))).
      { apply filter_In. split.
        - apply -> in_rev. now apply in_map.
        - unfold same_country. apply String.eqb_eq. exact Hc. }
      rewrite Eup in Hin. exact Hin.
    + simpl in Hna. rewrite growth_of_nonnull in Hna; [discriminate| |].
      * apply Hfin. apply (growth_above_In pad m G1 G2 r x E).
        rewrite Eup. now left.
      * apply Hfin. apply (sort_by_In row_leb). fold (sort_values m).
        rewrite <- (add_growth_panels pad). now apply in_map.
  - intro Hfirst.
    rewrite (growth_above_earliest pad m G1 G2 r Hnd E Hfirst). simpl.
    now rewrite growth_of_first.
Qed.

(** C3, as the code has it.  In the panel with its growth columns, before
    the outlier filter and with (country_name, year) unique: both growth
    columns are null at a row of its country's earliest year; at any other
    row they are taken against the country's preceding row in year order,
    whether or not that is the year before, and equal the percentage change
    when the two values are numbers and the earlier is not zero; and when
    every value of the column is a non-zero number, growth is null exactly
    at the earliest year of each country. *)
Theorem C3_growth_null_at_first_row (fill_pad : bool) (m : list PanelRow) :
  NoDup (map panel_key m) ->
  let g := add_growth fill_pad m in
  (forall r, In r g -> earliest_in g r ->
     ecom_sales_growth r = NaN /\ internet_growth r = NaN) /\
  (forall p r, In r g -> precedes_in g p r ->
     (forall a b, sales_of p = Fin a -> sales_of r = Fin b -> ~ (a == 0)%Q ->
        exists q, ecom_sales_growth r = Fin q /\ (q == pct a b)%Q) /\
     (forall a b, internet_of p = Fin a -> internet_of r = Fin b -> ~ (a == 0)%Q ->
        exists q, internet_growth r = Fin q /\ (q == pct a b)%Q)) /\
  ((forall q, In q m -> finite_nonzero (sales_of q)) ->
   forall r, In r g -> (isna (ecom_sales_growth r) = true <-> earliest_in g r)) /\
  ((forall q, In q m -> finite_nonzero (internet_of q)) ->
   forall r, In r g -> (isna (internet_growth r) = true <-> earliest_in g r)).
Proof.
  intros Hnd g. unfold g. split; [|split; [|split]].
  - intros r Hr Hfirst.
    destruct (in_split _ _ Hr) as [G1 [G2 E]].
    destruct (growth_at fill_pad m G1 G2 r E) as [-> ->].
    rewrite (growth_above_earliest fill_pad m G1 G2 r Hnd E Hfirst). simpl.
    now rewrite !growth_of_first.
  - intros p r Hr Hprev.
    destruct (in_split _ _ Hr) as [G1 [G2 E]].
    destruct (growth_at fill_pad m G1 G2 r E) as [-> ->].
    destruct (growth_above_preceded fill_pad m G1 G2 p r Hnd E Hprev) as [rest ->].
    simpl. split; intros a b Ha Hb Hnz; rewrite Ha, Hb;
      now apply growth_of_finite.
  - apply growth_null_iff_earliest; [exact Hnd|].
    intros G1 G2 r E. now destruct (growth_at fill_pad m G1 G2 r E).
  - apply growth_null_iff_earliest; [exact Hnd|].
    intros G1 G2 r E. now destruct (growth_at fill_pad m G1 G2 r E).
Qed.

(** The 2015 row of a country observed in 2015 and 2017. *)
Lemma C3_aland_first_row :
  NoDup (map panel_key (integrate gap_year_sources)) /\
  exists r, In r (add_growth true (integrate gap_year_sources)) /\
            earliest_in (add_growth true (integrate gap_year_sources)) r /\
            year r = 2015 /\
            ecom_sales_growth r = NaN /\ internet_growth r = NaN.
Proof.
  assert (Hnd : NoDup (map panel_key (integrate gap_year_sources))).
  { assert (E : map panel_key (integrate gap_year_sources)
                = [("Aland", 2015); ("Aland", 2017)]) by (vm_compute; reflexivity).
    rewrite E. repeat constructor; simpl; intuition discriminate. }
  split; [exact Hnd|].
  eexists. split; [nth_row 0|].
  match goal with |- earliest_in ?g ?r /\ _ =>
    assert (He : earliest_in g r)
  end.
  { intros q Hq _. vm_compute in Hq.
    destruct Hq as [<-|[<-|[]]]; vm_compute; discriminate. }
  split; [exact He|]. split; [reflexivity|].
  apply (proj1 (C3_growth_null_at_first_row true (integrate gap_year_sources) Hnd)).
  - nth_row 0.
  - exact He.
Defined.

Lemma growth_across_a_gap (fill_pad : bool) :
  ~ null_iff_no_previous_year (add_growth fill_pad (integrate gap_year_sources)).
Proof.
  intro H. set (g := add_growth fill_pad (integrate gap_year_sources)) in *.
  assert (E : exists r, In r g /\ no_previous_year g r /\
                        ecom_sales_growth r = of_Z 50).
  { unfold g. destruct fill_pad.
    - eexists. split; [nth_row 1|].
      split; [|reflexivity].
      intros q Hq _. vm_compute in Hq.
      destruct Hq as [<-|[<-|[]]]; vm_compute; discriminate.
    - eexists. split; [nth_row 1|].
      split; [|reflexivity].
      intros q Hq _. vm_compute in Hq.
      destruct Hq as [<-|[<-|[]]]; vm_compute; discriminate. }
  destruct E as [r [Hr [Hno Hg]]].
  apply (proj2 (H r Hr)) in Hno. rewrite Hg in Hno. discriminate.
Qed.

(** C3 as stated fails: the 2017 row of a country observed in 2015 and 2017
    has a growth rate, taken against 2015, though 2016 is absent. *)
Lemma C3_growth_across_a_gap :
  ~ null_iff_no_previous_year (add_growth true (integrate gap_year_sources)) /\
  ~ null_iff_no_previous_year (add_growth false (integrate gap_year_sources)).
Proof. split; apply growth_across_a_gap. Qed.

(* ================================================================== *)
(** * Outlier removal *)

Lemma dropna_idem (l : list fl) : dropna (dropna l) = dropna l.
Proof.
  unfold dropna. induction l as [|x l IH]; simpl; [reflexivity|].
  destruct (notna x) eqn:E; simpl; [rewrite E; f_equal|]; exact IH.
Qed.

Lemma quantile_dropna (q : Q) (col : list fl) :
  quantile q col = quantile q (dropna col).
Proof. unfold quantile. now rewrite dropna_idem. Qed.

Lemma remove_extreme_outliers_In (column : CleanRow -> fl)
      (df : list CleanRow) (r : CleanRow) :
  In r (remove_extreme_outliers column df) <->
  In r df /\ (isna (column r) = true \/ within_bounds column df r = true).
Proof.
  unfold remove_extreme_outliers, within_bounds, Fl.ge.
  rewrite filter_In, orb_true_iff. tauto.
Qed.

(** C4, as the code has it.  Outlier removal keeps exactly the rows whose
    value is null or lies in the closed interval
    [Q1 - 3 IQR, Q3 + 3 IQR], with Q1 and Q3 the quartiles of the non-null
    values and IQR = Q3 - Q1.  For the column [1, 2, 3, 4, 5, 1000]:
    Q1 = 9/4, Q3 = 19/4, the interval is [-21/4, 49/4], the row with 1000
    is removed and the rows with 1 to 5 stay. *)
Theorem C4_outlier_interval :
  (forall (column : CleanRow -> fl) (df : list CleanRow) (r : CleanRow),
      In r (remove_extreme_outliers column df) <->
      In r df /\
      (isna (column r) = true \/
       ((lower column df <=? column r)%fl = true /\
        (column r <=? upper column df)%fl = true))) /\
  (forall (column : CleanRow -> fl) (df : list CleanRow),
      Q1 column df = quantile (1 # 4) (dropna (map column df)) /\
      Q3 column df = quantile (3 # 4) (dropna (map column df)) /\
      IQR column df = (Q3 column df - Q1 column df)%fl /\
      lower column df = (Q1 column df - of_Z 3 * IQR column df)%fl /\
      upper column df = (Q3 column df + of_Z 3 * IQR column df)%fl) /\
  (Q1 ecom_sales_growth growth_rows_1000 = Fin (9 # 4) /\
   Q3 ecom_sales_growth growth_rows_1000 = Fin (19 # 4) /\
   lower ecom_sales_growth growth_rows_1000 = Fin (-21 # 4) /\
   upper ecom_sales_growth growth_rows_1000 = Fin (49 # 4) /\
   map ecom_sales_growth (remove_extreme_outliers ecom_sales_growth growth_rows_1000)
   = map of_Z [1; 2; 3; 4; 5] /\
   map ecom_sales_growth (outlier_step growth_rows_1000) = map of_Z [1; 2; 3; 4; 5]).
Proof.
  split; [|split].
  - intros column df r. rewrite remove_extreme_outliers_In.
    unfold within_bounds. rewrite andb_true_iff. tauto.
  - intros column df. unfold Q1, Q3.
    rewrite <- !quantile_dropna.
    split; [reflexivity|]. split; [reflexivity|]. split; [reflexivity|].
    split; reflexivity.
  - do 5 (split; [vm_compute; reflexivity|]). vm_compute. reflexivity.
Qed.

(** In [1, 2, 3, 4, 5, 1000] the row with 1 is kept, the row with 1000 is not. *)
Lemma C4_row_with_1_kept :
  In (growth_row 2013 (of_Z 1))
     (remove_extreme_outliers ecom_sales_growth growth_rows_1000) /\
  ~ In (growth_row 2018 (of_Z 1000))
       (remove_extreme_outliers ecom_sales_growth growth_rows_1000).
Proof.
  split.
  - apply (proj2 (proj1 C4_outlier_interval ecom_sales_growth growth_rows_1000 _)). split.
    + left. reflexivity.
    + right. split; vm_compute; reflexivity.
  - intro H.
    destruct (proj1 (proj1 C4_outlier_interval ecom_sales_growth growth_rows_1000 _) H)
      as [_ [Hna|[_ Hup]]].
    + discriminate Hna.
    + vm_compute in Hup. discriminate Hup.
Defined.

(** C4 as stated fails at the upper bound: in the column
    [1, 2, 3, 4, 5, 10] the value 10 exceeds Q1 + 3 IQR = 39/4 and the row
    is kept, the bound of the code being Q3 + 3 IQR = 49/4. *)
Lemma C4_kept_above_Q1_bound :
  ~ (forall r,
        In r (remove_extreme_outliers ecom_sales_growth growth_rows_10) <->
        In r growth_rows_10 /\
        (isna (ecom_sales_growth r) = true \/
         within_Q1_bounds ecom_sales_growth growth_rows_10 r = true)).
Proof.
  intro H.
  assert (Hin : In (growth_row 2018 (of_Z 10))
                   (remove_extreme_outliers ecom_sales_growth growth_rows_10))
    by (nth_row 5).
  destruct (proj1 (H _) Hin) as [_ [Hna|Hb]].
  - discriminate Hna.
  - vm_compute in Hb. discriminate Hb.
Qed.

Lemma outlier_step_map (f : CleanRow -> CleanRow) (master : list CleanRow) :
  (forall r, ecom_sales_growth (f r) = ecom_sales_growth r) ->
  outlier_step (map f master) = map f (outlier_step master).
Proof.
  intro Hf. rewrite !outlier_step_eq.
  assert (Ecol : map ecom_sales_growth (map f master)
                 = map ecom_sales_growth master)
    by (rewrite map_map; now apply map_ext).
  rewrite Ecol.
  destruct (0 <? _); [|reflexivity].
  unfold remove_extreme_outliers, lower, upper, IQR, Q1, Q3.
  rewrite Ecol, filter_map_swap. f_equal.
  apply filter_ext. intro r. now rewrite Hf.
Qed.

Lemma filtered_on_sales_growth (df : list CleanRow) :
  filtered_on ecom_sales_growth df.
Proof.
  intros r. rewrite outlier_step_eq.
  destruct (filter notna (map ecom_sales_growth df)) as [|v vs] eqn:E;
    simpl; [|auto].
  intro Hr. apply remove_extreme_outliers_In. split; [exact Hr|]. left.
  destruct (isna (ecom_sales_growth r)) eqn:Ena; [reflexivity|].
  assert (Hin : In (ecom_sales_growth r) (filter notna (map ecom_sales_growth df))).
  { apply filter_In. split; [now apply in_map|]. unfold notna. now rewrite Ena. }
  rewrite E in Hin. contradiction.
Qed.

(** C5, as the code has it.  The outlier step filters on
    [ecom_sales_growth] alone: it is [remove_extreme_outliers] on that
    column when the column has a non-null value, and nothing otherwise, so
    that it keeps no outlier of [ecom_sales_growth]; rewriting any other
    column of the rows, [internet_growth] included, changes neither which
    rows are dropped nor their order. *)
Theorem C5_outliers_on_sales_growth_only :
  (forall master : list CleanRow,
      outlier_step master
      = if 0 <? Z.of_nat (List.length (filter notna (map ecom_sales_growth master)))
        then remove_extreme_outliers ecom_sales_growth master
        else master) /\
  (forall master : list CleanRow, filtered_on ecom_sales_growth master) /\
  (forall (f : CleanRow -> CleanRow) (master : list CleanRow),
      (forall r, ecom_sales_growth (f r) = ecom_sales_growth r) ->
      outlier_step (map f master) = map f (outlier_step master)).
Proof.
  split; [exact outlier_step_eq|].
  split; [exact filtered_on_sales_growth | exact outlier_step_map].
Qed.

(** Overwriting every other column leaves the outlier step as it was. *)
Lemma C5_other_columns_overwritten :
  (forall r, ecom_sales_growth (overwrite_other_columns r) = ecom_sales_growth r) /\
  outlier_step (map overwrite_other_columns growth_rows_1000)
  = map overwrite_other_columns (outlier_step growth_rows_1000).
Proof.
  assert (H : forall r, ecom_sales_growth (overwrite_other_columns r)
                        = ecom_sales_growth r) by reflexivity.
  split; [exact H|].
  exact (proj2 (proj2 C5_outliers_on_sales_growth_only)
           overwrite_other_columns growth_rows_1000 H).
Defined.

(** With sales doubling every year and internet use doubling, then
    tripling, the last row has an internet growth of 200 against an upper
    bound of 100 for that column; it passes the outlier step and is
    emitted. *)
Lemma internet_growth_not_filtered (fill_pad : bool) :
  let df := add_growth fill_pad (integrate doubling_sources) in
  exists r, In r (outlier_step df) /\
            In r (pipeline fill_pad doubling_sources) /\
            internet_growth r = of_Z 200 /\
            upper internet_growth df = of_Z 100 /\
            ~ In r (remove_extreme_outliers internet_growth df).
Proof.
  intro df.
  assert (E : exists r, In r (outlier_step df) /\
                        In r (pipeline fill_pad doubling_sources) /\
                        internet_growth r = of_Z 200 /\
                        upper internet_growth df = of_Z 100 /\
                        within_bounds internet_growth df r = false).
  { unfold df. destruct fill_pad.
    - eexists. split; [nth_row 6|]. split; [nth_row 6|].
      split; [vm_compute; reflexivity|].
      split; vm_compute; reflexivity.
    - eexists. split; [nth_row 6|]. split; [nth_row 6|].
      split; [vm_compute; reflexivity|].
      split; vm_compute; reflexivity. }
  destruct E as [r [H1 [H2 [H3 [H4 H5]]]]].
  exists r. do 4 (split; [assumption|]).
  intro H.
  destruct (proj1 (remove_extreme_outliers_In _ _ _) H) as [_ [Hna|Hb]].
  - rewrite H3 in Hna. discriminate.
  - rewrite H5 in Hb. discriminate.
Qed.

(** C5 as stated fails for [internet_growth]: the outlier step keeps a row
    that outlier removal on [internet_growth] rejects, whichever fill
    default [pct_change] has. *)
Lemma C5_internet_growth_not_filtered :
  ~ filtered_on internet_growth (add_growth true (integrate doubling_sources)) /\
  ~ filtered_on internet_growth (add_growth false (integrate doubling_sources)).
Proof.
  split; intro H.
  - destruct (internet_growth_not_filtered true) as [r [H1 [_ [_ [_ Hn]]]]].
    exact (Hn (H r H1)).
  - destruct (internet_growth_not_filtered false) as [r [H1 [_ [_ [_ Hn]]]]].
    exact (Hn (H r H1)).
Qed.

(* ================================================================== *)
(** * Further properties of the integration *)

Lemma merge_conflict_shocks (m : list MasterRow) (src : option (list GedRow))
      (p : PanelRow) :
  In p (merge_conflict m src) ->
  exists conflict civilian, p = with_shocks (master_of p) conflict civilian.
Proof.
  unfold merge_conflict. destruct src as [ged|]; intro H.
  - apply merge_left_In in H.
    destruct H as [a [_ [[-> _]|[c [_ [_ ->]]]]]]; simpl; eauto.
  - apply in_map_iff in H. destruct H as [a [<- _]]. simpl. eauto.
Qed.

(** The two shock flags are 0 or 1 and follow the year: the pandemic flag
    is 1 exactly for 2020, 2021 and 2022, the conflict flag exactly from
    2022 on, in the integrated and in the emitted panel. *)
Theorem shock_flags_follow_year (fill_pad : bool) (s : Sources) :
  Forall (fun p : PanelRow =>
            covid_19_shock p = bool_int ((2020 <=? year p) && (year p <=? 2022)) /\
            ukraine_conflict p = bool_int (2022 <=? year p) /\
            (covid_19_shock p = 1 <-> 2020 <= year p <= 2022) /\
            (ukraine_conflict p = 1 <-> 2022 <= year p) /\
            (covid_19_shock p = 1 /\ ukraine_conflict p = 1 <-> year p = 2022))
         (integrate s) /\
  Forall (fun r : CleanRow =>
            (covid_19_shock r = 1 <-> 2020 <= year r <= 2022) /\
            (covid_19_shock r = 0 <-> ~ 2020 <= year r <= 2022) /\
            (ukraine_conflict r = 1 <-> 2022 <= year r) /\
            (ukraine_conflict r = 0 <-> year r < 2022))
         (pipeline fill_pad s).
Proof.
  assert (H : forall p : PanelRow, In p (integrate s) ->
            covid_19_shock p = bool_int ((2020 <=? year p) && (year p <=? 2022)) /\
            ukraine_conflict p = bool_int (2022 <=? year p)).
  { intros p Hp. unfold integrate in Hp. apply merge_conflict_shocks in Hp.
    destruct Hp as [c1 [c2 E]]. rewrite E. split; reflexivity. }
  split; apply Forall_forall.
  - intros p Hp. destruct (H p Hp) as [E1 E2]. rewrite E1, E2.
    split; [reflexivity|]. split; [reflexivity|].
    destruct (Z.leb_spec 2020 (year p)), (Z.leb_spec (year p) 2022),
      (Z.leb_spec 2022 (year p)); simpl; repeat split; intros; try lia;
      try discriminate.
  - intros r Hr. apply pipeline_In in Hr. destruct Hr as [Hr _].
    destruct (H r Hr) as [E1 E2]. rewrite E1, E2.
    destruct (Z.leb_spec 2020 (year r)), (Z.leb_spec (year r) 2022),
      (Z.leb_spec 2022 (year r)); simpl; repeat split; intros; try lia;
      try discriminate.
Qed.

Lemma prefix_app (p s : string) :
  String.prefix p s = true <-> exists post, s = (p ++ post)%string.
Proof.
  revert s. induction p as [|a p IH]; intro s.
  - destruct s; simpl; split; intro H; try reflexivity; eexists; reflexivity.
  - destruct s as [|b s]; simpl.
    + split; [discriminate | intros [post H]; discriminate].
    + destruct (ascii_dec a b) as [->|n].
      * rewrite IH. split; intros [post H]; exists post; congruence.
      * split; [discriminate | intros [post H]; congruence].
Qed.

(** [contains pat s] holds exactly when [pat] occurs in [s]. *)
Lemma contains_iff (pat s : string) :
  contains pat s = true <->
  exists pre post, s = (pre ++ pat ++ post)%string.
Proof.
  induction s as [|b s IH].
  - cbn [contains]. rewrite orb_false_r, prefix_app. split.
    + intros [post H]. exists EmptyString, post. exact H.
    + intros [pre [post H]]. destruct pre; [eauto | discriminate].
  - cbn [contains]. rewrite orb_true_iff, prefix_app, IH. split.
    + intros [[post H]|[pre [post H]]].
      * exists EmptyString, post. exact H.
      * exists (String b pre), post. simpl. now rewrite H.
    + intros [pre [post H]]. destruct pre as [|c pre].
      * left. exists post. exact H.
      * right. injection H as _ H. eauto.
Qed.

Lemma filter_regions_row (m : list MasterRow) (r : MasterRow) :
  In r (filter_regions m) ->
  exists r0 reg,
    In r0 m /\ region r0 = Some reg /\ reg <> excluded_region /\
    str_contains_any territory_patterns (country_name r0) = false /\
    r = (if String.eqb (country_name r0) "Malta"
         then set_region corrected_region r0 else r0).
Proof.
  unfold filter_regions. rewrite in_map_iff. intros [r0 [<- H]].
  apply filter_In in H. destruct H as [H H3].
  apply filter_In in H. destruct H as [H H2].
  apply filter_In in H. destruct H as [H H1].
  destruct (region r0) as [reg|] eqn:E; [|discriminate].
  exists r0, reg. split; [exact H|]. split; [exact E|]. split.
  - intros ->. vm_compute in H1. discriminate.
  - split; [|reflexivity]. now apply negb_true_iff in H3.
Qed.

(** What a row of the integrated panel is made of: a row of the
    e-commerce table, the classification row of its country name, which
    has a region other than the excluded one, and a name outside the
    territory pattern. *)
Lemma integrate_row (s : Sources) (p : PanelRow) :
  In p (integrate s) ->
  exists c reg,
    In (ecom_of p) (ecom_table s) /\
    In c (df_class s) /\ Economy c = Some (country_name p) /\
    Region c = Some reg /\ reg <> excluded_region /\
    str_contains_any territory_patterns (country_name p) = false /\
    iso3 p = Code c /\ income_group p = Income_group c /\
    region p = Some (if String.eqb (country_name p) "Malta"
                     then corrected_region else reg).
Proof.
  unfold integrate. intro H.
  apply merge_conflict_In in H.
  unfold min_coverage in H. apply filter_In in H. destruct H as [H _].
  apply filter_regions_row in H.
  destruct H as [r0 [reg [H [Hreg [Hex [Hpat Hr]]]]]].
  apply merge_internet_In in H. apply merge_class_In in H.
  destruct H as [Hin [Hnone|[c [Hc [Heco [Hcode [Hregion Hincome]]]]]]].
  { change (region (classified_of r0)) with (region r0) in Hnone. congruence. }
  assert (He : ecom_of p = ecom_of r0).
  { change (ecom_of p) with (ecom_of (master_of p)). rewrite Hr.
    now destruct (String.eqb (country_name r0) "Malta"). }
  assert (Hn : country_name p = country_name r0).
  { unfold country_name. now rewrite He. }
  exists c, reg. rewrite Hn, He.
  split; [exact Hin|]. split; [exact Hc|]. split; [exact Heco|].
  split; [congruence|]. split; [exact Hex|]. split; [exact Hpat|].
  change (iso3 p) with (iso3 (master_of p)).
  change (income_group p) with (income_group (master_of p)).
  change (region p) with (region (master_of p)).
  rewrite Hr. destruct (String.eqb (country_name r0) "Malta"); simpl; auto.
Qed.

(** No row of the integrated or of the emitted panel lies in the excluded
    region, Latin America & Caribbean. *)
Theorem excluded_region_absent (fill_pad : bool) (s : Sources) :
  Forall (fun p : PanelRow => region p <> Some excluded_region) (integrate s) /\
  Forall (fun r : CleanRow => region r <> Some excluded_region)
         (pipeline fill_pad s).
Proof.
  assert (H : forall p, In p (integrate s) -> region p <> Some excluded_region).
  { intros p Hp. apply integrate_row in Hp.
    destruct Hp as [c [reg [_ [_ [_ [_ [Hex [_ [_ [_ Hr]]]]]]]]]].
    rewrite Hr. destruct (String.eqb (country_name p) "Malta").
    - discriminate.
    - congruence. }
  split; apply Forall_forall; [exact H|].
  intros r Hr. apply pipeline_In in Hr. apply H. tauto.
Qed.

(** No country name of the integrated or of the emitted panel contains
    "hong kong", "macao" or "sar", whatever the case of its ASCII
    letters. *)
Theorem territory_names_absent (fill_pad : bool) (s : Sources) :
  Forall (fun p : PanelRow =>
            forall pat pre post,
              In pat territory_patterns ->
              lower_str (country_name p) <> (pre ++ lower_str pat ++ post)%string)
         (integrate s) /\
  Forall (fun r : CleanRow =>
            forall pat pre post,
              In pat territory_patterns ->
              lower_str (country_name r) <> (pre ++ lower_str pat ++ post)%string)
         (pipeline fill_pad s).
Proof.
  assert (H : forall p : PanelRow, In p (integrate s) ->
            forall pat pre post,
              In pat territory_patterns ->
              lower_str (country_name p) <> (pre ++ lower_str pat ++ post)%string).
  { intros p Hp pat pre post Hpat E. apply integrate_row in Hp.
    destruct Hp as [c [reg [_ [_ [_ [_ [_ [Hno _]]]]]]]].
    unfold str_contains_any in Hno.
    assert (Hyes : existsb (fun q => contains (lower_str q)
                                      (lower_str (country_name p)))
                           territory_patterns = true).
    { apply existsb_exists. exists pat. split; [exact Hpat|].
      apply contains_iff. eauto. }
    rewrite Hyes in Hno. discriminate. }
  split; apply Forall_forall; [exact H|].
  intros r Hr. apply pipeline_In in Hr. apply H. tauto.
Qed.

(** The region correction: a row named Malta has the region
    Europe & Central Asia, and every other row has the region of the
    classification row of its country name. *)
Theorem malta_region_corrected (fill_pad : bool) (s : Sources) :
  Forall (fun p : PanelRow =>
            (country_name p = "Malta" -> region p = Some corrected_region) /\
            (country_name p <> "Malta" ->
             exists c, In c (df_class s) /\
                       Economy c = Some (country_name p) /\
                       region p = Region c))
         (integrate s) /\
  Forall (fun r : CleanRow =>
            country_name r = "Malta" -> region r = Some corrected_region)
         (pipeline fill_pad s).
Proof.
  assert (H : forall p : PanelRow, In p (integrate s) ->
            (country_name p = "Malta" -> region p = Some corrected_region) /\
            (country_name p <> "Malta" ->
             exists c, In c (df_class s) /\
                       Economy c = Some (country_name p) /\
                       region p = Region c)).
  { intros p Hp. apply integrate_row in Hp.
    destruct Hp as [c [reg [_ [Hc [He [Hreg [_ [_ [_ [_ Hr]]]]]]]]]].
    rewrite Hr. destruct (String.eqb_spec (country_name p) "Malta") as [E|N].
    - split; [reflexivity | contradiction].
    - split; [contradiction|]. intros _. exists c. rewrite Hreg. auto. }
  split; apply Forall_forall; [exact H|].
  intros r Hr. apply pipeline_In in Hr. destruct Hr as [Hr _].
  exact (proj1 (H r Hr)).
Qed.

(** The correction runs after the region filters: when every
    classification row for Malta has no region, or the excluded one, the
    panel has no row for Malta. *)
Theorem malta_not_rescued (fill_pad : bool) (s : Sources) :
  (forall c, In c (df_class s) -> Economy c = Some "Malta" ->
             Region c = None \/ Region c = Some excluded_region) ->
  Forall (fun p : PanelRow => country_name p <> "Malta") (integrate s) /\
  Forall (fun r : CleanRow => country_name r <> "Malta") (pipeline fill_pad s).
Proof.
  intro Hcls.
  assert (H : forall p : PanelRow, In p (integrate s) -> country_name p <> "Malta").
  { intros p Hp E. apply integrate_row in Hp.
    destruct Hp as [c [reg [_ [Hc [He [Hreg [Hex _]]]]]]].
    rewrite E in He. destruct (Hcls c Hc He) as [Hn|Hx]; congruence. }
  split; apply Forall_forall; [exact H|].
  intros r Hr. apply pipeline_In in Hr. apply H. tauto.
Qed.

(** Malta without a region in the classification, beside a classified
    country. *)
Lemma malta_not_rescued_example :
  (forall c, In c (df_class malta_sources) -> Economy c = Some "Malta" ->
             Region c = None \/ Region c = Some excluded_region) /\
  Forall (fun p : PanelRow => country_name p <> "Malta") (integrate malta_sources) /\
  map panel_key (integrate malta_sources) = [("Aland", 2019); ("Aland", 2020)].
Proof.
  assert (H : forall c, In c (df_class malta_sources) -> Economy c = Some "Malta" ->
                        Region c = None \/ Region c = Some excluded_region).
  { intros c [<-|[<-|[]]] E; [left; reflexivity | discriminate E]. }
  split; [exact H|]. split.
  - exact (proj1 (malta_not_rescued true malta_sources H)).
  - vm_compute. reflexivity.
Defined.

(* ================================================================== *)
(** * Minimum coverage *)

Lemma filter_filter_same {A : Type} (p q : A -> bool) (l : list A) :
  (forall x, p x = true -> q x = true) ->
  filter p (filter q l) = filter p l.
Proof.
  intro H. induction l as [|x l IH]; simpl; [reflexivity|].
  destruct (q x) eqn:Eq; simpl.
  - now rewrite IH.
  - destruct (p x) eqn:Ep; [|exact IH].
    rewrite (H x Ep) in Eq. discriminate.
Qed.

Lemma two_in_filter {A : Type} (p : A -> bool) (l : list A) (x y : A) :
  In x l -> In y l -> x <> y -> p x = true -> p y = true ->
  (2 <= List.length (filter p l))%nat.
Proof.
  intros Hx Hy Hne Px Py.
  assert (Fx : In x (filter p l)) by now apply filter_In.
  assert (Fy : In y (filter p l)) by now apply filter_In.
  destruct (filter p l) as [|a [|b l']]; simpl in *.
  - contradiction.
  - destruct Fx as [<-|[]], Fy as [<-|[]]. contradiction.
  - lia.
Qed.

Lemma valid_countries_In (m : list MasterRow) (c : string) :
  In c (valid_countries m) <->
  (2 <= List.length (rows_of_country master_country c m))%nat.
Proof.
  assert (Hk : forall k, filter (has_key string_dec
                                   (fun r : MasterRow => Some (country_name r)) k) m
                         = rows_of_country master_country k m).
  { intro k. apply filter_ext. intro r. unfold has_key, master_country.
    destruct (string_dec (country_name r) k) as [->|n].
    - now rewrite String.eqb_refl.
    - symmetry. now apply String.eqb_neq. }
  unfold valid_countries. rewrite in_map_iff. split.
  - intros [[k g] [<- Hg]]. apply filter_In in Hg. destruct Hg as [Hg Hsz].
    apply groupby_In in Hg. simpl in *. destruct Hg as [-> _].
    rewrite Hk in Hsz. apply Z.leb_le in Hsz. lia.
  - intro Hsz. exists (c, rows_of_country master_country c m). split; [reflexivity|].
    apply filter_In. split.
    + unfold groupby. apply in_map_iff. exists c. rewrite Hk. split; [reflexivity|].
      apply group_keys_In.
      destruct (rows_of_country master_country c m) as [|r l] eqn:E;
        [simpl in Hsz; lia|].
      assert (Hr : In r (rows_of_country master_country c m))
        by (rewrite E; now left).
      apply filter_In in Hr. destruct Hr as [Hr Hc].
      apply String.eqb_eq in Hc. exists r. split; [exact Hr|]. now rewrite <- Hc.
    + simpl. apply Z.leb_le. lia.
Qed.

Lemma min_coverage_In (m : list MasterRow) (r : MasterRow) :
  In r (min_coverage m) <->
  In r m /\ (2 <= List.length (rows_of_country master_country (country_name r) m))%nat.
Proof.
  unfold min_coverage. rewrite filter_In, <- valid_countries_In, existsb_exists.
  split; intros [H1 H2]; (split; [exact H1|]).
  - destruct H2 as [c [Hc E]]. apply String.eqb_eq in E. now rewrite E.
  - exists (country_name r). split; [exact H2 | apply String.eqb_refl].
Qed.

(** A country that stays keeps all its rows. *)
Lemma min_coverage_rows (m : list MasterRow) (c : string) :
  (2 <= List.length (rows_of_country master_country c m))%nat ->
  rows_of_country master_country c (min_coverage m)
  = rows_of_country master_country c m.
Proof.
  intro H. unfold rows_of_country, min_coverage.
  apply filter_filter_same. intros r E. apply String.eqb_eq in E.
  apply existsb_exists. exists c. split.
  - now apply valid_countries_In.
  - unfold master_country in E. rewrite E. apply String.eqb_refl.
Qed.

Lemma panel_rows_of_country (c : string) (m : list MasterRow)
      (src : option (list GedRow)) :
  List.length (rows_of_country panel_country c (merge_conflict m src))
  = List.length (rows_of_country master_country c m).
Proof.
  rewrite <- (merge_conflict_masters m src) at 2.
  unfold rows_of_country. rewrite filter_map_swap, length_map. reflexivity.
Qed.

(** Every country of the integrated panel has at least two rows in it. *)
Theorem two_rows_per_country (s : Sources) :
  Forall (fun p : PanelRow =>
            (2 <= List.length (rows_of_country panel_country (country_name p)
                                 (integrate s)))%nat)
         (integrate s).
Proof.
  apply Forall_forall. intros p Hp. unfold integrate in *.
  rewrite panel_rows_of_country.
  apply merge_conflict_In in Hp.
  set (m := filter_regions (merge_internet (merge_class (ecom_table s) (df_class s))
                                           (df_internet s))) in *.
  apply min_coverage_In in Hp. destruct Hp as [_ Hp].
  change (country_name p) with (country_name (master_of p)).
  now rewrite min_coverage_rows.
Qed.

(** Applying the minimum-coverage filter twice changes nothing more. *)
Theorem min_coverage_idempotent (m : list MasterRow) :
  min_coverage (min_coverage m) = min_coverage m.
Proof.
  unfold min_coverage at 1. apply forallb_filter_id. apply forallb_forall.
  intros r Hr. apply existsb_exists. exists (country_name r).
  split; [|apply String.eqb_refl].
  apply valid_countries_In. apply min_coverage_In in Hr. destruct Hr as [_ Hr].
  now rewrite min_coverage_rows.
Qed.

(* ================================================================== *)
(** * Nothing is lost but what the filters name *)

Section MergeCovers.
Context {A B C : Type}.
Variable on : A -> B -> bool.
Variable combine : A -> option B -> C.

(** A left join keeps every left row, matched or not. *)
Lemma merge_left_covers (left : list A) (right : list B) (a : A) :
  In a left -> exists ob, In (combine a ob) (merge_left on combine left right).
Proof.
  intro Ha. unfold merge_left.
  destruct (filter (on a) right) as [|b ms] eqn:E.
  - exists None. apply in_flat_map. exists a. split; [exact Ha|].
    rewrite E. now left.
  - exists (Some b). apply in_flat_map. exists a. split; [exact Ha|].
    rewrite E. now left.
Qed.

Lemma merge_left_matched (left : list A) (right : list B) (a : A) (b : B) :
  In a left -> In b right -> on a b = true ->
  In (combine a (Some b)) (merge_left on combine left right).
Proof.
  intros Ha Hb Hon. unfold merge_left. apply in_flat_map.
  exists a. split; [exact Ha|].
  assert (Hin : In b (filter (on a) right)) by now apply filter_In.
  destruct (filter (on a) right) as [|b0 ms] eqn:E; [contradiction|].
  apply in_map_iff. exists b. split; [reflexivity | exact Hin].
Qed.
End MergeCovers.

Lemma merge_class_matched (agg : list EcomRow) (cls : list ClassRow)
      (e : EcomRow) (c : ClassRow) :
  In e agg -> In c cls -> Economy c = Some (country_name e) ->
  In {| ecom_of := e; iso3 := Code c; region := Region c;
        income_group := Income_group c |}
     (merge_class agg cls).
Proof.
  intros He Hc Hn. unfold merge_class.
  apply (merge_left_matched
           (fun (a : EcomRow) c => cell_is (Economy c) (country_name a))
           (fun a oc =>
              match oc with
              | Some c => {| ecom_of := a; iso3 := Code c; region := Region c;
                             income_group := Income_group c |}
              | None => {| ecom_of := a; iso3 := None; region := None;
                           income_group := None |}
              end)
           agg cls e c He Hc).
  now apply cell_is_true.
Qed.

Lemma merge_internet_covers (m : list ClassifiedRow) (inet : list InternetRow)
      (a : ClassifiedRow) :
  In a m -> exists r, In r (merge_internet m inet) /\ classified_of r = a.
Proof.
  intro Ha. unfold merge_internet.
  destruct (merge_left_covers
              (fun (a : ClassifiedRow) i =>
                 opt_eqb String.eqb (iso3 a) (inet_Code i) && (year a =? inet_Year i))
              (fun a oi =>
                 {| classified_of := a;
                    internet_users_pct :=
                      match oi with Some i => inet_pct i | None => NaN end |})
              m inet a Ha) as [oi H].
  eexists. split; [exact H | reflexivity].
Qed.

Lemma filter_regions_covers (m : list MasterRow) (r : MasterRow) (reg : string) :
  In r m -> region r = Some reg -> reg <> excluded_region ->
  str_contains_any territory_patterns (country_name r) = false ->
  exists r', In r' (filter_regions m) /\ ecom_of r' = ecom_of r.
Proof.
  intros Hr Hreg Hex Hpat.
  exists (if String.eqb (country_name r) "Malta"
          then set_region corrected_region r else r).
  split.
  - unfold filter_regions. apply in_map_iff. exists r. split; [reflexivity|].
    apply filter_In. split; [apply filter_In; split; [apply filter_In; split|]|].
    + exact Hr.
    + rewrite Hreg. unfold cell_is. apply negb_true_iff. now apply String.eqb_neq.
    + now rewrite Hreg.
    + fold territory_patterns. now rewrite Hpat.
  - now destruct (String.eqb (country_name r) "Malta").
Qed.

(** A row of the e-commerce table reaches the integrated panel when its
    country is classified with a region that is kept, its name (an ASCII
    text) lies outside the territory pattern, and the table has another
    row for the country: nothing else removes it. *)
Theorem integrate_complete (s : Sources) (e e' : EcomRow) :
  In e (ecom_table s) -> In e' (ecom_table s) ->
  e <> e' -> country_name e' = country_name e ->
  kept_name (df_class s) (country_name e) ->
  exists p, In p (integrate s) /\ ecom_of p = e.
Proof.
  intros He He' Hne Hsame [_ [[c [reg [Hc [Hn [Hreg Hex]]]]] Hpat]].
  set (mc := merge_class (ecom_table s) (df_class s)).
  set (mi := merge_internet mc (df_internet s)).
  assert (Hrow : forall x, In x (ecom_table s) -> country_name x = country_name e ->
                 exists r, In r (filter_regions mi) /\ ecom_of r = x).
  { intros x Hx Hcx.
    assert (Ha : In {| ecom_of := x; iso3 := Code c; region := Region c;
                       income_group := Income_group c |} mc)
      by (apply merge_class_matched; [exact Hx | exact Hc | now rewrite Hcx]).
    destruct (merge_internet_covers mc (df_internet s) _ Ha) as [r [Hr Hcl]].
    destruct (filter_regions_covers mi r reg Hr) as [r' [Hr' Hec]].
    - change (region r) with (region (classified_of r)). now rewrite Hcl.
    - exact Hex.
    - change (country_name r) with (country_name (classified_of r)).
      rewrite Hcl. simpl. now rewrite Hcx.
    - exists r'. split; [exact Hr'|]. rewrite Hec.
      change (ecom_of r) with (ecom_of (classified_of r)). now rewrite Hcl. }
  destruct (Hrow e He eq_refl) as [r [Hr Er]].
  destruct (Hrow e' He' Hsame) as [r' [Hr' Er']].
  assert (Hcov : In r (min_coverage (filter_regions mi))).
  { apply min_coverage_In. split; [exact Hr|].
    apply (two_in_filter _ _ r r' Hr Hr').
    - intros ->. congruence.
    - apply String.eqb_refl.
    - unfold master_country. apply String.eqb_eq.
      change (country_name r') with (country_name (ecom_of r')).
      change (country_name r) with (country_name (ecom_of r)).
      now rewrite Er, Er'. }
  unfold integrate. fold mc. fold mi.
  rewrite <- (merge_conflict_masters _ (df_ged s)) in Hcov.
  apply in_map_iff in Hcov. destruct Hcov as [p [Hp Hin]].
  exists p. split; [exact Hin|].
  change (ecom_of p) with (ecom_of (master_of p)). now rewrite Hp.
Qed.

(** Aland 2019 reaches the panel, Aland 2020 being its second row. *)
Lemma integrate_complete_example :
  In {| country_name := "Aland"; year := 2019;
        ecom_sales_usd_millions := of_Z 10; ecom_share_pct := of_Z 2 |}
     (ecom_table events_sources) /\
  kept_name (df_class events_sources) "Aland" /\
  exists p, In p (integrate events_sources) /\
            ecom_of p = {| country_name := "Aland"; year := 2019;
                           ecom_sales_usd_millions := of_Z 10;
                           ecom_share_pct := of_Z 2 |}.
Proof.
  set (e := {| country_name := "Aland"; year := 2019;
               ecom_sales_usd_millions := of_Z 10; ecom_share_pct := of_Z 2 |}).
  set (e' := {| country_name := "Aland"; year := 2020;
                ecom_sales_usd_millions := of_Z 20; ecom_share_pct := of_Z 3 |}).
  assert (He : In e (ecom_table events_sources)) by nth_row 0.
  assert (He' : In e' (ecom_table events_sources)) by nth_row 1.
  assert (Hne : e <> e') by discriminate.
  assert (Hk : kept_name (df_class events_sources) "Aland").
  { split; [|split; [|vm_compute; reflexivity]].
    - unfold ascii_text. simpl.
      repeat (apply Forall_cons; [reflexivity|]). apply Forall_nil.
    - eexists. exists "Europe & Central Asia".
      split; [left; reflexivity|]. split; [reflexivity|].
      split; [reflexivity | discriminate]. }
  split; [exact He|]. split; [exact Hk|].
  exact (integrate_complete events_sources e e' He He' Hne eq_refl Hk).
Defined.

(* ================================================================== *)
(** * Order and survival of rows in the cleaner *)

Lemma StronglySorted_filter {A : Type} (R : A -> A -> Prop) (f : A -> bool)
      (l : list A) :
  StronglySorted R l -> StronglySorted R (filter f l).
Proof.
  induction 1 as [|x l Hs IH Hall]; simpl; [constructor|].
  destruct (f x); [|exact IH].
  constructor; [exact IH|].
  rewrite Forall_forall in *. intros y Hy. apply filter_In in Hy. now apply Hall.
Qed.

Lemma StronglySorted_map_inv {A B : Type} (R : B -> B -> Prop) (f : A -> B)
      (l : list A) :
  StronglySorted R (map f l) -> StronglySorted (fun a b => R (f a) (f b)) l.
Proof.
  induction l as [|x l IH]; simpl; intro H; [constructor|].
  inversion H as [|? ? Hs Hall]; subst.
  constructor; [now apply IH|].
  rewrite Forall_forall in *. intros y Hy. apply Hall. now apply in_map.
Qed.

(** The emitted panel is sorted by country name, then year. *)
Theorem emitted_panel_sorted (fill_pad : bool) (s : Sources) :
  StronglySorted (fun a b => clean_leb a b = true) (pipeline fill_pad s).
Proof.
  unfold pipeline, clean, from_2012.
  apply StronglySorted_filter. rewrite outlier_step_eq.
  assert (H : StronglySorted (fun a b => clean_leb a b = true)
                             (add_growth fill_pad (integrate s))).
  { apply (StronglySorted_map_inv (fun a b => row_leb a b = true) panel_of).
    rewrite add_growth_panels. apply sort_values_sorted. }
  destruct (0 <? _); [|exact H].
  unfold remove_extreme_outliers. now apply StronglySorted_filter.
Qed.

(** Cleaning never drops a country's earliest year from 2012 on: with
    (country_name, year) unique, the row of a country's earliest year has a
    null sales growth, passes the outlier step, and is emitted when its year
    is 2012 or later. *)
Theorem earliest_row_emitted (fill_pad : bool) (m : list PanelRow) (r : CleanRow) :
  NoDup (map panel_key m) ->
  In r (add_growth fill_pad m) ->
  earliest_in (add_growth fill_pad m) r ->
  In r (outlier_step (add_growth fill_pad m)) /\
  (2012 <= year r -> In r (clean fill_pad m)).
Proof.
  intros Hnd Hr Hfirst.
  assert (Hna : isna (ecom_sales_growth r) = true).
  { destruct (in_split _ _ Hr) as [G1 [G2 E]].
    destruct (growth_at fill_pad m G1 G2 r E) as [-> _].
    rewrite (growth_above_earliest fill_pad m G1 G2 r Hnd E Hfirst). simpl.
    now rewrite growth_of_first. }
  assert (Hout : In r (outlier_step (add_growth fill_pad m))).
  { rewrite outlier_step_eq. destruct (0 <? _); [|exact Hr].
    apply remove_extreme_outliers_In. split; [exact Hr | now left]. }
  split; [exact Hout|].
  intro Hy. unfold clean, from_2012. apply filter_In. split; [exact Hout|].
  now apply Z.leb_le.
Qed.

(** The 2015 row of a country observed in 2015 and 2017 is emitted. *)
Lemma earliest_row_emitted_example :
  NoDup (map panel_key (integrate gap_year_sources)) /\
  exists r, In r (add_growth true (integrate gap_year_sources)) /\
            earliest_in (add_growth true (integrate gap_year_sources)) r /\
            year r = 2015 /\
            In r (clean true (integrate gap_year_sources)).
Proof.
  assert (Hnd : NoDup (map panel_key (integrate gap_year_sources))).
  { assert (E : map panel_key (integrate gap_year_sources)
                = [("Aland", 2015); ("Aland", 2017)]) by (vm_compute; reflexivity).
    rewrite E. repeat constructor; simpl; intuition discriminate. }
  split; [exact Hnd|].
  eexists.
  match goal with |- In ?r ?g /\ _ =>
    assert (Hin : In r g) by nth_row 0
  end.
  split; [exact Hin|].
  match goal with |- earliest_in ?g ?r /\ _ =>
    assert (He : earliest_in g r)
  end.
  { intros q Hq _. vm_compute in Hq.
    destruct Hq as [<-|[<-|[]]]; vm_compute; discriminate. }
  split; [exact He|]. split; [reflexivity|].
  apply (proj2 (earliest_row_emitted true (integrate gap_year_sources) _ Hnd Hin He)).
  vm_compute. discriminate.
Defined.

(* ================================================================== *)
(** * Where the enrichment columns come from *)

Lemma merge_internet_row (m : list ClassifiedRow) (inet : list InternetRow)
      (r : MasterRow) :
  In r (merge_internet m inet) ->
  (internet_rows_at inet (iso3 r) (year r) = [] /\ internet_users_pct r = NaN) \/
  (exists i, In i (internet_rows_at inet (iso3 r) (year r)) /\
             internet_users_pct r = inet_pct i).
Proof.
  intro H. apply merge_left_In in H.
  destruct H as [a [_ [[-> E]|[i [Hi [Hon ->]]]]]]; simpl.
  - left. split; [exact E | reflexivity].
  - right. exists i. split; [|reflexivity].
    apply filter_In. split; [exact Hi | exact Hon].
Qed.

(** The internet column of a panel row is the value of an internet row
    whose code and year are the row's iso3 and year, a null iso3 being
    joined with the rows whose code is null; or it is null, the source
    having no such row to join. *)
Theorem internet_column_source (s : Sources) :
  Forall (fun p : PanelRow =>
            (internet_rows_at (df_internet s) (iso3 p) (year p) = [] /\
             internet_users_pct p = NaN) \/
            (exists i, In i (df_internet s) /\
                       inet_Code i = iso3 p /\ inet_Year i = year p /\
                       internet_users_pct p = inet_pct i))
         (integrate s).
Proof.
  apply Forall_forall. intros p Hp. unfold integrate in Hp.
  apply merge_conflict_In in Hp.
  apply filter_In in Hp. destruct Hp as [Hp _].
  apply filter_regions_row in Hp.
  destruct Hp as [r0 [reg [Hr0 [_ [_ [_ Hr]]]]]].
  assert (E : iso3 p = iso3 r0 /\ year p = year r0 /\
              internet_users_pct p = internet_users_pct r0).
  { change (iso3 p) with (iso3 (master_of p)).
    change (year p) with (year (master_of p)).
    change (internet_users_pct p) with (internet_users_pct (master_of p)).
    rewrite Hr. now destruct (String.eqb (country_name r0) "Malta"). }
  destruct E as [-> [-> ->]].
  apply merge_internet_row in Hr0. destruct Hr0 as [H|[i [Hi Hv]]].
  - left. exact H.
  - right. exists i. apply filter_In in Hi. destruct Hi as [Hi Hon].
    apply andb_true_iff in Hon. destruct Hon as [E1 E2].
    apply Z.eqb_eq in E2. split; [exact Hi|].
    split; [|split; [now symmetry | exact Hv]].
    destruct (iso3 r0) as [a|], (inet_Code i) as [b|]; simpl in E1;
      try discriminate; [|reflexivity].
    apply String.eqb_eq in E1. now subst.
Qed.

Lemma ged_has_key (c : string) (y : Z) (g : GedRow) :
  has_key key_dec ged_key (c, y) g
  = cell_is (ged_country g) c && (ged_year g =? y).
Proof.
  unfold has_key, ged_key, cell_is.
  destruct (ged_country g) as [c'|]; [|reflexivity].
  rewrite <- key_eqb_dec. reflexivity.
Qed.

Lemma conflict_agg_row (ged : list GedRow) (c : ConflictRow) :
  In c (conflict_agg ged) ->
  cf_conflict_deaths c
  = Fl.sum (map best (events_at ged (cf_country_name c) (cf_year c))) /\
  cf_civilian_deaths c
  = Fl.sum (map deaths_civilians (events_at ged (cf_country_name c) (cf_year c))).
Proof.
  unfold conflict_agg. rewrite in_map_iff. intros [[[k y] g] [<- Hg]].
  apply groupby_In in Hg. simpl in *. destruct Hg as [-> _].
  assert (E : filter (has_key key_dec ged_key (k, y)) ged = events_at ged k y)
    by (apply filter_ext; intro r; apply ged_has_key).
  rewrite E. auto.
Qed.

Lemma conflict_agg_none (ged : list GedRow) (c : string) (y : Z) :
  filter (fun a => String.eqb c (cf_country_name a) && (y =? cf_year a))
         (conflict_agg ged) = [] ->
  events_at ged c y = [].
Proof.
  intro H. destruct (events_at ged c y) as [|g l] eqn:E; [reflexivity|].
  exfalso.
  assert (Hg : In g (events_at ged c y)) by (rewrite E; now left).
  apply filter_In in Hg. destruct Hg as [Hg Hk].
  rewrite <- ged_has_key in Hk. apply has_key_true in Hk.
  assert (Hin : In (c, y) (map (fun a => (cf_country_name a, cf_year a))
                              (conflict_agg ged))).
  { rewrite conflict_agg_keys. apply group_keys_In. eauto. }
  apply in_map_iff in Hin. destruct Hin as [a [Ea Ha]].
  injection Ea as Ec Ey.
  assert (Hf : In a (filter (fun a => String.eqb c (cf_country_name a)
                                      && (y =? cf_year a)) (conflict_agg ged))).
  { apply filter_In. split; [exact Ha|].
    now rewrite Ec, Ey, String.eqb_refl, Z.eqb_refl. }
  rewrite H in Hf. exact Hf.
Qed.

(** With the events loaded, the conflict columns of a panel row are the
    sums of [best] and of [deaths_civilians] over the events of the row's
    country and year, a null sum counting as 0; no event gives 0. *)
Theorem conflict_columns_are_sums (s : Sources) (ged : list GedRow) :
  df_ged s = Some ged ->
  Forall (fun p : PanelRow =>
            conflict_deaths p
            = fillna zero (Fl.sum (map best
                 (events_at ged (country_name p) (year p)))) /\
            civilian_deaths p
            = fillna zero (Fl.sum (map deaths_civilians
                 (events_at ged (country_name p) (year p)))))
         (integrate s).
Proof.
  intro Hg. apply Forall_forall. intros p Hp. unfold integrate in Hp.
  rewrite Hg in Hp. unfold merge_conflict in Hp. apply merge_left_In in Hp.
  destruct Hp as [a [_ [[-> E]|[c [Hc [Hon ->]]]]]]; simpl.
  - apply conflict_agg_none in E. rewrite E. simpl. split; reflexivity.
  - apply andb_true_iff in Hon. destruct Hon as [E1 E2].
    apply String.eqb_eq in E1. apply Z.eqb_eq in E2.
    destruct (conflict_agg_row ged c Hc) as [-> ->].
    rewrite <- E1, <- E2. split; reflexivity.
Qed.

(** Aland has one event in 2019 and none in 2020. *)
Lemma conflict_columns_example :
  df_ged events_sources
  = Some [ {| ged_year := 2019; ged_country := Some "Aland";
              best := of_Z 7; deaths_civilians := of_Z 3 |} ] /\
  map (fun p : PanelRow => (year p, conflict_deaths p, civilian_deaths p))
      (integrate events_sources)
  = [ (2019, of_Z 7, of_Z 3); (2020, of_Z 0, of_Z 0) ] /\
  Forall (fun p : PanelRow =>
            conflict_deaths p
            = fillna zero (Fl.sum (map best
                 (events_at [ {| ged_year := 2019; ged_country := Some "Aland";
                                 best := of_Z 7; deaths_civilians := of_Z 3 |} ]
                            (country_name p) (year p)))) /\
            civilian_deaths p
            = fillna zero (Fl.sum (map deaths_civilians
                 (events_at [ {| ged_year := 2019; ged_country := Some "Aland";
                                 best := of_Z 7; deaths_civilians := of_Z 3 |} ]
                            (country_name p) (year p)))))
         (integrate events_sources).
Proof.
  split; [reflexivity|]. split; [vm_compute; reflexivity|].
  exact (conflict_columns_are_sums events_sources _ eq_refl).
Defined.

(* ================================================================== *)
(** * The reach of the monthly override *)

Lemma canada_monthly_empty (raw : list CanadaRaw) :
  canada_ecom raw = [] \/ canada_total raw = [] -> canada_monthly raw = [].
Proof.
  unfold canada_monthly, merge_inner. intros [->| ->]; [reflexivity|].
  induction (canada_ecom raw) as [|e l IH]; simpl; [reflexivity | exact IH].
Qed.

Lemma replace_canada_nil (agg : list EcomRow) : replace_canada agg [] = agg.
Proof.
  unfold replace_canada. rewrite app_nil_r. apply forallb_filter_id.
  apply forallb_forall. intros r _. simpl. now rewrite andb_false_r.
Qed.

(** A monthly file that lacks one of its two series (no record carries the
    label of that series) leaves the e-commerce table as the global
    aggregate: nothing is deleted and nothing is added. *)
Theorem override_without_a_series (s : Sources) (raw : list CanadaRaw) :
  df_canada_raw s = Some raw ->
  canada_ecom raw = [] \/ canada_total raw = [] ->
  canada_yearly raw = [] /\ ecom_table s = ecom_agg (df_ecom s).
Proof.
  intros Hraw Hnone.
  assert (E : canada_yearly raw = []).
  { unfold canada_yearly. now rewrite (canada_monthly_empty raw Hnone). }
  split; [exact E|].
  unfold ecom_table, with_canada. rewrite Hraw, E. apply replace_canada_nil.
Qed.

(** Only the e-commerce series is present. *)
Lemma override_without_a_series_example :
  canada_total [ canada_row 2020 6 "Retail E-commerce sales, unadjusted" 100;
                 canada_row 2020 7 "Retail E-commerce sales, unadjusted" 120 ] = [] /\
  ecom_table one_series_sources = ecom_agg (df_ecom one_series_sources).
Proof.
  split; [reflexivity|].
  exact (proj2 (override_without_a_series one_series_sources _ eq_refl
                  (or_intror eq_refl))).
Defined.

(** The override touches nothing but Canada in the years it covers: for
    any other (country, year) the e-commerce table holds the rows of the
    global aggregate, unchanged. *)
Theorem override_leaves_the_rest (s : Sources) (raw : list CanadaRaw) (k : key) :
  df_canada_raw s = Some raw ->
  fst k <> "Canada" \/ ~ In (snd k) (map year (canada_yearly raw)) ->
  rows_at key_of k (ecom_table s) = rows_at key_of k (ecom_agg (df_ecom s)).
Proof.
  intros Hraw Hk. unfold ecom_table, with_canada. rewrite Hraw.
  unfold replace_canada, rows_at. rewrite filter_app.
  rewrite (filter_none _ (canada_yearly raw)).
  - rewrite app_nil_r. apply filter_filter_same.
    intros e He. apply key_eqb_eq in He. subst k. simpl in Hk.
    apply negb_true_iff. apply andb_false_iff.
    destruct Hk as [Hc|Hy].
    + left. now apply String.eqb_neq.
    + right. destruct (isin (year e) (map year (canada_yearly raw))) eqn:E;
        [|reflexivity].
      apply isin_In in E. contradiction.
  - intros e He. destruct (key_eqb (key_of e) k) eqn:E; [|reflexivity].
    exfalso. apply key_eqb_eq in E. subst k. simpl in Hk.
    destruct Hk as [Hc|Hy].
    + apply Hc. now apply (canada_yearly_country raw).
    + apply Hy. now apply in_map.
Qed.

(** Canada 2019 lies outside the override of 2020. *)
Lemma override_leaves_the_rest_example :
  df_canada_raw override_sources = Some override_raw /\
  ~ In 2019 (map year (canada_yearly override_raw)) /\
  rows_at key_of ("Canada", 2019) (ecom_table override_sources)
  = rows_at key_of ("Canada", 2019) (ecom_agg (df_ecom override_sources)).
Proof.
  assert (Hy : ~ In 2019 (map year (canada_yearly override_raw)))
    by (vm_compute; intros [H|[]]; discriminate H).
  split; [reflexivity|]. split; [exact Hy|].
  exact (override_leaves_the_rest override_sources override_raw ("Canada", 2019)
           eq_refl (or_intror Hy)).
Defined.

(* ================================================================== *)
(** * Quartiles of a column of numbers *)

Lemma lerp_finite (a b t : Q) :
  exists x, lerp (Fin a) (Fin b) t = Fin x /\ (x == a + (b - a) * t)%Q.
Proof.
  unfold lerp. destruct (Qle_bool (1 # 2) t).
  - unfold Fl.sub, Fl.mul, Fl.add, Fl.neg.
    eexists. split; [reflexivity|]. rewrite !Qred_correct. ring.
  - unfold Fl.sub, Fl.mul, Fl.add, Fl.neg.
    eexists. split; [reflexivity|]. rewrite !Qred_correct. ring.
Qed.

Lemma finite_column_dropna (col : list fl) :
  finite_column col -> exists qs, dropna col = map Fin qs.
Proof.
  unfold dropna. induction 1 as [|x col Hx _ [qs IH]]; simpl.
  - exists []. reflexivity.
  - destruct Hx as [->|[q ->]]; simpl.
    + exists qs. exact IH.
    + exists (q :: qs). now rewrite IH.
Qed.

Lemma sort_by_map_Fin (qs : list Q) :
  sort_by Fl.le (map Fin qs) = map Fin (sort_by Qle_bool qs).
Proof.
  induction qs as [|x qs IH]; simpl; [reflexivity|].
  rewrite IH. generalize (sort_by Qle_bool qs) as l.
  induction l as [|y l IHl]; simpl; [reflexivity|].
  destruct (Qle_bool x y); simpl; [reflexivity | now rewrite IHl].
Qed.

Lemma Qleb_sort_sorted (qs : list Q) : Qleb_sorted (sort_by Qle_bool qs).
Proof.
  apply sort_by_sorted.
  - intros x y. rewrite !Qle_bool_iff.
    destruct (Qlt_le_dec x y) as [H|H]; [left; now apply Qlt_le_weak | now right].
  - intros x y z. rewrite !Qle_bool_iff. apply Qle_trans.
Qed.

Lemma sorted_nth_le (qs : list Q) (i j : nat) :
  Qleb_sorted qs -> (i <= j < List.length qs)%nat ->
  (nth i qs 0 <= nth j qs 0)%Q.
Proof.
  intro Hs. revert i j. induction Hs as [|x qs Hs IH Hall]; intros i j Hij.
  - simpl in Hij. lia.
  - destruct i as [|i], j as [|j]; simpl in *.
    + apply Qle_refl.
    + rewrite Forall_forall in Hall. apply Qle_bool_iff, Hall, nth_In. lia.
    + lia.
    + apply IH. lia.
Qed.

Section Interpolation.
Variable qs : list Q.
Hypothesis qs_sorted : Qleb_sorted qs.
Hypothesis qs_nonempty : qs <> [].

Local Abbreviation n := (Z.of_nat (List.length qs)).

Lemma interp_index (pos : Q) :
  (0 <= pos)%Q -> (pos <= inject_Z (n - 1))%Q ->
  0 <= Qfloor pos <= n - 1.
Proof.
  intros H0 H1. split.
  - change 0 with (Qfloor 0). now apply Qfloor_resp_le.
  - rewrite <- (Qfloor_Z (n - 1)). now apply Qfloor_resp_le.
Qed.

Lemma interp_frac (pos : Q) :
  (0 <= pos - inject_Z (Qfloor pos))%Q /\ (pos - inject_Z (Qfloor pos) <= 1)%Q.
Proof.
  pose proof (Qfloor_le pos) as Hl. pose proof (Qlt_floor pos) as Hu.
  rewrite inject_Z_plus in Hu. unfold inject_Z at 2 in Hu.
  split; [lra|]. apply Qlt_le_weak. lra.
Qed.

Lemma interp_bounds (pos : Q) :
  (0 <= pos)%Q -> (pos <= inject_Z (n - 1))%Q ->
  (nth (Z.to_nat (Qfloor pos)) qs 0 <= interp qs pos)%Q /\
  (interp qs pos <= nth (Z.to_nat (Z.min (Qfloor pos + 1) (n - 1))) qs 0)%Q.
Proof.
  intros H0 H1. destruct (interp_index pos H0 H1) as [Hlo Hhi].
  destruct (interp_frac pos) as [Ht0 Ht1].
  unfold interp.
  set (a := nth (Z.to_nat (Qfloor pos)) qs 0%Q).
  set (b := nth (Z.to_nat (Z.min (Qfloor pos + 1) (n - 1))) qs 0%Q).
  set (t := (pos - inject_Z (Qfloor pos))%Q) in *.
  assert (Hab : (a <= b)%Q).
  { apply sorted_nth_le; [exact qs_sorted|]. lia. }
  split; nra.
Qed.

Lemma interp_mono (p1 p2 : Q) :
  (0 <= p1)%Q -> (p1 <= p2)%Q -> (p2 <= inject_Z (n - 1))%Q ->
  (interp qs p1 <= interp qs p2)%Q.
Proof.
  intros H0 H12 H2.
  assert (H1 : (p1 <= inject_Z (n - 1))%Q) by lra.
  assert (H0' : (0 <= p2)%Q) by lra.
  destruct (interp_index p1 H0 H1) as [Hlo1 Hhi1].
  destruct (interp_index p2 H0' H2) as [Hlo2 Hhi2].
  pose proof (Qfloor_resp_le p1 p2 H12) as Hfl.
  destruct (Z.eq_dec (Qfloor p1) (Qfloor p2)) as [E|N].
  - destruct (interp_frac p1) as [Ht0 Ht1].
    destruct (interp_frac p2) as [Hu0 Hu1].
    unfold interp. rewrite E in *.
    set (a := nth (Z.to_nat (Qfloor p2)) qs 0%Q).
    set (b := nth (Z.to_nat (Z.min (Qfloor p2 + 1) (n - 1))) qs 0%Q).
    assert (Hab : (a <= b)%Q).
    { apply sorted_nth_le; [exact qs_sorted|]. lia. }
    nra.
  - destruct (interp_bounds p1 H0 H1) as [_ Hup].
    destruct (interp_bounds p2 H0' H2) as [Hdown _].
    eapply Qle_trans; [exact Hup|]. eapply Qle_trans; [|exact Hdown].
    apply sorted_nth_le; [exact qs_sorted|]. lia.
Qed.
End Interpolation.

Lemma nth_map_Fin (qs : list Q) (i : nat) :
  (i < List.length qs)%nat -> nth i (map Fin qs) NaN = Fin (nth i qs 0%Q).
Proof.
  revert i. induction qs as [|x qs IH]; intros [|i] H; simpl in *;
    try lia; [reflexivity | apply IH; lia].
Qed.

Lemma sort_by_length {A : Type} (leb : A -> A -> bool) (l : list A) :
  List.length (sort_by leb l) = List.length l.
Proof. apply Permutation_length, sort_by_perm. Qed.

(** On a column of numbers a quantile of order [q] in [0, 1] is a number,
    the interpolation at position [q (n - 1)] of the sorted values. *)
Lemma quantile_interp (q : Q) (col : list fl) (qs : list Q) :
  dropna col = map Fin qs -> qs <> [] -> (0 <= q)%Q -> (q <= 1)%Q ->
  exists x,
    quantile q col = Fin x /\
    (x == interp (sort_by Qle_bool qs)
                 (q * inject_Z (Z.of_nat (List.length qs) - 1)))%Q.
Proof.
  intros Hd Hne Hq0 Hq1. unfold quantile. rewrite Hd, sort_by_map_Fin.
  set (ss := sort_by Qle_bool qs).
  assert (Hlen : List.length ss = List.length qs) by apply sort_by_length.
  assert (Hpos : (0 < List.length qs)%nat)
    by (destruct qs; [congruence | simpl; lia]).
  destruct (map Fin ss) as [|v vs] eqn:Ev.
  { apply (f_equal (@List.length fl)) in Ev. rewrite length_map in Ev.
    simpl in Ev. lia. }
  rewrite <- Ev. clear Ev v vs. rewrite length_map, Hlen.
  set (n := Z.of_nat (List.length qs)).
  set (pos := (q * inject_Z (n - 1))%Q).
  assert (Hn : (0 <= inject_Z (n - 1))%Q).
  { change 0%Q with (inject_Z 0). rewrite <- Zle_Qle. unfold n. lia. }
  assert (Hp0 : (0 <= pos)%Q) by (unfold pos; nra).
  assert (Hp1 : (pos <= inject_Z (n - 1))%Q) by (unfold pos; nra).
  assert (Hlo : 0 <= Qfloor pos <= n - 1).
  { split.
    - change 0 with (Qfloor 0). now apply Qfloor_resp_le.
    - rewrite <- (Qfloor_Z (n - 1)). now apply Qfloor_resp_le. }
  rewrite !nth_map_Fin by (rewrite Hlen; unfold n in *; lia).
  destruct (lerp_finite (nth (Z.to_nat (Qfloor pos)) ss 0%Q)
              (nth (Z.to_nat (Z.min (Qfloor pos + 1) (n - 1))) ss 0%Q)
              (pos - inject_Z (Qfloor pos))) as [x [Ex Hx]].
  exists x. split; [exact Ex|].
  rewrite Hx. unfold interp. rewrite Hlen. reflexivity.
Qed.

Lemma Fl_le_Fin (a b : Q) : Fl.le (Fin a) (Fin b) = true <-> (a <= b)%Q.
Proof. apply Qle_bool_iff. Qed.

(** On a column of numbers with at least one value the quartiles and the
    two fences are numbers with lower <= Q1 <= Q3 <= upper. *)
Lemma fences_ordered (column : CleanRow -> fl) (df : list CleanRow) :
  finite_column (map column df) ->
  (exists r, In r df /\ isna (column r) = false) ->
  exists l q1 q3 u,
    lower column df = Fin l /\ Q1 column df = Fin q1 /\
    Q3 column df = Fin q3 /\ upper column df = Fin u /\
    (l <= q1)%Q /\ (q1 <= q3)%Q /\ (q3 <= u)%Q.
Proof.
  intros Hfin [r [Hr Hv]].
  destruct (finite_column_dropna _ Hfin) as [qs Hd].
  assert (Hne : qs <> []).
  { intros ->. simpl in Hd.
    assert (Hin : In (column r) (dropna (map column df))).
    { apply filter_In. split; [now apply in_map|]. unfold notna. now rewrite Hv. }
    rewrite Hd in Hin. exact Hin. }
  destruct (quantile_interp (1 # 4) _ qs Hd Hne) as [q1 [E1 H1]]; [lra | lra |].
  destruct (quantile_interp (3 # 4) _ qs Hd Hne) as [q3 [E3 H3]]; [lra | lra |].
  assert (H13 : (q1 <= q3)%Q).
  { rewrite H1, H3.
    assert (Hpos : (0 < List.length qs)%nat)
      by (destruct qs; [congruence | simpl; lia]).
    assert (Hn : (0 <= inject_Z (Z.of_nat (List.length qs) - 1))%Q).
    { change 0%Q with (inject_Z 0). rewrite <- Zle_Qle. lia. }
    pose proof (interp_mono (sort_by Qle_bool qs) (Qleb_sort_sorted qs)) as Hm.
    rewrite sort_by_length in Hm. apply Hm; nra. }
  change (quantile (1 # 4) (map column df)) with (Q1 column df) in E1.
  change (quantile (3 # 4) (map column df)) with (Q3 column df) in E3.
  unfold lower, upper, IQR. rewrite E1, E3.
  unfold Fl.sub, Fl.mul, Fl.add, Fl.neg, of_Z.
  do 4 eexists. split; [reflexivity|]. split; [reflexivity|].
  split; [reflexivity|]. split; [reflexivity|].
  rewrite !Qred_correct. unfold inject_Z.
  split; [|split]; [|exact H13|]; nra.
Qed.

(** On a growth column of numbers the quartile fences are in order, so
    outlier removal keeps every row whose value lies between the two
    quartiles. *)
Theorem between_quartiles_kept (column : CleanRow -> fl) (df : list CleanRow) :
  finite_column (map column df) ->
  (exists r, In r df /\ isna (column r) = false) ->
  ((lower column df <=? Q1 column df)%fl = true /\
   (Q1 column df <=? Q3 column df)%fl = true /\
   (Q3 column df <=? upper column df)%fl = true) /\
  (forall r, In r df ->
             (Q1 column df <=? column r)%fl = true ->
             (column r <=? Q3 column df)%fl = true ->
             In r (remove_extreme_outliers column df)).
Proof.
  intros Hfin Hex.
  destruct (fences_ordered column df Hfin Hex)
    as [l [q1 [q3 [u [El [E1 [E3 [Eu [Hl [H13 Hu]]]]]]]]]].
  rewrite El, E1, E3, Eu. split.
  - rewrite !Fl_le_Fin. auto.
  - intros r Hr Ha Hb. apply remove_extreme_outliers_In. split; [exact Hr|].
    right. unfold within_bounds. rewrite El, Eu.
    destruct (column r) as [| | |v]; simpl in Ha, Hb; try discriminate.
    apply Qle_bool_iff in Ha, Hb. apply andb_true_iff.
    rewrite !Fl_le_Fin. split; lra.
Qed.

(* ================================================================== *)
(** * Reporting: periods, repeated filters, file names *)

Lemma integrate_region_kept (s : Sources) (p : PanelRow) :
  In p (integrate s) -> cell_is (region p) excluded_region = false.
Proof.
  intro Hp. apply integrate_row in Hp.
  destruct Hp as [c [reg [_ [_ [_ [_ [Hex [_ [_ [_ Hr]]]]]]]]]].
  rewrite Hr. unfold cell_is.
  destruct (String.eqb (country_name p) "Malta").
  - reflexivity.
  - now apply String.eqb_neq.
Qed.

Lemma integrate_shocks (s : Sources) (p : PanelRow) :
  In p (integrate s) ->
  covid_19_shock p = bool_int ((2020 <=? year p) && (year p <=? 2022)) /\
  ukraine_conflict p = bool_int (2022 <=? year p).
Proof.
  intro Hp. unfold integrate in Hp. apply merge_conflict_shocks in Hp.
  destruct Hp as [c1 [c2 E]]. rewrite E. split; reflexivity.
Qed.

Lemma repeated_filters_remove_nothing_aux (fill_pad : bool) (s : Sources) :
  master_viz (pipeline fill_pad s) = pipeline fill_pad s /\
  reload_filters (pipeline fill_pad s) = pipeline fill_pad s.
Proof.
  assert (H1 : forall l : list CleanRow,
             (forall r, In r l -> In r (pipeline fill_pad s)) ->
             filter (fun r : CleanRow => 2012 <=? year r) l = l).
  { intros l Hl. apply forallb_filter_id, forallb_forall. intros r Hr.
    apply Hl, pipeline_In in Hr. now apply Z.leb_le. }
  assert (H2 : filter (fun r : CleanRow =>
                         negb (cell_is (region r) "Latin America & Caribbean"))
                      (pipeline fill_pad s) = pipeline fill_pad s).
  { apply forallb_filter_id, forallb_forall. intros r Hr.
    apply pipeline_In in Hr. destruct Hr as [Hr _].
    apply integrate_region_kept in Hr. unfold excluded_region in Hr.
    change (region (panel_of r)) with (region r) in Hr. now rewrite Hr. }
  split.
  - unfold master_viz. now apply H1.
  - unfold reload_filters. rewrite H2. now apply H1.
Qed.

(** The filters that the chart code and the two chart scripts apply again
    to the emitted panel (year >= 2012, region other than the excluded one)
    remove nothing from it. *)
Theorem repeated_filters_remove_nothing (fill_pad : bool) (s : Sources) :
  master_viz (pipeline fill_pad s) = pipeline fill_pad s /\
  reload_filters (pipeline fill_pad s) = pipeline fill_pad s.
Proof. apply repeated_filters_remove_nothing_aux. Qed.

Lemma three_way_split {A : Type} (p q r : A -> bool) (l : list A) :
  (forall x, In x l ->
     (p x = true /\ q x = false /\ r x = false) \/
     (p x = false /\ q x = true /\ r x = false) \/
     (p x = false /\ q x = false /\ r x = true)) ->
  Permutation (filter p l ++ filter q l ++ filter r l) l.
Proof.
  induction l as [|x l IH]; intro H; [constructor|].
  assert (IH' : Permutation (filter p l ++ filter q l ++ filter r l) l)
    by (apply IH; intros y Hy; apply H; now right).
  simpl.
  destruct (H x (or_introl eq_refl)) as [[-> [-> ->]]|[[-> [-> ->]]|[-> [-> ->]]]].
  - simpl. now constructor.
  - apply Permutation_sym. eapply perm_trans.
    + apply perm_skip, Permutation_sym, IH'.
    + apply Permutation_middle.
  - apply Permutation_sym. eapply perm_trans.
    + apply perm_skip, Permutation_sym, IH'.
    + rewrite !app_assoc. apply Permutation_middle.
Qed.

(** The three periods of the box plot split the chart frame: every row
    falls in exactly one of them, so the concatenated frame holds the
    (year, share) pairs of the chart frame once each; and on the emitted
    panel the COVID period is made of the rows flagged covid_19_shock. *)
Theorem periods_split_the_panel :
  (forall mv : list CleanRow,
      Permutation
        (map (fun x => (pr_year x, pr_ecom_share_pct x)) (all_periods mv))
        (map (fun r : CleanRow => (year r, ecom_share_pct r)) mv)) /\
  (forall fill_pad s,
      covid (master_viz (pipeline fill_pad s))
      = map (in_period "COVID Era (2020-2022)")
            (filter (fun r : CleanRow => covid_19_shock r =? 1)
                    (pipeline fill_pad s))).
Proof.
  split.
  - intro mv. unfold all_periods, pre_covid, covid, post_covid.
    rewrite !map_app, !map_map. simpl. rewrite <- !map_app.
    apply Permutation_map. apply three_way_split. intros x _.
    destruct (Z.ltb_spec (year x) 2020), (Z.leb_spec 2020 (year x)),
      (Z.leb_spec (year x) 2022), (Z.ltb_spec 2022 (year x));
      simpl; try lia; auto.
  - intros pad s.
    rewrite (proj1 (repeated_filters_remove_nothing_aux pad s)).
    unfold covid. f_equal. apply filter_ext_in. intros r Hr.
    apply pipeline_In in Hr. destruct Hr as [Hr _].
    destruct (integrate_shocks s r Hr) as [E _].
    change (covid_19_shock (panel_of r)) with (covid_19_shock r) in E.
    change (year (panel_of r)) with (year r) in E.
    rewrite E. now destruct ((2020 <=? year r) && (year r <=? 2022)).
Qed.

Lemma chars_app (s t : string) : chars (s ++ t) = chars s ++ chars t.
Proof.
  unfold chars. induction s as [|c s IH]; simpl; [reflexivity | now rewrite IH].
Qed.

Lemma replace_char_chars (old : ascii) (new s : string) (c : ascii) :
  In c (chars (replace_char old new s)) ->
  (In c (chars s) /\ c <> old) \/ In c (chars new).
Proof.
  induction s as [|d s IH]; simpl; [tauto|].
  destruct (Ascii.eqb_spec d old) as [->|N].
  - rewrite chars_app, in_app_iff. intros [H|H]; [now right|].
    destruct (IH H) as [[H1 H2]|H1]; [left; split; [now right | exact H2] | now right].
  - change (chars (String d (replace_char old new s)))
      with (d :: chars (replace_char old new s)).
    change (chars (String d s)) with (d :: chars s).
    intros [<-|H]; [left; split; [now left | exact N]|].
    destruct (IH H) as [[H1 H2]|H1]; [left; split; [now right | exact H2] | now right].
Qed.

Lemma replace_char_absent (old : ascii) (new s : string) :
  ~ In old (chars s) -> replace_char old new s = s.
Proof.
  induction s as [|d s IH]; simpl; [reflexivity|].
  change (chars (String d s)) with (d :: chars s). intro H.
  destruct (Ascii.eqb_spec d old) as [->|N].
  - exfalso. apply H. now left.
  - rewrite IH; [reflexivity|]. intro Hin. apply H. now right.
Qed.

Lemma safe_name_chars (region : string) (c : ascii) :
  In c (chars (safe_name region)) ->
  c <> " "%char /\ c <> ","%char /\ c <> "&"%char.
Proof.
  unfold safe_name. intro H.
  apply replace_char_chars in H. destruct H as [[H Hc]|H].
  - apply replace_char_chars in H. destruct H as [[H Hb]|H]; [|destruct H].
    apply replace_char_chars in H. destruct H as [[H Ha]|H].
    + auto.
    + destruct H as [<-|[]]. repeat split; discriminate.
  - simpl in H. destruct H as [<-|[<-|[<-|[]]]]; repeat split; discriminate.
Qed.

(** The file-name part made from a region holds no space, comma or
    ampersand; a name without them is left as it is, so that making the
    name again changes nothing. *)
Theorem safe_name_is_safe (region : string) :
  (forall c, In c (chars (safe_name region)) ->
             c <> " "%char /\ c <> ","%char /\ c <> "&"%char) /\
  (~ In " "%char (chars region) -> ~ In ","%char (chars region) ->
   ~ In "&"%char (chars region) -> safe_name region = region) /\
  safe_name (safe_name region) = safe_name region.
Proof.
  assert (Hid : forall s, ~ In " "%char (chars s) -> ~ In ","%char (chars s) ->
                          ~ In "&"%char (chars s) -> safe_name s = s).
  { intros s H1 H2 H3. unfold safe_name.
    now rewrite (replace_char_absent " " "_" s H1),
                (replace_char_absent "," "" s H2),
                (replace_char_absent "&" "and" s H3). }
  split; [apply safe_name_chars|]. split; [apply Hid|].
  apply Hid; intro H; apply safe_name_chars in H; tauto.
Qed.

(** A region name without space, comma or ampersand. *)
Lemma safe_name_example :
  ~ In " "%char (chars "Europe") /\ ~ In ","%char (chars "Europe") /\
  ~ In "&"%char (chars "Europe") /\
  safe_name "Europe" = "Europe" /\
  safe_name "Europe & Central Asia" = "Europe_and_Central_Asia".
Proof.
  assert (H1 : ~ In " "%char (chars "Europe"))
    by (vm_compute; intuition discriminate).
  assert (H2 : ~ In ","%char (chars "Europe"))
    by (vm_compute; intuition discriminate).
  assert (H3 : ~ In "&"%char (chars "Europe"))
    by (vm_compute; intuition discriminate).
  repeat (split; [assumption|]). split; [|reflexivity].
  exact (proj1 (proj2 (safe_name_is_safe "Europe")) H1 H2 H3).
Defined.

Lemma flat_map_singleton {A B : Type} (f : A -> list B) (g : A -> B)
      (l : list A) :
  (forall a, In a l -> f a = [g a]) -> flat_map f l = map g l.
Proof.
  induction l as [|a l IH]; intro H; simpl; [reflexivity|].
  rewrite (H a (or_introl eq_refl)), IH; [reflexivity|].
  intros b Hb. apply H. now right.
Qed.

Lemma df_conflict_map (df : list CleanRow) :
  df_conflict df
  = map (fun r : CleanRow =>
           {| cp_row := r;
              total_conflict_deaths := total_of df (country_name r);
              high_conflict :=
                bool_int (fl_gt (total_of df (country_name r)) (of_Z 100)) |})
        df.
Proof.
  unfold df_conflict, merge_inner. apply flat_map_singleton. intros r Hr.
  unfold conflict_intensity. rewrite filter_map_swap.
  erewrite filter_ext;
    [ rewrite (groupby_select string_dec String.leb
                 (fun r : CleanRow => Some (country_name r)) df (country_name r)) | ].
  - simpl. repeat f_equal; unfold total_of, rows_of_country, clean_country;
      f_equal; f_equal; apply filter_ext; intro x; unfold has_key;
      (destruct (string_dec (country_name x) (country_name r)) as [->|n];
       [now rewrite String.eqb_refl | symmetry; now apply String.eqb_neq]).
  - exists r. auto.
  - intros [k g]. simpl.
    destruct (string_dec k (country_name r)) as [->|n].
    + apply String.eqb_refl.
    + apply String.eqb_neq. congruence.
Qed.

(** Merging the per-country totals back onto the panel keeps every row
    exactly once: the merged frame holds the rows of the panel, each with
    the total conflict deaths of its country over the whole panel and the
    flag 1 exactly when that total exceeds 100. *)
Theorem conflict_totals_merged (df : list CleanRow) :
  Permutation
    (df_conflict df)
    (map (fun r : CleanRow =>
            {| cp_row := r;
               total_conflict_deaths := total_of df (country_name r);
               high_conflict :=
                 bool_int (fl_gt (total_of df (country_name r)) (of_Z 100)) |})
         df) /\
  List.length (df_conflict df) = List.length df /\
  Forall (fun x : ConflictPanelRow =>
            In (cp_row x) df /\
            (high_conflict x = 1 <->
             fl_gt (total_of df (country_name (cp_row x))) (of_Z 100) = true) /\
            (high_conflict x = 0 <->
             fl_gt (total_of df (country_name (cp_row x))) (of_Z 100) = false))
         (df_conflict df).
Proof.
  rewrite df_conflict_map. split; [apply Permutation_refl|].
  split; [apply length_map|].
  apply Forall_forall. intros x Hx. apply in_map_iff in Hx.
  destruct Hx as [r [<- Hr]]. simpl. split; [exact Hr|].
  destruct (fl_gt (total_of df (country_name r)) (of_Z 100)); simpl;
    split; split; intro H; try reflexivity; discriminate H.
Qed.

Lemma sorted_strict (l : list Z) :
  StronglySorted (fun a b => (a <=? b) = true) l -> NoDup l ->
  StronglySorted Z.lt l.
Proof.
  induction 1 as [|x l Hs IH Hall]; intro Hnd; [constructor|].
  inversion Hnd as [|? ? Hx Hnd']; subst.
  constructor; [now apply IH|].
  rewrite Forall_forall in *. intros y Hy.
  specialize (Hall y Hy). apply Z.leb_le in Hall.
  assert (x <> y) by (intros ->; contradiction). lia.
Qed.

(** The global trend has one point per year of the chart frame, in
    increasing order of the year; on the emitted panel no point lies
    before 2012. *)
Theorem yearly_points_by_year :
  (forall mv : list CleanRow,
      StronglySorted Z.lt (map (fun p => fst (fst p)) (yearly mv)) /\
      (forall y, In y (map (fun p => fst (fst p)) (yearly mv)) <->
                 exists r : CleanRow, In r mv /\ year r = y)) /\
  (forall fill_pad s,
      Forall (fun p => 2012 <= fst (fst p))
             (yearly (master_viz (pipeline fill_pad s)))).
Proof.
  assert (Hk : forall mv, map (fun p => fst (fst p)) (yearly mv)
                          = group_keys Z.eq_dec Z.leb
                              (fun r : CleanRow => Some (year r)) mv).
  { intro mv. unfold yearly. rewrite map_map. simpl.
    rewrite <- groupby_keys. reflexivity. }
  assert (Hin : forall mv y, In y (map (fun p => fst (fst p)) (yearly mv)) <->
                             exists r : CleanRow, In r mv /\ year r = y).
  { intros mv y. rewrite Hk, group_keys_In.
    split; intros [r [Hr E]]; exists r; split; auto; congruence. }
  split.
  - intro mv. split; [|apply Hin].
    rewrite Hk. apply sorted_strict.
    + unfold group_keys. apply sort_by_sorted.
      * intros x y. rewrite !Z.leb_le. lia.
      * intros x y z. rewrite !Z.leb_le. lia.
    + apply group_keys_NoDup.
  - intros pad s. apply Forall_forall. intros p Hp.
    apply (in_map (fun p => fst (fst p))) in Hp. apply Hin in Hp.
    destruct Hp as [r [Hr <-]].
    unfold master_viz in Hr. apply filter_In in Hr. destruct Hr as [_ Hr].
    now apply Z.leb_le.
Qed.

Lemma in_period_inj (n1 n2 : string) (r1 r2 : CleanRow) :
  in_period n1 r1 = in_period n2 r2 -> n1 = n2 /\ year r1 = year r2.
Proof. unfold in_period. intros [= H1 _ H2]. auto. Qed.

(** The analysis script and the box plot agree on the emitted panel: a
    row satisfies the period mask of a name exactly when the chart frame
    holds it under that name, it satisfies exactly one of the three masks,
    and no row is both in the developed and in the developing group. *)
Theorem analysis_periods_agree (fill_pad : bool) (s : Sources) :
  Forall (fun r : CleanRow =>
            (forall name mask,
                In (name, mask) covid_periods ->
                (mask r = true <->
                 In (in_period name r)
                    (all_periods (master_viz (pipeline fill_pad s))))) /\
            List.length (filter (fun m => snd m r) covid_periods) = 1%nat)
         (pipeline fill_pad s) /\
  (forall df r, In r (developed df) -> ~ In r (developing df)).
Proof.
  split.
  - rewrite (proj1 (repeated_filters_remove_nothing_aux fill_pad s)).
    apply Forall_forall. intros r Hr.
    assert (Hy : 2012 <= year r) by (apply pipeline_In in Hr; tauto).
    split.
    + intros name mask Hm. unfold all_periods, pre_covid, covid, post_covid.
      rewrite !in_app_iff, !in_map_iff.
      destruct Hm as [[= <- <-]|[[= <- <-]|[[= <- <-]|[]]]]; split.
      * intro H. left. exists r. split; [reflexivity|].
        apply filter_In. split; [exact Hr|].
        apply andb_true_iff in H. tauto.
      * intros [[x [E Hx]]|[[x [E Hx]]|[x [E Hx]]]];
          apply in_period_inj in E; destruct E as [E Ey];
          try discriminate E.
        apply filter_In in Hx. destruct Hx as [_ Hx].
        rewrite Ey in Hx. apply andb_true_iff. split; [now apply Z.leb_le | exact Hx].
      * intro H. right. left. exists r. split; [reflexivity|].
        apply filter_In. split; [exact Hr | exact H].
      * intros [[x [E Hx]]|[[x [E Hx]]|[x [E Hx]]]];
          apply in_period_inj in E; destruct E as [E Ey];
          try discriminate E.
        apply filter_In in Hx. destruct Hx as [_ Hx]. now rewrite Ey in Hx.
      * intro H. right. right. exists r. split; [reflexivity|].
        apply filter_In. split; [exact Hr|].
        apply Z.leb_le in H. apply Z.ltb_lt. lia.
      * intros [[x [E Hx]]|[[x [E Hx]]|[x [E Hx]]]];
          apply in_period_inj in E; destruct E as [E Ey];
          try discriminate E.
        apply filter_In in Hx. destruct Hx as [_ Hx].
        rewrite Ey in Hx. apply Z.ltb_lt in Hx. apply Z.leb_le. lia.
    + unfold covid_periods. cbn [filter snd].
      destruct (Z.leb_spec 2012 (year r)), (Z.ltb_spec (year r) 2020),
        (Z.leb_spec 2020 (year r)), (Z.leb_spec (year r) 2022),
        (Z.leb_spec 2023 (year r)); simpl; try lia; reflexivity.
  - intros df r H1 H2. unfold developed, developing in *.
    apply filter_In in H1, H2. destruct H1 as [_ H1], H2 as [_ H2].
    apply cell_is_true in H1. rewrite H1 in H2. simpl in H2. discriminate.
Qed.

(** In [1, 2, 3, 4, 5, 1000] the row with 3 lies between the quartiles. *)
Lemma between_quartiles_example :
  finite_column (map ecom_sales_growth growth_rows_1000) /\
  (exists r, In r growth_rows_1000 /\ isna (ecom_sales_growth r) = false) /\
  In (growth_row 2015 (of_Z 3))
     (remove_extreme_outliers ecom_sales_growth growth_rows_1000).
Proof.
  assert (H1 : finite_column (map ecom_sales_growth growth_rows_1000))
    by (unfold finite_column; simpl;
        repeat (apply Forall_cons; [right; eexists; reflexivity|]);
        apply Forall_nil).
  assert (H2 : exists r, In r growth_rows_1000 /\ isna (ecom_sales_growth r) = false)
    by (eexists; split; [left; reflexivity | reflexivity]).
  split; [exact H1|]. split; [exact H2|].
  apply (proj2 (between_quartiles_kept ecom_sales_growth growth_rows_1000 H1 H2)).
  - do 2 right. left. reflexivity.
  - vm_compute. reflexivity.
  - vm_compute. reflexivity.
Defined.

(* ================================================================== *)
(** * Empty cells and zero baselines *)

Lemma ecom_agg_group_row (df : list EcomRaw) (c : string) (y : Z) :
  ecom_group df c y <> [] ->
  rows_at key_of (c, y) (ecom_agg df)
  = [ {| country_name := c; year := y;
         ecom_sales_usd_millions := Fl.sum (map USD_millions (ecom_group df c y));
         ecom_share_pct := Fl.mean (map Pct_turnover (ecom_group df c y)) |} ].
Proof.
  intro Hne. rewrite ecom_group_filter in *.
  set (rows := filter segment_filter df) in *.
  assert (Hex : exists r, In r rows /\ ecom_key r = Some (c, y)).
  { destruct (filter (has_key key_dec ecom_key (c, y)) rows) as [|r l] eqn:E;
      [congruence|].
    exists r. rewrite <- (has_key_true key_dec), <- filter_In, E. now left. }
  unfold rows_at, ecom_agg, aggregate_ecom. fold rows.
  rewrite filter_map_swap.
  erewrite filter_ext;
    [ rewrite (groupby_select key_dec key_leb ecom_key rows (c, y) Hex) | ].
  - reflexivity.
  - intros [[c' y'] g]. unfold key_of. simpl. apply key_eqb_dec.
Qed.

Lemma dropna_all_null (l : list fl) :
  (forall x, In x l -> x = NaN) -> dropna l = [].
Proof.
  intro H. apply filter_none. intros x Hx. now rewrite (H x Hx).
Qed.

(** A (country, year) group whose sales cells are all empty is aggregated
    to sales 0, not to a null; one whose share cells are all empty is
    aggregated to a null share. *)
Theorem empty_cells_aggregate (df : list EcomRaw) (c : string) (y : Z) :
  ecom_group df c y <> [] ->
  exists e,
    rows_at key_of (c, y) (ecom_agg df) = [e] /\
    ((forall r, In r (ecom_group df c y) -> USD_millions r = NaN) ->
     ecom_sales_usd_millions e = zero) /\
    ((forall r, In r (ecom_group df c y) -> Pct_turnover r = NaN) ->
     ecom_share_pct e = NaN).
Proof.
  intro Hne. eexists. split; [now apply ecom_agg_group_row|]. simpl. split.
  - intro H. unfold Fl.sum. rewrite dropna_all_null; [reflexivity|].
    intros x Hx. apply in_map_iff in Hx. destruct Hx as [r [<- Hr]]. now apply H.
  - intro H. unfold Fl.mean. rewrite dropna_all_null; [reflexivity|].
    intros x Hx. apply in_map_iff in Hx. destruct Hx as [r [<- Hr]]. now apply H.
Qed.

(** Aland 2019 with an empty sales cell and an empty share cell. *)
Lemma empty_cells_example :
  ecom_group (df_ecom empty_cell_sources) "Aland" 2019 <> [] /\
  exists e,
    rows_at key_of ("Aland", 2019) (ecom_agg (df_ecom empty_cell_sources)) = [e] /\
    ecom_sales_usd_millions e = zero /\ ecom_share_pct e = NaN.
Proof.
  assert (H : ecom_group (df_ecom empty_cell_sources) "Aland" 2019 <> [])
    by (vm_compute; discriminate).
  split; [exact H|].
  destruct (empty_cells_aggregate (df_ecom empty_cell_sources) "Aland" 2019 H)
    as [e [He [Hs Hm]]].
  exists e. split; [exact He|]. split.
  - apply Hs. intros r Hr. vm_compute in Hr. destruct Hr as [<-|[]]. reflexivity.
  - apply Hm. intros r Hr. vm_compute in Hr. destruct Hr as [<-|[]]. reflexivity.
Defined.

Lemma growth_of_zero_baseline (pad : bool) (rest : list fl) (a b : Q) :
  (a == 0)%Q ->
  growth_of pad (Fin a :: rest) (Fin b)
  = if Qzero b then NaN else inf (Qneg b).
Proof.
  intro Ha. unfold growth_of, shifted, filled.
  assert (E1 : (if pad then last_valid (Fin b :: Fin a :: rest) else Fin b) = Fin b)
    by now destruct pad.
  assert (E2 : (if pad then last_valid (Fin a :: rest) else Fin a) = Fin a)
    by now destruct pad.
  rewrite E1, E2. unfold Fl.div.
  assert (Hz : Qzero a = true) by (unfold Qzero; now apply Qeq_bool_iff).
  rewrite Hz. destruct (Qzero b); [reflexivity|].
  now destruct (Qneg b).
Qed.

(** Growth against a zero baseline: when the country's preceding row has
    sales 0, the sales growth of a row is +infinity for positive sales,
    -infinity for negative sales and null for sales 0; and outlier removal
    keeps a row with an infinite growth only when the fence on that side
    is itself infinite. *)
Theorem growth_after_zero (fill_pad : bool) (m : list PanelRow) :
  NoDup (map panel_key m) ->
  (forall p r a b,
      In r (add_growth fill_pad m) ->
      precedes_in (add_growth fill_pad m) p r ->
      sales_of p = Fin a -> (a == 0)%Q -> sales_of r = Fin b ->
      ((0 < b)%Q -> ecom_sales_growth r = PInf) /\
      ((b < 0)%Q -> ecom_sales_growth r = NInf) /\
      ((b == 0)%Q -> ecom_sales_growth r = NaN)) /\
  (forall (column : CleanRow -> fl) df r,
      In r (remove_extreme_outliers column df) ->
      (column r = PInf -> upper column df = PInf) /\
      (column r = NInf -> lower column df = NInf)).
Proof.
  intro Hnd. split.
  - intros p r a b Hr Hprev Ha Ha0 Hb.
    destruct (in_split _ _ Hr) as [G1 [G2 E]].
    destruct (growth_at fill_pad m G1 G2 r E) as [-> _].
    destruct (growth_above_preceded fill_pad m G1 G2 p r Hnd E Hprev) as [rest ->].
    simpl. rewrite Ha, Hb, (growth_of_zero_baseline fill_pad _ a b Ha0).
    unfold Qzero, Qneg.
    split; [|split]; intro H.
    + destruct (Qeq_bool b 0) eqn:E0; [apply Qeq_bool_iff in E0; lra|].
      destruct (Qle_bool 0 b) eqn:E1; [reflexivity|].
      assert (~ (0 <= b)%Q) by (rewrite <- Qle_bool_iff; congruence). lra.
    + destruct (Qeq_bool b 0) eqn:E0; [apply Qeq_bool_iff in E0; lra|].
      destruct (Qle_bool 0 b) eqn:E1; [apply Qle_bool_iff in E1; lra | reflexivity].
    + apply Qeq_bool_iff in H. now rewrite H.
  - intros column df r Hr.
    apply remove_extreme_outliers_In in Hr. destruct Hr as [_ [Hna|Hb]].
    + split; intro E; rewrite E in Hna; discriminate.
    + unfold within_bounds in Hb. apply andb_true_iff in Hb.
      destruct Hb as [Hlo Hup]. split; intro E; rewrite E in *.
      * now destruct (upper column df).
      * now destruct (lower column df).
Qed.

(** Aland 2020 follows a 2019 row whose sales were aggregated to 0. *)
Lemma growth_after_zero_example :
  NoDup (map panel_key (integrate empty_cell_sources)) /\
  exists p r,
    In r (add_growth true (integrate empty_cell_sources)) /\
    precedes_in (add_growth true (integrate empty_cell_sources)) p r /\
    sales_of p = Fin 0 /\ sales_of r = Fin 20 /\
    ecom_sales_growth r = PInf.
Proof.
  assert (Hnd : NoDup (map panel_key (integrate empty_cell_sources))).
  { assert (E : map panel_key (integrate empty_cell_sources)
                = [("Aland", 2019); ("Aland", 2020)]) by (vm_compute; reflexivity).
    rewrite E. repeat constructor; simpl; intuition discriminate. }
  split; [exact Hnd|].
  do 2 eexists.
  match goal with |- In ?r ?g /\ _ => assert (Hr : In r g) by nth_row 1 end.
  split; [exact Hr|].
  match goal with |- precedes_in ?g ?p ?r /\ _ =>
    assert (Hp : precedes_in g p r)
  end.
  { split; [nth_row 0|]. split; [reflexivity|]. split; [reflexivity|].
    intros q Hq _. vm_compute in Hq.
    destruct Hq as [<-|[<-|[]]]; vm_compute; intros [H1 H2];
      first [discriminate H1 | discriminate H2]. }
  split; [exact Hp|]. split; [reflexivity|]. split; [reflexivity|].
  apply (proj1 (proj1 (growth_after_zero true (integrate empty_cell_sources) Hnd)
                  _ _ 0%Q 20%Q Hr Hp eq_refl (Qeq_refl 0) eq_refl)).
  reflexivity.
Defined.

(* ================================================================== *)
(** * Rows before the joins and through the cleaner *)

(** Before any join the e-commerce table has one row per
    (country_name, year), whatever the sources hold and whether or not the
    monthly override applies. *)
Theorem ecom_table_keys_unique (s : Sources) :
  NoDup (map key_of (ecom_agg (df_ecom s))) /\
  NoDup (map key_of (ecom_table s)).
Proof. split; [apply ecom_agg_NoDup | apply ecom_table_NoDup]. Qed.

(** The cleaner adds columns and removes rows, nothing else: the frame
    with the growth columns holds the rows of the integrated panel, each
    once, and every emitted row is one of them with its integrated columns
    unchanged. *)
Theorem cleaner_keeps_rows_whole (fill_pad : bool) (m : list PanelRow) :
  Permutation (map panel_of (add_growth fill_pad m)) m /\
  List.length (add_growth fill_pad m) = List.length m /\
  (forall r, In r (clean fill_pad m) ->
             In r (add_growth fill_pad m) /\ In (panel_of r) m) /\
  (List.length (clean fill_pad m) <= List.length m)%nat.
Proof.
  assert (Hp : Permutation (map panel_of (add_growth fill_pad m)) m)
    by (rewrite add_growth_panels; apply sort_by_perm).
  assert (Hl : List.length (add_growth fill_pad m) = List.length m).
  { rewrite <- (length_map panel_of). now apply Permutation_length. }
  split; [exact Hp|]. split; [exact Hl|]. split.
  - intros r Hr. split; [|now apply clean_In in Hr].
    unfold clean, from_2012 in Hr. apply filter_In in Hr.
    destruct Hr as [Hr _]. now apply outlier_step_In.
  - rewrite <- Hl. unfold clean, from_2012.
    eapply Nat.le_trans; [apply filter_length_le|].
    rewrite outlier_step_eq. destruct (0 <? _); [|apply le_n].
    apply filter_length_le.
Qed.

(* ================================================================== *)
(** * The aggregate in the panel *)

Lemma table_row_reaches_panel (s : Sources) (e e' : EcomRow) :
  In e (ecom_table s) -> In e' (ecom_table s) ->
  e <> e' -> country_name e' = country_name e ->
  kept_name (df_class s) (country_name e) ->
  exists p, In p (integrate s) /\ ecom_of p = e.
Proof.
  intros He He' Hne Hsame [_ [[c [reg [Hc [Hn [Hreg Hex]]]]] Hpat]].
  set (mc := merge_class (ecom_table s) (df_class s)).
  set (mi := merge_internet mc (df_internet s)).
  assert (Hrow : forall x, In x (ecom_table s) -> country_name x = country_name e ->
                 exists r, In r (filter_regions mi) /\ ecom_of r = x).
  { intros x Hx Hcx.
    assert (Ha : In {| ecom_of := x; iso3 := Code c; region := Region c;
                       income_group := Income_group c |} mc)
      by (apply merge_class_matched; [exact Hx | exact Hc | now rewrite Hcx]).
    destruct (merge_internet_covers mc (df_internet s) _ Ha) as [r [Hr Hcl]].
    destruct (filter_regions_covers mi r reg Hr) as [r' [Hr' Hec]].
    - change (region r) with (region (classified_of r)). now rewrite Hcl.
    - exact Hex.
    - change (country_name r) with (country_name (classified_of r)).
      rewrite Hcl. simpl. now rewrite Hcx.
    - exists r'. split; [exact Hr'|]. rewrite Hec.
      change (ecom_of r) with (ecom_of (classified_of r)). now rewrite Hcl. }
  destruct (Hrow e He eq_refl) as [r [Hr Er]].
  destruct (Hrow e' He' Hsame) as [r' [Hr' Er']].
  assert (Hcov : In r (min_coverage (filter_regions mi))).
  { apply min_coverage_In. split; [exact Hr|].
    apply (two_in_filter _ _ r r' Hr Hr').
    - intros ->. congruence.
    - apply String.eqb_refl.
    - unfold master_country. apply String.eqb_eq.
      change (country_name r') with (country_name (ecom_of r')).
      change (country_name r) with (country_name (ecom_of r)).
      now rewrite Er, Er'. }
  unfold integrate. fold mc. fold mi.
  rewrite <- (merge_conflict_masters _ (df_ged s)) in Hcov.
  apply in_map_iff in Hcov. destruct Hcov as [p [Hp Hin]].
  exists p. split; [exact Hin|].
  change (ecom_of p) with (ecom_of (master_of p)). now rewrite Hp.
Qed.


Lemma agg_row_is_group_row (df : list EcomRaw) (e : EcomRow) :
  In e (ecom_agg df) ->
  ecom_group df (country_name e) (year e) <> [] /\
  e = group_row df (country_name e) (year e).
Proof.
  intro He. destruct (ecom_agg_In_source df e He) as [r [Hr [Hs [Hc Hy]]]].
  assert (Hne : ecom_group df (country_name e) (year e) <> []).
  { intro E.
    assert (Hin : In r (ecom_group df (country_name e) (year e))).
    { unfold ecom_group. apply filter_In. split; [exact Hr|].
      rewrite in_group_has_key, Hs. simpl. apply has_key_true.
      unfold ecom_key. now rewrite Hc, Hy. }
    rewrite E in Hin. exact Hin. }
  split; [exact Hne|].
  pose proof (ecom_agg_group_row df _ _ Hne) as H.
  assert (Hin : In e (rows_at key_of (country_name e, year e) (ecom_agg df))).
  { unfold rows_at. apply filter_In. split; [exact He|].
    apply key_eqb_eq. reflexivity. }
  rewrite H in Hin. destruct Hin as [E|[]]. symmetry. exact E.
Qed.


Lemma panel_row_is_group_row (s : Sources) (p : PanelRow) :
  In p (integrate s) -> not_overridden s (country_name p) (year p) ->
  ecom_group (df_ecom s) (country_name p) (year p) <> [] /\
  ecom_of p = group_row (df_ecom s) (country_name p) (year p).
Proof.
  intros Hp Hno. apply integrate_In in Hp. destruct Hp as [He _].
  apply ecom_table_In in He. destruct He as [He|[raw [Hraw He]]].
  - apply agg_row_is_group_row in He. exact He.
  - exfalso. unfold not_overridden in Hno. rewrite Hraw in Hno.
    destruct Hno as [Hc|Hy].
    + apply Hc. exact (canada_yearly_country raw _ He).
    + apply Hy. change (year p) with (year (ecom_of p)). now apply in_map.
Qed.




(* ================================================================== *)
(** * A run without its optional files *)

Lemma run_some (fill_pad : bool) (f : Files) :
  (exists panel, run fill_pad f = Some panel) <->
  ecom_file f <> None /\ class_file f <> None /\ internet_file f <> None.
Proof.
  unfold run, load.
  destruct (ecom_file f), (class_file f), (internet_file f); simpl; split;
    try (intros [panel E]; discriminate E);
    try (intros [H1 [H2 H3]]; congruence).
  - intros _. repeat split; discriminate.
  - intros _. eexists. reflexivity.
Qed.

Lemma load_sources (f : Files) (s : Sources) :
  load f = Some s ->
  df_canada_raw s = canada_file f /\ df_ged s = ged_file f.
Proof.
  unfold load.
  destruct (ecom_file f), (class_file f), (internet_file f);
    try discriminate.
  intros [= <-]. split; reflexivity.
Qed.

Lemma integrate_masters (s : Sources) :
  map master_of (integrate s) = master_before_conflict s.
Proof. unfold integrate. apply merge_conflict_masters. Qed.

Lemma integrate_without_events (s : Sources) :
  integrate (without_events s)
  = map (fun a => with_shocks a zero zero) (master_before_conflict s).
Proof. reflexivity. Qed.

Lemma zero_row (m : list MasterRow) (src : option (list GedRow)) (p : PanelRow) :
  In p (merge_conflict m src) -> zero_deaths p ->
  with_shocks (master_of p) zero zero = p.
Proof.
  intros Hp [Hc Hv].
  destruct (merge_conflict_shocks m src p Hp) as [cd [cv E]].
  pose proof (f_equal conflict_deaths E) as Ec.
  pose proof (f_equal civilian_deaths E) as Ev.
  unfold with_shocks in Ec, Ev. simpl in Ec, Ev.
  rewrite Hc in Ec. rewrite Hv in Ev. subst cd cv. symmetry. exact E.
Qed.

Lemma integrate_no_event (s : Sources) (ged : list GedRow) :
  df_ged s = Some ged ->
  Forall (no_event ged) (integrate s) ->
  integrate s = integrate (without_events s).
Proof.
  intros E Hno. rewrite integrate_without_events, <- integrate_masters.
  rewrite map_map. rewrite <- (map_id (integrate s)) at 1.
  apply map_ext_in. intros p Hp. symmetry.
  rewrite Forall_forall in Hno.
  apply (zero_row (master_before_conflict s) (df_ged s)); [exact Hp|].
  unfold integrate in Hp. rewrite E in Hp.
  exact (proj2 (proj2 (merge_conflict_some _ _ _ Hp))
               (Hno p ltac:(unfold integrate; rewrite E; exact Hp))).
Qed.

(** C9.  A run ends with a panel exactly when the three required files
    load, whatever happens to the two optional ones.  The conflict step
    keeps the rows it is given, one for one, whether the events load or
    not.  Without the events the panel is the panel before that step with
    conflict_deaths = 0 and civilian_deaths = 0 on every row, and so is the
    emitted panel; it is the panel that loaded events give when none of
    them matches a row.  Without the monthly override the e-commerce table
    is the global aggregate as it stands, every panel row carries the
    aggregated row of its country and year, and an aggregated row whose
    country is kept and has a second row is in the panel.  With the events
    loaded neither column is ever null, and a row that no event matches
    has 0 in both. *)
Theorem C9_optional_sources (s : Sources) :
  (forall fill_pad f,
      ((exists panel, run fill_pad f = Some panel) <->
       ecom_file f <> None /\ class_file f <> None /\ internet_file f <> None) /\
      (load f = Some s ->
       run fill_pad f = Some (pipeline fill_pad s) /\
       df_canada_raw s = canada_file f /\ df_ged s = ged_file f)) /\
  map master_of (integrate s) = master_before_conflict s /\
  (df_ged s = None ->
   integrate s
   = map (fun a => with_shocks a zero zero) (master_before_conflict s) /\
   Forall zero_deaths (integrate s) /\
   forall fill_pad, Forall (fun r : CleanRow => zero_deaths r) (pipeline fill_pad s)) /\
  (df_canada_raw s = None ->
   ecom_table s = ecom_agg (df_ecom s) /\
   (forall p : PanelRow,
       In p (integrate s) ->
       ecom_of p = group_row (df_ecom s) (country_name p) (year p)) /\
   (forall e e' : EcomRow,
       In e (ecom_agg (df_ecom s)) -> In e' (ecom_agg (df_ecom s)) ->
       e <> e' -> country_name e' = country_name e ->
       kept_name (df_class s) (country_name e) ->
       exists p, In p (integrate s) /\ ecom_of p = e)) /\
  (forall ged, df_ged s = Some ged ->
     Forall (fun p : PanelRow =>
               isna (conflict_deaths p) = false /\
               isna (civilian_deaths p) = false /\
               (no_event ged p -> zero_deaths p))
            (integrate s) /\
     (Forall (no_event ged) (integrate s) ->
      integrate s = integrate (without_events s))).
Proof.
  split; [|split; [|split; [|split]]].
  - intros pad f. split; [apply run_some|].
    intro E. split; [|now apply load_sources].
    unfold run. now rewrite E.
  - apply integrate_masters.
  - intro E.
    assert (Hi : integrate s
                 = map (fun a => with_shocks a zero zero) (master_before_conflict s))
      by (unfold integrate; rewrite E; reflexivity).
    assert (H : forall p, In p (integrate s) -> zero_deaths p).
    { rewrite Hi. intros p Hp.
      apply in_map_iff in Hp. destruct Hp as [a [<- _]]. now split. }
    split; [exact Hi|]. split; [|intro pad]; apply Forall_forall.
    + exact H.
    + intros r Hr. apply pipeline_In in Hr. apply H. tauto.
  - intro E.
    assert (Ht : ecom_table s = ecom_agg (df_ecom s))
      by (unfold ecom_table; now rewrite E).
    split; [exact Ht|]. split.
    + intros p Hp. apply panel_row_is_group_row; [exact Hp|].
      unfold not_overridden. now rewrite E.
    + intros e e' He He' Hne Hc Hk. rewrite <- Ht in He, He'.
      now apply (table_row_reaches_panel s e e').
  - intros ged E. split.
    + unfold integrate. rewrite E.
      apply Forall_forall. intros p Hp. now apply merge_conflict_some in Hp.
    + now apply integrate_no_event.
Qed.

(** Aland without its optional files: the run ends with a panel, the two
    rows before the conflict step are the two rows of the panel, each with
    0 deaths; and with one event for 2019, the row of 2020 has 0. *)
Lemma C9_aland_events :
  load required_files_only = Some no_events_sources /\
  run true required_files_only = Some (pipeline true no_events_sources) /\
  List.length (master_before_conflict no_events_sources) = 2%nat /\
  map master_of (integrate no_events_sources)
  = master_before_conflict no_events_sources /\
  integrate no_events_sources
  = map (fun a => with_shocks a zero zero)
        (master_before_conflict no_events_sources) /\
  df_canada_raw events_sources = None /\
  ecom_table events_sources = ecom_agg (df_ecom events_sources) /\
  Forall (fun p : PanelRow =>
            isna (conflict_deaths p) = false /\
            isna (civilian_deaths p) = false /\
            (no_event [ {| ged_year := 2019; ged_country := Some "Aland";
                           best := of_Z 7; deaths_civilians := of_Z 3 |} ] p ->
             zero_deaths p))
         (integrate events_sources).
Proof.
  assert (El : load required_files_only = Some no_events_sources)
    by reflexivity.
  destruct (C9_optional_sources no_events_sources) as [H1 [H2 [H3 _]]].
  destruct (C9_optional_sources events_sources) as [_ [_ [_ [H4 H5]]]].
  split; [exact El|].
  split; [exact (proj1 (proj2 (H1 true required_files_only) El))|].
  split; [vm_compute; reflexivity|].
  split; [exact H2|].
  split; [exact (proj1 (H3 eq_refl))|].
  split; [reflexivity|].
  split; [exact (proj1 (H4 eq_refl))|].
  exact (proj1 (H5 _ eq_refl)).
Defined.
